(** * Harmonised province-by-sector panel, 1975-1995

    A shallow embedding of [00_prepare_base_panel_v2.py]: the geography
    normaliser, the unit scaler, the CPI table and the deflation, the
    splicing of the two GDP vintages, the allocation of the combined
    agriculture-and-fishing compensation, the left-join plan of the two
    panels, the event-study indicators and the closing diagnostics.

    Numeric cells are binary64 floats, as in pandas: a missing value is
    NaN, and a division by zero gives an infinity or NaN and never raises.
    Text cells are strings of bytes; the case conversions below act on the
    ASCII letters. *)

From Stdlib Require Import ZArith List String Ascii Bool Lia Floats.
From Stdlib Require Import DecimalString DecimalNat FinFun Sorted.
Import ListNotations.

Local Open Scope string_scope.
Local Open Scope list_scope.
Local Open Scope Z_scope.

(** ** Numeric cells *)

Definition isna (x : float) : bool := is_nan x.
Definition notna (x : float) : bool := negb (isna x).

(** [Series.fillna(v)]. *)
Definition fillna (v x : float) : float := if isna x then v else x.

(** [Series.replace({0: np.nan})]. *)
Definition replace_zero_nan (x : float) : float :=
  if (x =? 0)%float then nan else x.

(** The deflation written at every site of the script:
    [nominal / (CPI_index / 100.0)]. *)
Definition deflate (nominal cpi_index : float) : float :=
  (nominal / (cpi_index / 100))%float.

(** Aggregations of a group of cells.  pandas skips NaN in [sum] and
    [mean]; the sum of no value is 0 and the mean of no value is NaN.  The
    additions are done left to right. *)
Definition dropna (xs : list float) : list float := filter notna xs.

Definition fsum (xs : list float) : float := fold_left PrimFloat.add xs 0%float.

Definition sum_skipna (xs : list float) : float := fsum (dropna xs).

Definition fcount (xs : list float) : float :=
  of_uint63 (Uint63.of_Z (Z.of_nat (List.length xs))).

Definition mean_skipna (xs : list float) : float :=
  match dropna xs with
  | [] => nan
  | v => (fsum v / fcount v)%float
  end.

(** [aggfunc="first"]: the first value of the group that is not NaN. *)
Definition first_valid (xs : list float) : float :=
  match dropna xs with
  | [] => nan
  | x :: _ => x
  end.

(** ** Text cells *)

Definition is_upper (c : ascii) : bool :=
  let n := nat_of_ascii c in (65 <=? n)%nat && (n <=? 90)%nat.
Definition is_lower (c : ascii) : bool :=
  let n := nat_of_ascii c in (97 <=? n)%nat && (n <=? 122)%nat.
Definition to_lower (c : ascii) : ascii :=
  if is_upper c then ascii_of_nat (nat_of_ascii c + 32) else c.
Definition to_upper (c : ascii) : ascii :=
  if is_lower c then ascii_of_nat (nat_of_ascii c - 32) else c.

(** [str.lower()]. *)
Fixpoint lower (s : string) : string :=
  match s with
  | EmptyString => EmptyString
  | String c t => String (to_lower c) (lower t)
  end.

(** [str.title()]: a letter that follows a letter is lowered, a letter
    that follows anything else is raised. *)
Fixpoint title_from (prev_cased : bool) (s : string) : string :=
  match s with
  | EmptyString => EmptyString
  | String c t =>
      if is_lower c || is_upper c
      then String (if prev_cased then to_lower c else to_upper c) (title_from true t)
      else String c (title_from false t)
  end.
Definition title (s : string) : string := title_from false s.

Definition is_space (c : ascii) : bool :=
  let n := nat_of_ascii c in
  (n =? 32)%nat || ((9 <=? n)%nat && (n <=? 13)%nat) || ((28 <=? n)%nat && (n <=? 31)%nat).

Fixpoint lstrip (s : string) : string :=
  match s with
  | EmptyString => EmptyString
  | String c t => if is_space c then lstrip t else s
  end.

Definition rev_string (s : string) : string :=
  string_of_list_ascii (rev (list_ascii_of_string s)).

(** [str.strip()]. *)
Definition strip (s : string) : string :=
  rev_string (lstrip (rev_string (lstrip s))).

(** [pat in s]: [pat] occurs in [s]. *)
Fixpoint contains (pat s : string) : bool :=
  prefix pat s ||
  match s with
  | EmptyString => false
  | String _ t => contains pat t
  end.

(** The regular expression [a.*b]: an occurrence of [a], then characters
    other than a line feed, then [b]. *)
Fixpoint until_newline (s : string) : string :=
  match s with
  | EmptyString => EmptyString
  | String c t => if (nat_of_ascii c =? 10)%nat then EmptyString else String c (until_newline t)
  end.

Fixpoint drop (n : nat) (s : string) : string :=
  match n, s with
  | O, _ => s
  | S n', String _ t => drop n' t
  | S _, EmptyString => EmptyString
  end.

Fixpoint contains_then (a b s : string) : bool :=
  (prefix a s && contains b (until_newline (drop (String.length a) s))) ||
  match s with
  | EmptyString => false
  | String _ t => contains_then a b t
  end.

Definition isin (s : string) (l : list string) : bool := existsb (String.eqb s) l.

(** ** Exceptions *)

Inductive exn : Type :=
| ValueError (msg : string)
| IndexError
| AssertionError (msg : string).

Inductive result (A : Type) : Type :=
| Ok (a : A)
| Raise (e : exn).
Arguments Ok {A} a.
Arguments Raise {A} e.

Definition bind {A B : Type} (m : result A) (k : A -> result B) : result B :=
  match m with
  | Ok a => k a
  | Raise e => Raise e
  end.

Notation "x <- m ;; k" := (bind m (fun x => k))
  (at level 61, m at next level, right associativity).

Definition assert (b : bool) (msg : string) : result unit :=
  if b then Ok tt else Raise (AssertionError msg).

(** ** Keyed tables *)

(** The grains of the script: (Year, Province) and (Year, Province, Sector). *)
Abbreviation YP := (Z * string)%type.
Abbreviation YPS := (Z * string * string)%type.

Definition yp_eqb (a b : YP) : bool :=
  (fst a =? fst b) && String.eqb (snd a) (snd b).
Definition yps_eqb (a b : YPS) : bool :=
  yp_eqb (fst a) (fst b) && String.eqb (snd a) (snd b).

(** Lexicographic order of [sort_values(["Year","Province"])]. *)
Definition yp_leb (a b : YP) : bool :=
  (fst a <? fst b) || ((fst a =? fst b) && String.leb (snd a) (snd b)).
Definition yps_leb (a b : YPS) : bool :=
  (negb (yp_leb (fst b) (fst a))) ||
  (yp_eqb (fst a) (fst b) && String.leb (snd a) (snd b)).

Definition between (y lo hi : Z) : bool := (lo <=? y) && (y <=? hi).

(** A stable sort: pandas sorts on several columns with a stable
    algorithm, so rows with equal keys keep their order. *)
Fixpoint insert_by {A : Type} (leb : A -> A -> bool) (x : A) (l : list A) : list A :=
  match l with
  | [] => [x]
  | y :: t => if leb x y then x :: l else y :: insert_by leb x t
  end.

Fixpoint sort_by {A : Type} (leb : A -> A -> bool) (l : list A) : list A :=
  match l with
  | [] => []
  | x :: t => insert_by leb x (sort_by leb t)
  end.

Section Relational.
Context {K : Type} (eqb : K -> K -> bool).

(** The distinct keys in order of first appearance. *)
Fixpoint unique_from (seen ks : list K) : list K :=
  match ks with
  | [] => []
  | k :: t =>
      if existsb (eqb k) seen then unique_from seen t
      else k :: unique_from (k :: seen) t
  end.
Definition unique (ks : list K) : list K := unique_from [] ks.

Definition group {V : Type} (k : K) (tbl : list (K * V)) : list V :=
  map snd (filter (fun r => eqb k (fst r)) tbl).

(** [groupby(keys, sort=...)[col].agg()]: one row per distinct key;
    [order] is the sort of the keys, or the identity for [sort=False]. *)
Definition groupby {V W : Type} (order : list K -> list K)
    (agg : list V -> W) (tbl : list (K * V)) : list (K * W) :=
  map (fun k => (k, agg (group k tbl))) (order (unique (map fst tbl))).

(** [left.merge(right, how="left")] and SQL's LEFT JOIN: every left row
    is kept, once per matching right row, and once with [na] when no
    right row matches. *)
Definition merge_left {A B : Type} (key : A -> K) (L : list A)
    (R : list (K * B)) (na : B) : list (A * B) :=
  flat_map (fun a =>
    match filter (fun r => eqb (key a) (fst r)) R with
    | [] => [(a, na)]
    | ms => map (fun r => (a, snd r)) ms
    end) L.

(** [drop_duplicates(keys, keep="first")]. *)
Fixpoint drop_duplicates_from {V : Type} (seen : list K) (tbl : list (K * V)) : list (K * V) :=
  match tbl with
  | [] => []
  | r :: t =>
      if existsb (eqb (fst r)) seen then drop_duplicates_from seen t
      else r :: drop_duplicates_from (fst r :: seen) t
  end.
Definition drop_duplicates {V : Type} (tbl : list (K * V)) : list (K * V) :=
  drop_duplicates_from [] tbl.

(** [df.duplicated(keys).any()]. *)
Fixpoint any_duplicated (ks : list K) : bool :=
  match ks with
  | [] => false
  | k :: t => existsb (eqb k) t || any_duplicated t
  end.
End Relational.

(** ** Source observations *)

(** A row of a source table after its [Year] column has been set from the
    reference date ([Y] is [option Z] where the script keeps a nullable
    integer, [Z] where it converts to [int]).  [text] holds the text
    columns by name; [Province] and [VALUE_DOLLARS] are the columns that
    the geography normaliser and the unit scaler set. *)
Record Obs (Y : Type) : Type := mkObs {
  Year : Y;
  text : list (string * string);
  VALUE : float;
  SCALAR_FACTOR : option string;
  Province : string;
  VALUE_DOLLARS : float
}.
Arguments mkObs {Y}.
Arguments Year {Y}.
Arguments text {Y}.
Arguments VALUE {Y}.
Arguments SCALAR_FACTOR {Y}.
Arguments Province {Y}.
Arguments VALUE_DOLLARS {Y}.

Record Frame (Y : Type) : Type := mkFrame {
  columns : list string;
  rows : list (Obs Y)
}.
Arguments mkFrame {Y}.
Arguments columns {Y}.
Arguments rows {Y}.

Definition set_Province {Y : Type} (r : Obs Y) (p : string) : Obs Y :=
  mkObs (Year r) (text r) (VALUE r) (SCALAR_FACTOR r) p (VALUE_DOLLARS r).
Definition set_VALUE_DOLLARS {Y : Type} (r : Obs Y) (v : float) : Obs Y :=
  mkObs (Year r) (text r) (VALUE r) (SCALAR_FACTOR r) (Province r) v.


(** A text cell; [None] is a missing cell. *)
Definition cell {Y : Type} (name : string) (r : Obs Y) : option string :=
  option_map snd (find (fun c => String.eqb name (fst c)) (text r)).

(** [astype(str)] / [str(x)]. *)
Definition astype_str (c : option string) : string :=
  match c with Some s => s | None => "nan" end.

(** [df[name] == s] *)
Definition cell_eq {Y : Type} (name : string) (r : Obs Y) (s : string) : bool :=
  match cell name r with Some v => String.eqb v s | None => false end.

Definition add_column (name : string) (cols : list string) : list string :=
  if isin name cols then cols else cols ++ [name].

(** ** Geography normaliser *)

Definition included_geo : list string :=
  ["Alberta"; "British Columbia"; "Manitoba"; "New Brunswick";
   "Newfoundland And Labrador"; "Nova Scotia"; "Ontario"; "Quebec"; "Saskatchewan"].

Definition aliases : list (string * string) :=
  [("Nfld.", "Newfoundland And Labrador");
   ("Nwt", "Northwest Territories");
   ("B.C.", "British Columbia");
   ("P.E.I.", "Prince Edward Island")].

Definition normalize_province (prov : string) : string :=
  let prov := title (strip prov) in
  match find (fun a => String.eqb prov (fst a)) aliases with
  | Some a => snd a
  | None => prov
  end.

Definition apply_geo_filter {Y : Type} (df : Frame Y) : result (Frame Y) :=
  match find (fun c => isin (lower c) ["geo"; "geography"; "province"]) (columns df) with
  | None => Raise (ValueError "No GEO or Province column found")
  | Some geo_col =>
      let out := map (fun r => set_Province r (normalize_province (astype_str (cell geo_col r))))
                     (rows df) in
      Ok (mkFrame (add_column "Province" (columns df))
                  (filter (fun r => isin (Province r) included_geo) out))
  end.

(** ** Unit scaler *)

Definition SCALE_MAP : list (string * float) :=
  [("units", 1%float); ("thousands", 1000%float); ("millions", 1000000%float)].

Definition scale_mult (tag : option string) : float :=
  match tag with
  | None => 1%float
  | Some s =>
      match find (fun e => String.eqb (lower s) (fst e)) SCALE_MAP with
      | Some e => snd e
      | None => 1%float
      end
  end.

Definition add_dollar_value {Y : Type} (df : Frame Y) : Frame Y :=
  mkFrame (add_column "VALUE_DOLLARS" (columns df))
          (map (fun r => set_VALUE_DOLLARS r (VALUE r * scale_mult (SCALAR_FACTOR r))%float)
               (rows df)).

(** ** Price deflator: the CPI table *)

Definition sort_years (ks : list Z) : list Z := sort_by Z.leb ks.
Definition sort_yp (ks : list YP) : list YP := sort_by yp_leb ks.
Definition sort_yps (ks : list YPS) : list YPS := sort_by yps_leb ks.

(** [cpi] after its [Province] column is set and the all-items filter. *)
Definition cpi_all_items (cpi : list (Obs Z)) : list (Obs Z) :=
  filter (fun r => match cell "Products and product groups" r with
                   | Some s => String.eqb (lower s) "all-items"
                   | None => false
                   end)
         (map (fun r => set_Province r (normalize_province (astype_str (cell "GEO" r)))) cpi).

(** The provincial observations from 1978 on, columns (Year, Province, VALUE). *)
Definition cpi_prov_obs (cpi : list (Obs Z)) : list (YP * float) :=
  map (fun r => ((Year r, Province r), VALUE r))
      (filter (fun r => isin (Province r) included_geo && (1978 <=? Year r))
              (cpi_all_items cpi)).

Definition cpi_prov (cpi : list (Obs Z)) : list (YP * float) :=
  groupby yp_eqb sort_yp mean_skipna (cpi_prov_obs cpi).

(** The national observations of 1975-1977, columns (Year, VALUE). *)
Definition cpi_canada_obs (cpi : list (Obs Z)) : list (Z * float) :=
  map (fun r => (Year r, VALUE r))
      (filter (fun r => cell_eq "GEO" r "Canada" && between (Year r) 1975 1977)
              (cpi_all_items cpi)).

Definition cpi_canada_avg (cpi : list (Obs Z)) : list (Z * float) :=
  groupby Z.eqb sort_years mean_skipna (cpi_canada_obs cpi).

Definition cpi_1975 (cpi : list (Obs Z)) : list (Z * float) :=
  filter (fun r => fst r =? 1975) (cpi_canada_avg cpi).

Definition cpi_1974 (cpi : list (Obs Z)) : list (Z * float) :=
  map (fun r => (1974, snd r)) (cpi_1975 cpi).

(** The national averages with the copied 1974 row in front. *)
Definition cpi_canada_avg' (cpi : list (Obs Z)) : list (Z * float) :=
  cpi_1974 cpi ++ cpi_canada_avg cpi.

Definition cpi_backfilled (cpi : list (Obs Z)) : list (YP * float) :=
  flat_map (fun prov => map (fun r => ((fst r, prov), snd r)) (cpi_canada_avg' cpi))
           included_geo.

(** Columns (Year, Province, CPI_index). *)
Definition cpi_final (cpi : list (Obs Z)) : list (YP * float) :=
  cpi_prov cpi ++ cpi_backfilled cpi.

(** ** Vintage splicer: GDP by sector *)

Inductive sector_key : Type := OIL_GAS | REFINING | AGRIC | FISH | MANUFACT | EDU.

Definition SECTORS (k : sector_key) : string :=
  match k with
  | OIL_GAS => "Mining, quarrying and oil well industries"
  | REFINING => "Refined petroleum and coal products industries"
  | AGRIC => "Agricultural and related services industries"
  | FISH => "Fishing and trapping industries"
  | MANUFACT => "Manufacturing industries"
  | EDU => "Educational service industries"
  end.

(** [df[mask & df["Year"].between(y0, y1)][["Year","Province","VALUE_DOLLARS"]]]:
    a missing year is never between the bounds. *)
Definition select_years (mask : Obs (option Z) -> bool) (y0 y1 : Z)
    (df : list (Obs (option Z))) : list (YP * float) :=
  flat_map (fun r =>
    match Year r with
    | Some y => if mask r && between y y0 y1
                then [((y, Province r), VALUE_DOLLARS r)] else []
    | None => []
    end) df.

(** Columns (Year, Province, GDP_Nominal). *)
Definition extract_nominal_block (df : Frame (option Z)) (industry : string) (y0 y1 : Z)
    : list (YP * float) :=
  select_years (fun r => cell_eq "Prices" r "Current dollars (1971 to 1984)"
                         && cell_eq "Industry" r industry) y0 y1 (rows df).

(** Columns (Year, Province, GDP_Real). *)
Definition extract_real_block (df : Frame (option Z)) (industry : string) (y0 y1 : Z)
    : list (YP * float) :=
  select_years (fun r => cell_eq "Prices" r "1986 constant dollars"
                         && cell_eq "Industry" r industry) y0 y1 (rows df).

(** The step after every merge with the CPI table: from the columns
    (Year, Province, nominal, CPI_index) to (Year, Province, real). *)
Definition deflate_rows (merged : list (YP * float * float)) : list (YP * float) :=
  map (fun r => (fst (fst r), deflate (snd (fst r)) (snd r))) merged.

(** What holds of one deflated cell. *)
Definition deflation_ok (nominal cpi_index real : float) : Prop :=
  real = (nominal / (cpi_index / 100))%float /\
  (isna cpi_index = true -> isna real = true) /\
  ((cpi_index =? 0)%float = true -> is_finite nominal = true ->
   (nominal =? 0)%float = false -> is_infinity real = true /\ isna real = false) /\
  ((cpi_index =? 0)%float = true -> (nominal =? 0)%float = true -> isna real = true).

(** [pre] of [build_sector] after the merge: each row carries
    (GDP_Nominal, CPI_index). *)
Definition sector_pre_merged (gdp80 : Frame (option Z)) (cpi : list (YP * float))
    (k : sector_key) : list (YP * float * float) :=
  merge_left yp_eqb fst (extract_nominal_block gdp80 (SECTORS k) 1975 1983) cpi nan.

(** [pre] with its GDP_Real column, cut down to (Year, Province, GDP_Real). *)
Definition sector_pre (gdp80 : Frame (option Z)) (cpi : list (YP * float))
    (k : sector_key) : list (YP * float) :=
  deflate_rows (sector_pre_merged gdp80 cpi k).

Definition sector_post (gdp90 : Frame (option Z)) (k : sector_key) : list (YP * float) :=
  extract_real_block gdp90 (SECTORS k) 1984 1995.

(** Columns (Year, Province, Sector, GDP_Real). *)
Definition build_sector (gdp80 gdp90 : Frame (option Z)) (cpi : list (YP * float))
    (k : sector_key) (label : string) : list (YPS * float) :=
  map (fun r => ((fst r, label), snd r)) (sector_pre gdp80 cpi k ++ sector_post gdp90 k).

Definition gdp_sectors (gdp80 gdp90 : Frame (option Z)) (cpi : list (YP * float))
    : list (YPS * float) :=
  build_sector gdp80 gdp90 cpi OIL_GAS "OIL_GAS" ++
  build_sector gdp80 gdp90 cpi REFINING "REFINING" ++
  build_sector gdp80 gdp90 cpi AGRIC "AGRIC" ++
  build_sector gdp80 gdp90 cpi FISH "FISH" ++
  build_sector gdp80 gdp90 cpi MANUFACT "MANUFACT" ++
  build_sector gdp80 gdp90 cpi EDU "EDU".

(** ** Vintage splicer: total GDP *)

(** [low = {c.lower(): c for c in df.columns}]: the lowered names in order
    of first appearance, each with the last column that lowers to it. *)
Definition low_dict (cols : list string) : list (string * string) :=
  map (fun k => (k, match find (fun c => String.eqb (lower c) k) (rev cols) with
                    | Some c => c
                    | None => k
                    end))
      (unique String.eqb (map lower cols)).

Fixpoint find_in_low (low : list (string * string)) (needles : list string) : option string :=
  match needles with
  | [] => None
  | n :: t =>
      match find (fun kv => contains n (fst kv)) low with
      | Some kv => Some (snd kv)
      | None => find_in_low low t
      end
  end.

Definition _find_col {Y : Type} (df : Frame Y) (needles : list string) : option string :=
  find_in_low (low_dict (columns df)) needles.

Definition _gdp_market_prices_mask {Y : Type} (concept_col : string) (r : Obs Y) : bool :=
  contains_then "gross domestic product" "market prices"
                (lower (astype_str (cell concept_col r))).

(** Columns (Year, Province, GDP_Real_Total). *)
Definition build_total_gdp_75_80 (df80 : Frame (option Z)) (cpi : list (YP * float))
    : result (list (YP * float)) :=
  match _find_col df80 ["income-based estimates"; "estimates"] with
  | None => Raise (ValueError "Could not find concept column on 36100324")
  | Some concept_col =>
      let base := select_years (_gdp_market_prices_mask concept_col) 1975 1980 (rows df80) in
      Ok (deflate_rows (merge_left yp_eqb fst base cpi nan))
  end.

Definition str_contains_any (pats : list string) (c : option string) : bool :=
  existsb (fun p => contains p (lower (astype_str c))) pats.

Definition sort_values_yp (tbl : list (YP * float)) : list (YP * float) :=
  sort_by (fun a b => yp_leb (fst a) (fst b)) tbl.

(** The real-basis rows of table B, columns (Year, Province, GDP_Real_Total). *)
Definition part_real (concept_col price_col : string) (df90 : Frame (option Z))
    : list (YP * float) :=
  select_years (fun r => _gdp_market_prices_mask concept_col r
                         && str_contains_any ["constant"; "chained"] (cell price_col r))
               1981 1995 (rows df90).

(** The current-dollar rows of table B, deflated. *)
Definition part_curr (concept_col price_col : string) (df90 : Frame (option Z))
    (cpi : list (YP * float)) : list (YP * float) :=
  deflate_rows
    (merge_left yp_eqb fst
       (select_years (fun r => _gdp_market_prices_mask concept_col r
                               && str_contains_any ["current"] (cell price_col r))
                     1981 1995 (rows df90))
       cpi nan).

Definition build_total_gdp_81_95 (df90 : Frame (option Z)) (cpi : list (YP * float))
    : result (list (YP * float)) :=
  match _find_col df90 ["income-based estimates"; "estimates"] with
  | None => Raise (ValueError "Could not find concept column on 36100221")
  | Some concept_col =>
      let out :=
        match _find_col df90 ["prices"] with
        | Some price_col =>
            part_real concept_col price_col df90 ++ part_curr concept_col price_col df90 cpi
        | None =>
            deflate_rows
              (merge_left yp_eqb fst
                 (select_years (_gdp_market_prices_mask concept_col) 1981 1995 (rows df90))
                 cpi nan)
        end in
      Ok (drop_duplicates yp_eqb (sort_values_yp out))
  end.

Definition gdp_total (totgdp80 totgdp90 : Frame (option Z)) (cpi : list (YP * float))
    : result (list (YP * float)) :=
  gdp_tot_75_80 <- build_total_gdp_75_80 totgdp80 cpi ;;
  gdp_tot_81_95 <- build_total_gdp_81_95 totgdp90 cpi ;;
  Ok (gdp_tot_75_80 ++ gdp_tot_81_95).

(** ** Compensation: monthly to annual, deflated once *)

Definition COMP_INDMAP : list (string * string) :=
  [("Labour income", "TOTAL");
   ("Agriculture, fishing and trapping", "AG_FISH");
   ("Mining, quarrying and oil wells", "OIL_GAS");
   ("Refined petroleum and coal products industries", "REFINING");
   ("Manufacturing", "MANUFACT");
   ("Education and related services", "EDU")].

(** [comp_monthly]: the rows of [comp_raw] whose Sector is a key of
    [COMP_INDMAP], relabelled; columns (Year, Province, Sector, Comp_Nominal). *)
Definition comp_monthly (comp_raw : Frame Z) : list (YPS * float) :=
  flat_map (fun r =>
    match cell "Sector" r with
    | Some s =>
        match find (fun e => String.eqb s (fst e)) COMP_INDMAP with
        | Some e => [((Year r, Province r, snd e), VALUE_DOLLARS r)]
        | None => []
        end
    | None => []
    end) (rows comp_raw).

Record CompRow : Type := mkCompRow {
  comp_key : YPS;
  Comp_Nominal : float;
  CPI_index : float;
  Comp_Real : float
}.

Definition comp_annual_merged (comp_raw : Frame Z) (cpi_final : list (YP * float))
    : list (YPS * float * float) :=
  merge_left yp_eqb (fun r => fst (fst r))
    (groupby yps_eqb sort_yps sum_skipna (comp_monthly comp_raw)) cpi_final nan.

Definition comp_annual (comp_raw : Frame Z) (cpi_final : list (YP * float)) : list CompRow :=
  map (fun r => mkCompRow (fst (fst r)) (snd (fst r)) (snd r)
                          (deflate (snd (fst r)) (snd r)))
      (comp_annual_merged comp_raw cpi_final).

Definition comp_sector (r : CompRow) : string := snd (comp_key r).
Definition comp_yp (r : CompRow) : YP := fst (comp_key r).

(** (A) Columns (Year, Province, Comp_Real_Total). *)
Definition comp_total (ca : list CompRow) : list (YP * float) :=
  map (fun r => (comp_yp r, Comp_Real r))
      (filter (fun r => String.eqb (comp_sector r) "TOTAL") ca).

(** (B) Columns (Year, Province, Sector, Comp_Real_Sector). *)
Definition comp_match (ca : list CompRow) : list (YPS * float) :=
  map (fun r => (comp_key r, Comp_Real r))
      (filter (fun r => isin (comp_sector r) ["OIL_GAS"; "REFINING"; "MANUFACT"; "EDU"]) ca).

(** (C) Columns (Year, Province, Comp_AF_Real). *)
Definition comp_agfish (ca : list CompRow) : list (YP * float) :=
  map (fun r => (comp_yp r, Comp_Real r))
      (filter (fun r => String.eqb (comp_sector r) "AG_FISH") ca).

(** ** Compensation allocator *)

(** The pivot of the AGRIC and FISH rows of [gdp_sectors]: the first
    non-missing GDP_Real of every (Year, Province, Sector), the keys with no
    such value dropped. *)
Definition pivot_agged (gdp_sectors : list (YPS * float)) : list (YPS * float) :=
  filter (fun r => notna (snd r))
    (groupby yps_eqb sort_yps first_valid
       (filter (fun r : YPS * float => isin (snd (fst r)) ["AGRIC"; "FISH"]) gdp_sectors)).

(** The cell of the pivot at a key and a sector; NaN when there is none. *)
Definition pivot_cell (agged : list (YPS * float)) (k : YP) (sector : string) : float :=
  match find (fun r => yps_eqb (k, sector) (fst r)) agged with
  | Some r => snd r
  | None => nan
  end.

Record WeightRow : Type := mkWeightRow {
  w_AGRIC : float;
  w_FISH : float;
  w_sum : float;
  w_ag : float;
  w_fi : float
}.

(** One row of [w] from the two pivot cells: [fillna(0.0)], the sum, and
    the two shares, NaN unless the sum is positive. *)
Definition weight_row (agric fish : float) : WeightRow :=
  let a := fillna 0%float agric in
  let f := fillna 0%float fish in
  let s := (a + f)%float in
  mkWeightRow a f s
    (if (0 <? s)%float then (a / s)%float else nan)
    (if (0 <? s)%float then (f / s)%float else nan).

(** [w]: columns (Year, Province, w_ag, w_fi). *)
Definition weights (gdp_sectors : list (YPS * float)) : list (YP * (float * float)) :=
  let agged := pivot_agged gdp_sectors in
  map (fun k => let r := weight_row (pivot_cell agged k "AGRIC") (pivot_cell agged k "FISH") in
                (k, (w_ag r, w_fi r)))
      (unique yp_eqb (map (fun r => fst (fst r)) agged)).

Record AllocRow : Type := mkAllocRow {
  alloc_key : YP;
  Comp_AF_Real : float;
  alloc_w_ag : float;
  alloc_w_fi : float
}.

(** [alloc]: the AG_FISH rows with their weights, 0.5 where a weight is
    missing. *)
Definition alloc (agfish : list (YP * float)) (w : list (YP * (float * float)))
    : list AllocRow :=
  map (fun r => mkAllocRow (fst (fst r)) (snd (fst r))
                           (fillna 0.5%float (fst (snd r)))
                           (fillna 0.5%float (snd (snd r))))
      (merge_left yp_eqb fst agfish w (nan, nan)).

Definition comp_ag (al : list AllocRow) : list (YPS * float) :=
  map (fun r => ((alloc_key r, "AGRIC"), (Comp_AF_Real r * alloc_w_ag r)%float)) al.

Definition comp_fi (al : list AllocRow) : list (YPS * float) :=
  map (fun r => ((alloc_key r, "FISH"), (Comp_AF_Real r * alloc_w_fi r)%float)) al.

(** Columns (Year, Province, Sector, Comp_Real_Sector). *)
Definition comp_sect (ca : list CompRow) (gdp_sectors : list (YPS * float))
    : list (YPS * float) :=
  let al := alloc (comp_agfish ca) (weights gdp_sectors) in
  comp_match ca ++ comp_ag al ++ comp_fi al.

(** The GDP figure that the pivot reads for a key and a sector: the first
    non-missing GDP_Real among the rows of that key in [gdp_sectors], NaN
    when there is none. *)
Definition gdp_figure (gdp_sectors : list (YPS * float)) (k : YP) (sector : string) : float :=
  first_valid (group yps_eqb (k, sector) gdp_sectors).

(** ** Employment *)

(** A test on a text cell, false on a missing cell. *)
Definition cell_test {Y : Type} (name : string) (p : string -> bool) (r : Obs Y) : bool :=
  match cell name r with Some s => p s | None => false end.

(** [lfs] after the three filters on its classification columns. *)
Definition lfs_filtered (lfs : Frame Z) : list (Obs Z) :=
  filter (fun r =>
            cell_test "Labour force characteristics"
                      (fun s => String.eqb (strip (lower s)) "employment") r &&
            cell_test "Gender" (fun s => String.eqb (strip (lower s)) "total - gender") r &&
            cell_test "Age group" (fun s => contains "15 years" (lower s)) r)
         (rows lfs).

(** [lfs["SCALAR_FACTOR"].str.lower().iloc[0] == "thousands"]; [iloc[0]]
    raises on a table with no row. *)
Definition first_tag_is_thousands (lfs : list (Obs Z)) : result bool :=
  match lfs with
  | [] => Raise IndexError
  | first :: _ =>
      Ok (match SCALAR_FACTOR first with
          | Some s => String.eqb (lower s) "thousands"
          | None => false
          end)
  end.

(** The [Employment] column, paired with its row. *)
Definition lfs_employment (lfs : list (Obs Z)) : result (list (Obs Z * float)) :=
  thousands <- first_tag_is_thousands lfs ;;
  if (thousands : bool)
  then Ok (map (fun r => (r, (VALUE r * 1000)%float)) lfs)
  else Ok (map (fun r => (r, VALUE r)) lfs).


(** The 1976 rows copied to 1975 when the table has 1976 and not 1975. *)
Definition backfill_1975 (tbl : list (YP * float)) : list (YP * float) :=
  let years := map (fun r => fst (fst r)) tbl in
  if existsb (Z.eqb 1976) years && negb (existsb (Z.eqb 1975) years)
  then tbl ++ map (fun r => ((1975, snd (fst r)), snd r))
                  (filter (fun r => fst (fst r) =? 1976) tbl)
  else tbl.

(** Columns (Year, Province, Employment). *)
Definition lfs_agg (lfs : Frame Z) : result (list (YP * float)) :=
  emp <- lfs_employment (lfs_filtered lfs) ;;
  Ok (backfill_1975
        (groupby yp_eqb sort_yp mean_skipna
           (map (fun re => ((Year (fst re), Province (fst re)), snd re)) emp))).

(** ** Population *)

(** Columns (Year, Province, Population). *)
Definition population (pop : Frame Z) : list (YP * float) :=
  backfill_1975
    (map (fun r => ((Year r, Province r), VALUE r))
         (filter (fun r => cell_eq "Age group" r "All ages" &&
                           cell_eq "Gender" r "Total - gender")
                 (rows pop))).

(** ** Event-study annotator *)

Definition TREAT_AB : list string := ["Alberta"].
Definition TREAT_PRAIRIES : list string := ["Alberta"; "Saskatchewan"; "Manitoba"].
Definition TREAT_MANU_CORE : list string := ["Ontario"; "Quebec"].
Definition TREAT_NFLD : list string := ["Newfoundland And Labrador"].

(** (name, year, treated provinces, half-window). *)
Definition EVENTS : list (string * Z * list string * Z) :=
  [("NEP", 1980, TREAT_AB, 6);
   ("CROW", 1984, TREAT_PRAIRIES, 6);
   ("CUSFTA", 1989, TREAT_MANU_CORE, 6);
   ("COD", 1992, TREAT_NFLD, 4)].

(** [range(lo, hi)]. *)
Definition range (lo hi : Z) : list Z :=
  map (fun i => lo + Z.of_nat i) (seq 0 (Z.to_nat (hi - lo))).

(** [f"{abs(k)}"]. *)
Definition digits (k : Z) : string := NilZero.string_of_uint (Nat.to_uint (Z.abs_nat k)).

(** [f"{name}_bin_{'m' if k<0 else 'p'}{abs(k)}"]. *)
Definition bin_col (name : string) (k : Z) : string :=
  String.append name
    (String.append "_bin_" (String.append (if k <? 0 then "m" else "p") (digits k))).

(** [f"{name}_treated"], [f"{name}_post"], [f"{name}_rel"]. *)
Definition treated_col (name : string) : string := String.append name "_treated".
Definition post_col (name : string) : string := String.append name "_post".
Definition rel_col (name : string) : string := String.append name "_rel".

(** A row with the columns that the annotator adds.  A cell of these
    columns is an integer or NaN ([None]); the relative time, stored as a
    float by the script, is an integer whenever it is not NaN. *)
Record Annotated (R : Type) : Type := mkAnnotated {
  base : R;
  event_cols : list (string * option Z)
}.
Arguments mkAnnotated {R}.
Arguments base {R}.
Arguments event_cols {R}.

(** [df[col] = v] on one row: the column is overwritten when it exists
    and appended otherwise. *)
Definition set_col (col : string) (v : option Z) (cols : list (string * option Z))
    : list (string * option Z) :=
  if existsb (fun c => String.eqb col (fst c)) cols
  then map (fun c => if String.eqb col (fst c) then (col, v) else c) cols
  else cols ++ [(col, v)].

(** [df[col]] on one row. *)
Definition get_col (col : string) (cols : list (string * option Z)) : option Z :=
  match find (fun c => String.eqb col (fst c)) cols with
  | Some c => snd c
  | None => None
  end.

(** [(df[rel] == k).astype(int)]: NaN equals no offset. *)
Definition indicator (rel : option Z) (k : Z) : Z :=
  match rel with
  | Some r => if r =? k then 1 else 0
  | None => 0
  end.

(** The offsets that get a column: [range(-window, window+1)] without -1. *)
Definition offsets (window : Z) : list Z :=
  filter (fun k => negb (k =? -1)) (range (- window) (window + 1)).

Section Annotator.
Context {R : Type} (Year_of : R -> Z) (Province_of : R -> string).

Definition add_event_vars_row (name : string) (year : Z) (treated : list string)
    (window : Z) (r : Annotated R) : Annotated R :=
  let c1 := set_col (treated_col name)
                    (Some (if isin (Province_of (base r)) treated then 1 else 0))
                    (event_cols r) in
  let is_treated := match get_col (treated_col name) c1 with
                    | Some t => t =? 1
                    | None => false
                    end in
  let c2 := set_col (post_col name)
                    (Some (if (year <=? Year_of (base r)) && is_treated then 1 else 0)) c1 in
  let c3 := set_col (rel_col name)
                    (if is_treated then Some (Year_of (base r) - year) else None) c2 in
  mkAnnotated (base r)
    (fold_left (fun cols k =>
                  if k =? -1 then cols
                  else set_col (bin_col name k)
                               (Some (indicator (get_col (rel_col name) cols) k)) cols)
               (range (- window) (window + 1)) c3).

Definition add_event_vars (df : list (Annotated R)) (name : string) (year : Z)
    (treated : list string) (window : Z) : list (Annotated R) :=
  map (add_event_vars_row name year treated window) df.

(** The loop over [EVENTS]. *)
Definition annotate (df : list (Annotated R)) : list (Annotated R) :=
  fold_left (fun df ev =>
               match ev with
               | (ename, eyear, etreat, ewin) => add_event_vars df ename eyear etreat ewin
               end) EVENTS df.
End Annotator.

(** ** Panel assembler *)

(** The source tables after normalisation and scaling:
    [add_dollar_value(apply_geo_filter(pd.read_csv(...)))]. *)
Definition load {Y : Type} (raw : Frame Y) : result (Frame Y) :=
  df <- apply_geo_filter raw ;; Ok (add_dollar_value df).

(** An annual series: the mean of the observations of every year. *)
Definition annual_mean (obs : list (Z * float)) : list (Z * float) :=
  groupby Z.eqb sort_years mean_skipna obs.

(** A row of [us_cad]; the two logarithm columns are taken as given. *)
Record FxRow : Type := mkFxRow {
  fx_USDCAD : float;
  fx_log_USDCAD : float;
  fx_dlog_USDCAD : float
}.
Definition fx_na : FxRow := mkFxRow nan nan nan.

(** One left join of the plan: the key of the anchor stays in front and
    the joined columns are added behind. *)
Definition join {K K' A B : Type} (eqb : K' -> K' -> bool) (keyf : K -> K')
    (R : list (K' * B)) (na : B) (L : list (K * A)) : list (K * (A * B)) :=
  map (fun x => (fst (fst x), (snd (fst x), snd x)))
      (merge_left eqb (fun a => keyf (fst a)) L R na).

(** The uniqueness step before the joins: duplicate keys are summed, in
    order of first appearance ([sort=False]). *)
Definition sum_duplicates {K : Type} (eqb : K -> K -> bool) (tbl : list (K * float))
    : list (K * float) :=
  groupby eqb (fun ks => ks) sum_skipna tbl.

Definition in_domain (year : Z) (province : string) : bool :=
  between year 1975 1995 && isin province included_geo.

Definition yps_year (k : YPS) : Z := fst (fst k).
Definition yps_yp (k : YPS) : YP := fst k.

Module Sect.
(** A row of the sector-level panel. *)
Record row : Type := mk {
  Year : Z; Province : string; Sector : string;
  GDP_Real_Sector : float; Comp_Real_Sector : float;
  GDP_Real_Total : float; Comp_Real_Total : float;
  Employment : float; Population : float; Bank_Rate : float;
  WTI_Crude_USD : float; Coal_USD : float; Chemical_USD : float; Wheat_USD : float;
  USDCAD : float; log_USDCAD : float; dlog_USDCAD : float;
  WTI_CAD : float; Coal_CAD : float; Chem_CAD : float; Wheat_CAD : float;
  GDP_pc_real_1986 : float; Wpw_All : float; LabourShare_Total : float;
  Sector_LabourIntensity : float; MANUF_LabourIntensity : float
}.

Section Joins.
Variables (gdp_sectors comp_sect : list (YPS * float)).
Variables (gdp_total comp_total employment population : list (YP * float)).
Variables (bank_rate wti coal chem wheat : list (Z * float)).
Variable us_cad : list (Z * FxRow).

(** The query, then the merge of the two logarithm columns. *)
Definition joined :=
  join Z.eqb yps_year us_cad fx_na
    (join Z.eqb yps_year us_cad fx_na
      (join Z.eqb yps_year wheat nan
        (join Z.eqb yps_year chem nan
          (join Z.eqb yps_year coal nan
            (join Z.eqb yps_year wti nan
              (join Z.eqb yps_year bank_rate nan
                (join yp_eqb yps_yp population nan
                  (join yp_eqb yps_yp employment nan
                    (join yp_eqb yps_yp comp_total nan
                      (join yp_eqb yps_yp gdp_total nan
                        (join yps_eqb (fun k => k) comp_sect nan gdp_sectors))))))))))).

(** The columns of one joined row, with the derived ones. *)
Definition finish (x : YPS * (float * float * float * float * float * float * float *
                              float * float * float * float * FxRow * FxRow)) : row :=
  match x with
  | (k, (gdp_s, comp_s, gdp_t, comp_t, emp, pop, br, wti_usd, coal_usd, chem_usd,
         wheat_usd, u, ulog)) =>
      let usdcad := fx_USDCAD u in
      let intensity := (comp_s / replace_zero_nan gdp_s)%float in
      mk (fst (fst k)) (snd (fst k)) (snd k)
         gdp_s comp_s gdp_t comp_t emp pop br wti_usd coal_usd chem_usd wheat_usd
         usdcad (fx_log_USDCAD ulog) (fx_dlog_USDCAD ulog)
         (wti_usd * usdcad)%float (coal_usd * usdcad)%float
         (chem_usd * usdcad)%float (wheat_usd * usdcad)%float
         (gdp_t / pop)%float
         (comp_t / replace_zero_nan emp)%float
         (comp_t / replace_zero_nan gdp_t)%float
         intensity
         (if String.eqb (snd k) "MANUFACT" then intensity else nan)
  end.

(** [panel_df] after the domain lock and the derived columns (the
    lock reads the key only, so the two steps commute). *)
Definition panel_df : list row :=
  filter (fun r => in_domain (Year r) (Province r)) (map finish joined).
End Joins.
End Sect.

Module Prov.
(** A row of the province-level panel. *)
Record row : Type := mk {
  Year : Z; Province : string;
  GDP_Real_Total : float; Comp_Real_Total : float;
  Employment : float; Population : float; Bank_Rate : float;
  WTI_Crude_USD : float; Coal_USD : float; Chemical_USD : float; Wheat_USD : float;
  USDCAD : float; log_USDCAD : float; dlog_USDCAD : float;
  GDP_pc_real_1986 : float; Wpw_All : float; LabourShare_Total : float
}.

Section Joins.
Variables (gdp_total comp_total lfs_agg pop : list (YP * float)).
Variables (br wti coal chem wheat : list (Z * float)).
Variable us_cad : list (Z * FxRow).

Definition joined :=
  join Z.eqb fst us_cad fx_na
    (join Z.eqb fst wheat nan
      (join Z.eqb fst chem nan
        (join Z.eqb fst coal nan
          (join Z.eqb fst wti nan
            (join Z.eqb fst br nan
              (join yp_eqb (fun k : YP => k) pop nan
                (join yp_eqb (fun k : YP => k) lfs_agg nan
                  (join yp_eqb (fun k : YP => k) comp_total nan gdp_total)))))))).

Definition finish (x : YP * (float * float * float * float * float * float * float *
                             float * float * FxRow)) : row :=
  match x with
  | (k, (gdp_t, comp_t, emp, popn, b, wti_usd, coal_usd, chem_usd, wheat_usd, u)) =>
      mk (fst k) (snd k) gdp_t comp_t emp popn b wti_usd coal_usd chem_usd wheat_usd
         (fx_USDCAD u) (fx_log_USDCAD u) (fx_dlog_USDCAD u)
         (gdp_t / popn)%float
         (comp_t / replace_zero_nan emp)%float
         (comp_t / replace_zero_nan gdp_t)%float
  end.

Definition prov_df : list row :=
  filter (fun r => in_domain (Year r) (Province r)) (map finish joined).
End Joins.
End Prov.

(** The uniqueness step and its assertions, then the two panels.  The
    weights of the allocation are read from [gdp_sectors] before it;
    [comp_sect] is the table after the allocation. *)
Record Panels : Type := mkPanels {
  anchor : list (YPS * float);
  panel_df : list Sect.row;
  prov_df : list Prov.row
}.

Definition assemble (gdp_sectors comp_sect : list (YPS * float))
    (gdp_total comp_total lfs_agg pop : list (YP * float))
    (br wti coal chem wheat : list (Z * float)) (us_cad : list (Z * FxRow))
    : result Panels :=
  let gdp_sectors := sum_duplicates yps_eqb gdp_sectors in
  let comp_sect := sum_duplicates yps_eqb comp_sect in
  let gdp_total := sum_duplicates yp_eqb gdp_total in
  let comp_total := sum_duplicates yp_eqb comp_total in
  _ <- assert (negb (any_duplicated yps_eqb (map fst gdp_sectors))) "Dup keys in gdp_sectors" ;;
  _ <- assert (negb (any_duplicated yps_eqb (map fst comp_sect))) "Dup keys in comp_sect" ;;
  _ <- assert (negb (any_duplicated yp_eqb (map fst gdp_total))) "Dup keys in gdp_total" ;;
  _ <- assert (negb (any_duplicated yp_eqb (map fst comp_total))) "Dup keys in comp_total" ;;
  Ok (mkPanels gdp_sectors
        (Sect.panel_df gdp_sectors comp_sect gdp_total comp_total lfs_agg pop
                       br wti coal chem wheat us_cad)
        (Prov.prov_df gdp_total comp_total lfs_agg pop br wti coal chem wheat us_cad)).

(** ** Closing diagnostics *)

(** The full Year x Province grid, [range(1975, 1996)] by
    [sorted(included_geo)]. *)
Definition grid : list YP :=
  flat_map (fun y => map (fun p => (y, p)) (sort_by String.leb included_geo))
           (range 1975 1996).

Record MissRow : Type := mkMissRow {
  miss_key : YP;
  miss_GDP_Real_Total : float;
  miss_Population : float
}.

(** Order of [sort_values(["Province","Year"])]. *)
Definition miss_leb (a b : MissRow) : bool :=
  let pa := snd (miss_key a) in
  let pb := snd (miss_key b) in
  negb (String.leb pb pa) || (String.eqb pa pb && (fst (miss_key a) <=? fst (miss_key b))).

(** [_miss]: the grid keys whose GDP_Real_Total or Population is missing
    in [prov_df], a key with no row there included. *)
Definition _miss (prov_df : list Prov.row) : list MissRow :=
  sort_by miss_leb
    (filter (fun m => isna (miss_GDP_Real_Total m) || isna (miss_Population m))
       (map (fun x => mkMissRow (fst x) (fst (snd x)) (snd (snd x)))
          (merge_left yp_eqb (fun k : YP => k) grid
             (map (fun r => ((Prov.Year r, Prov.Province r),
                             (Prov.GDP_Real_Total r, Prov.Population r))) prov_df)
             (nan, nan)))).

(** The two assertions on the province-level outcomes. *)
Definition closing_asserts (prov_df : list Prov.row) : result unit :=
  _ <- assert (forallb (fun r => notna (Prov.GDP_pc_real_1986 r)) prov_df) "" ;;
  assert (forallb (fun r => (0 <? Prov.Wpw_All r)%float) prov_df) "".

(** The report that is printed, and then the outcome of the assertions. *)
Definition diagnostics (prov_df : list Prov.row) : list MissRow * result unit :=
  (_miss prov_df, closing_asserts prov_df).

(** ** Sample tables *)

Definition gdp_columns : list string :=
  ["REF_DATE"; "GEO"; "Prices"; "Industry"; "VALUE"; "SCALAR_FACTOR"; "Province"; "VALUE_DOLLARS"].

(** A row of a GDP-by-industry table, already normalised and scaled. *)
Definition gdp_row (y : Z) (prov prices industry : string) (v : float) : Obs (option Z) :=
  mkObs (Some y) [("GEO", prov); ("Prices", prices); ("Industry", industry)]
        v (Some "units") prov v.

Definition sample_gdp80 : Frame (option Z) :=
  mkFrame gdp_columns
    [gdp_row 1980 "Alberta" "Current dollars (1971 to 1984)" (SECTORS OIL_GAS) 50000%float;
     gdp_row 1982 "Manitoba" "Current dollars (1971 to 1984)" (SECTORS AGRIC) 600%float;
     gdp_row 1982 "Manitoba" "Current dollars (1971 to 1984)" (SECTORS FISH) 200%float;
     gdp_row 1984 "Alberta" "Current dollars (1971 to 1984)" (SECTORS OIL_GAS) 70000%float].

Definition sample_gdp90 : Frame (option Z) :=
  mkFrame gdp_columns
    [gdp_row 1983 "Alberta" "1986 constant dollars" (SECTORS OIL_GAS) 61000%float;
     gdp_row 1984 "Alberta" "1986 constant dollars" (SECTORS OIL_GAS) 62000%float].

Definition sample_cpi : list (YP * float) :=
  [((1980, "Alberta"), 100%float); ((1982, "Manitoba"), 100%float);
   ((1984, "Alberta"), 100%float)].

(** The same table with a zero index for Alberta in 1980. *)
Definition sample_cpi_zero : list (YP * float) :=
  [((1980, "Alberta"), 0%float); ((1982, "Manitoba"), 100%float)].

Definition totgdp_columns : list string :=
  ["REF_DATE"; "GEO"; "Prices"; "Estimates"; "VALUE"; "SCALAR_FACTOR"; "Province"; "VALUE_DOLLARS"].

Definition totgdp_row (y : Z) (prov prices estimates : string) (v : float) : Obs (option Z) :=
  mkObs (Some y) [("GEO", prov); ("Prices", prices); ("Estimates", estimates)]
        v (Some "units") prov v.

(** Table B with a current-dollar row ahead of a chained-dollar row for
    (1985, Ontario), and a current-dollar row alone for (1986, Ontario). *)
Definition sample_totgdp90 : Frame (option Z) :=
  mkFrame totgdp_columns
    [totgdp_row 1985 "Ontario" "Current prices" "Gross domestic product at market prices" 300%float;
     totgdp_row 1985 "Ontario" "Chained (2012) dollars" "Gross domestic product at market prices" 250%float;
     totgdp_row 1986 "Ontario" "Current prices" "Gross domestic product at market prices" 330%float;
     totgdp_row 1985 "Ontario" "Chained (2012) dollars" "Final consumption expenditure" 111%float].

Definition sample_cpi_ontario : list (YP * float) :=
  [((1985, "Ontario"), 200%float); ((1986, "Ontario"), 200%float)].

(** Sector GDP of (1982, Manitoba): AGRIC 600 and FISH 200, as in the
    worked example of the specification. *)
Definition sample_gdp_sectors : list (YPS * float) :=
  [((1982, "Manitoba", "AGRIC"), 600%float); ((1982, "Manitoba", "FISH"), 200%float)].

(** The same key with no AGRIC figure. *)
Definition sample_gdp_sectors_fish_only : list (YPS * float) :=
  [((1982, "Manitoba", "FISH"), 200%float)].

Definition sample_agfish : list (YP * float) := [((1982, "Manitoba"), 900%float)].

(** Two employment rows: the first tagged in thousands, the second in units. *)
Definition lfs_row (y : Z) (prov tag : string) (v : float) : Obs Z :=
  mkObs y [("GEO", prov); ("Labour force characteristics", "Employment");
           ("Gender", "Total - Gender"); ("Age group", "15 years and over")]
        v (Some tag) prov 0%float.

Definition sample_lfs : list (Obs Z) :=
  [lfs_row 1980 "Alberta" "Thousands" 1000.5%float;
   lfs_row 1980 "Ontario" "units" 4000%float].

(** CPI observations: the national index of 1975-1977, and from 1978
    Ontario alone. *)
Definition cpi_row (y : Z) (geo : string) (v : float) : Obs Z :=
  mkObs y [("GEO", geo); ("Products and product groups", "All-items")]
        v None "" 0%float.

Definition sample_cpi_raw : list (Obs Z) :=
  [cpi_row 1975 "Canada" 30%float; cpi_row 1975 "Canada" 32%float;
   cpi_row 1976 "Canada" 33%float; cpi_row 1977 "Canada" 36%float;
   cpi_row 1977 "Ontario" 35%float;
   cpi_row 1978 "Canada" 39%float; cpi_row 1978 "Ontario" 38%float;
   cpi_row 1978 "Ontario" 40%float].

(** A province-year row with no event column yet. *)
Definition sample_event_row : Annotated (Z * string) := mkAnnotated (1983, "Alberta") [].

(** The value of a computation that does not raise. *)
Definition unwrap {A : Type} (m : result A) (default : A) : A :=
  match m with Ok a => a | Raise _ => default end.

(** Raw GDP-by-industry tables: a territory row is in each. *)
Definition raw_gdp_row (y : Z) (geo prices industry : string) (v : float) : Obs (option Z) :=
  mkObs (Some y) [("GEO", geo); ("Prices", prices); ("Industry", industry)]
        v (Some "units") "" 0%float.

Definition raw_columns : list string :=
  ["REF_DATE"; "GEO"; "Prices"; "Industry"; "VALUE"; "SCALAR_FACTOR"].

Definition sample_raw80 : Frame (option Z) :=
  mkFrame raw_columns
    [raw_gdp_row 1980 "alberta" "Current dollars (1971 to 1984)" (SECTORS OIL_GAS) 50000%float;
     raw_gdp_row 1980 "Yukon" "Current dollars (1971 to 1984)" (SECTORS OIL_GAS) 10%float;
     raw_gdp_row 1980 "Alberta" "Current dollars (1971 to 1984)" (SECTORS OIL_GAS) 1%float].

Definition sample_raw90 : Frame (option Z) :=
  mkFrame raw_columns
    [raw_gdp_row 1984 "Alberta" "1986 constant dollars" (SECTORS OIL_GAS) 62000%float;
     raw_gdp_row 1984 "B.C." "1986 constant dollars" (SECTORS EDU) 700%float].

Definition sample_population : list (YP * float) :=
  [((1980, "Alberta"), 2000000%float); ((1984, "Alberta"), 2300000%float)].

Definition sample_employment : list (YP * float) :=
  [((1980, "Alberta"), 1000000%float)].

Definition sample_bank_rate : list (Z * float) := [(1980, 12.5%float); (1984, 11%float)].

Definition sample_us_cad : list (Z * FxRow) :=
  [(1980, mkFxRow 1.25%float nan nan)].

(** Total GDP with a row for (1975, Alberta); the population table of the
    sample has no row for that key. *)
Definition sample_gdp_total : list (YP * float) := [((1975, "Alberta"), 100%float)].
Definition sample_comp_total : list (YP * float) := [((1975, "Alberta"), 60%float)].
Definition sample_lfs_agg : list (YP * float) := [((1975, "Alberta"), 10%float)].

Definition sample_prov_df : list Prov.row :=
  Prov.prov_df sample_gdp_total sample_comp_total sample_lfs_agg sample_population
               sample_bank_rate [] [] [] [] sample_us_cad.

(** Table A of the total GDP: no price column. *)
Definition sample_totgdp80 : Frame (option Z) :=
  mkFrame ["REF_DATE"; "GEO"; "Income-based estimates"; "VALUE"; "Province"; "VALUE_DOLLARS"]
    [mkObs (Some 1976) [("GEO", "Ontario");
                        ("Income-based estimates", "Gross domestic product at market prices")]
           120%float None "Ontario" 120%float;
     mkObs (Some 1981) [("GEO", "Ontario");
                        ("Income-based estimates", "Gross domestic product at market prices")]
           200%float None "Ontario" 200%float].

(** An employment table of two monthly rows for one key. *)
Definition sample_lfs_frame : Frame Z :=
  mkFrame ["REF_DATE"; "GEO"; "Labour force characteristics"; "Gender"; "Age group";
           "VALUE"; "SCALAR_FACTOR"; "Province"]
    [lfs_row 1980 "Alberta" "thousands" 1000%float;
     lfs_row 1980 "Alberta" "thousands" 1002%float].

(** A population table with one row per key. *)
Definition pop_row (y : Z) (prov : string) (v : float) : Obs Z :=
  mkObs y [("GEO", prov); ("Age group", "All ages"); ("Gender", "Total - gender")]
        v None prov 0%float.

Definition sample_pop_frame : Frame Z :=
  mkFrame ["REF_DATE"; "GEO"; "Age group"; "Gender"; "VALUE"; "Province"]
    [pop_row 1976 "Alberta" 1800000%float; pop_row 1977 "Alberta" 1900000%float].

(** ** Completeness check of the total GDP *)

(** The check after the two vintages are concatenated: when the table
    does not have 9 x 21 rows, the grid keys that are not keys of the table
    are listed, if there are any.  [None] stands for nothing printed. *)
Definition gdp_total_missing (gdp_total : list (YP * float)) : option (list YP) :=
  if (List.length gdp_total =? 9 * (1995 - 1975 + 1))%nat then None
  else
    match filter (fun k => negb (existsb (yp_eqb k) (map fst gdp_total))) grid with
    | [] => None
    | miss => Some miss
    end.

(** A table with the 189 rows expected, one key twice and one key absent. *)
Definition sample_gdp_total_189 : list (YP * float) :=
  map (fun k => (k, 1%float)) ((1975, "Alberta") :: removelast grid).

(** ** Strings as lists of characters

    The counterparts on [list ascii] of [lstrip], [strip] and [title],
    used to reason about the string functions. *)








(** ** The exchange rate

    [us_cad]: the annual mean of the daily rate, the years 1975-1995 in
    increasing order, then the logarithm of the rate and its first
    difference.  [fx_raw] holds the year and the numeric rate of every
    observation; [np.log] is a parameter of the definition. *)

(** [Series.diff()]: every element minus the one before it, the first one
    missing. *)
Fixpoint diff_from (prev : option float) (s : list float) : list float :=
  match s with
  | [] => []
  | x :: t => match prev with
              | Some p => (x - p)%float
              | None => nan
              end :: diff_from (Some x) t
  end.

Definition diff (s : list float) : list float := diff_from None s.

Section UsCad.
Variable log : float -> float.

Definition us_cad_annual (fx_raw : list (Z * float)) : list (Z * float) :=
  sort_by (fun a b => fst a <=? fst b)
          (filter (fun r => (1975 <=? fst r) && (fst r <=? 1995)) (annual_mean fx_raw)).

(** The two columns added to a table of annual rates. *)
Definition with_logs (prev : option float) (annual : list (Z * float)) :
    list (Z * FxRow) :=
  let log_USDCAD := map (fun r => log (snd r)) annual in
  let dlog_USDCAD := diff_from prev log_USDCAD in
  map (fun x => (fst (fst (fst x)), mkFxRow (snd (fst (fst x))) (snd (fst x)) (snd x)))
      (combine (combine annual log_USDCAD) dlog_USDCAD).

Definition us_cad (fx_raw : list (Z * float)) : list (Z * FxRow) :=
  with_logs None (us_cad_annual fx_raw).
End UsCad.

(** Observations of the exchange rate, with no observation in 1982. *)
Definition sample_fx_raw : list (Z * float) :=
  [(1981, 1.25%float); (1980, 1.125%float); (1983, 1.25%float); (1980, 1.375%float);
   (1974, 1%float)].

(** * Properties *)

(** Uniqueness of the keys of a table written out. *)
Ltac nodup_keys :=
  repeat (constructor; [simpl; intuition discriminate|]); constructor.

(** ** Binary64 facts used below *)

Lemma SFcompare_refl_finite s m e :
  SFcompare (S754_finite s m e) (S754_finite s m e) = Some Eq.
Proof.
  simpl. rewrite Z.compare_refl, Pos.compare_cont_refl. now destruct s.
Qed.

Lemma isna_spec x :
  isna x = match Prim2SF x with S754_nan => true | _ => false end.
Proof.
  unfold isna, is_nan. rewrite eqb_spec. unfold SFeqb.
  destruct (Prim2SF x) as [s|s| |s m e].
  - reflexivity.
  - now destruct s.
  - reflexivity.
  - now rewrite SFcompare_refl_finite.
Qed.

Lemma is_zero_spec x :
  (x =? 0)%float = match Prim2SF x with S754_zero _ => true | _ => false end.
Proof.
  rewrite eqb_spec. change (Prim2SF 0) with (S754_zero false). unfold SFeqb.
  destruct (Prim2SF x) as [s|s| |s m e]; simpl; try reflexivity; now destruct s.
Qed.

Lemma is_infinity_spec x :
  is_infinity x = match Prim2SF x with S754_infinity _ => true | _ => false end.
Proof.
  unfold is_infinity. rewrite eqb_spec, abs_spec.
  change (Prim2SF infinity) with (S754_infinity false). unfold SFeqb.
  destruct (Prim2SF x) as [s|s| |s m e]; reflexivity.
Qed.

Lemma is_finite_spec x :
  is_finite x = match Prim2SF x with
                | S754_zero _ | S754_finite _ _ _ => true
                | _ => false
                end.
Proof.
  unfold is_finite. fold (isna x). rewrite isna_spec, is_infinity_spec.
  now destruct (Prim2SF x).
Qed.

Lemma div_nan_r n c : isna c = true -> isna (n / c)%float = true.
Proof.
  rewrite !isna_spec, div_spec. unfold SF64div, SFdiv.
  destruct (Prim2SF c); try discriminate. intros _. now destruct (Prim2SF n).
Qed.

Lemma div_nan_l n c : isna n = true -> isna (n / c)%float = true.
Proof.
  rewrite !isna_spec, div_spec. unfold SF64div, SFdiv.
  destruct (Prim2SF n); try discriminate. reflexivity.
Qed.

Lemma div_zero_r n c :
  (c =? 0)%float = true -> is_finite n = true -> (n =? 0)%float = false ->
  is_infinity (n / c)%float = true.
Proof.
  rewrite !is_zero_spec, is_finite_spec, is_infinity_spec, div_spec.
  unfold SF64div, SFdiv.
  destruct (Prim2SF c); try discriminate. intros _.
  destruct (Prim2SF n); try discriminate; reflexivity.
Qed.

Lemma zero_div_100 c : (c =? 0)%float = true -> (c / 100 =? 0)%float = true.
Proof.
  rewrite !is_zero_spec, div_spec. unfold SF64div, SFdiv.
  destruct (Prim2SF c); try discriminate. intros _. reflexivity.
Qed.

Lemma isna_not_infinity x : is_infinity x = true -> isna x = false.
Proof.
  rewrite is_infinity_spec, isna_spec. now destruct (Prim2SF x).
Qed.

(** A missing index gives a missing real value, whatever the nominal. *)
Lemma deflate_nan_cpi n c : isna c = true -> isna (deflate n c) = true.
Proof.
  intros H. unfold deflate. apply div_nan_r, div_nan_l, H.
Qed.

Lemma deflate_nan_nominal n c : isna n = true -> isna (deflate n c) = true.
Proof.
  intros H. unfold deflate. now apply div_nan_l.
Qed.

(** A zero index gives an infinite real value for a finite nonzero
    nominal: pandas does not take it for a missing value. *)
Lemma deflate_zero_cpi n c :
  (c =? 0)%float = true -> is_finite n = true -> (n =? 0)%float = false ->
  is_infinity (deflate n c) = true /\ isna (deflate n c) = false.
Proof.
  intros Hc Hn Hz. unfold deflate.
  assert (H : is_infinity (n / (c / 100))%float = true)
    by (apply div_zero_r; auto using zero_div_100).
  split; [exact H | now apply isna_not_infinity].
Qed.

(** ** Lists and keyed tables *)

Lemma yp_eqb_eq (a b : YP) : yp_eqb a b = true <-> a = b.
Proof.
  destruct a as [y p], b as [y' p']. unfold yp_eqb. simpl.
  rewrite andb_true_iff, Z.eqb_eq, String.eqb_eq. split.
  - intros [-> ->]. reflexivity.
  - intros H. inversion H. auto.
Qed.

Lemma yps_eqb_eq (a b : YPS) : yps_eqb a b = true <-> a = b.
Proof.
  destruct a as [k s], b as [k' s']. unfold yps_eqb. simpl.
  rewrite andb_true_iff, yp_eqb_eq, String.eqb_eq. split.
  - intros [-> ->]. reflexivity.
  - intros H. inversion H. auto.
Qed.

Lemma yp_eqb_refl (a : YP) : yp_eqb a a = true.
Proof. now apply yp_eqb_eq. Qed.

Lemma between_spec y lo hi : between y lo hi = true <-> lo <= y <= hi.
Proof. unfold between. rewrite andb_true_iff, !Z.leb_le. tauto. Qed.

Lemma select_years_In mask y0 y1 df k v :
  In (k, v) (select_years mask y0 y1 df) <->
  exists r, In r df /\ Year r = Some (fst k) /\ Province r = snd k /\
            VALUE_DOLLARS r = v /\ mask r = true /\ y0 <= fst k <= y1.
Proof.
  unfold select_years. rewrite in_flat_map. split.
  - intros [r [Hr Hin]]. exists r. destruct (Year r) as [y|] eqn:Ey; [|contradiction].
    destruct (mask r) eqn:Em; [|contradiction]. simpl in Hin.
    destruct (between y y0 y1) eqn:Eb; [|contradiction].
    destruct Hin as [Heq|[]]. inversion Heq; subst. simpl.
    apply between_spec in Eb. repeat split; auto; lia.
  - intros [r (Hr & Ey & Ep & Ev & Em & Hb)]. exists r. split; [exact Hr|].
    rewrite Ey, Em. apply between_spec in Hb. rewrite Hb. simpl. left.
    destruct k; simpl in *; subst; reflexivity.
Qed.

Section MergeFacts.
Context {K A B : Type} (eqb : K -> K -> bool) (key : A -> K).

Lemma merge_left_In (L : list A) (R : list (K * B)) (na : B) a b :
  In (a, b) (merge_left eqb key L R na) ->
  In a L /\ ((exists r, In r R /\ eqb (key a) (fst r) = true /\ snd r = b) \/
             (b = na /\ forall r, In r R -> eqb (key a) (fst r) = false)).
Proof.
  unfold merge_left. rewrite in_flat_map. intros [a' [Ha Hin]].
  destruct (filter (fun r => eqb (key a') (fst r)) R) as [|m ms] eqn:Ef.
  - destruct Hin as [Heq|[]]. inversion Heq; subst. split; [exact Ha|]. right.
    split; [reflexivity|]. intros r Hr.
    destruct (eqb (key a) (fst r)) eqn:E; [|reflexivity].
    assert (Hf : In r (filter (fun r => eqb (key a) (fst r)) R))
      by (apply filter_In; auto).
    rewrite Ef in Hf. contradiction.
  - apply in_map_iff in Hin. destruct Hin as [r [Heq Hr]]. inversion Heq; subst.
    rewrite <- Ef in Hr. apply filter_In in Hr. destruct Hr as [Hr E].
    split; [exact Ha|]. left. exists r. auto.
Qed.

Lemma merge_left_fst (L : list A) (R : list (K * B)) (na : B) x :
  In x (merge_left eqb key L R na) -> In (fst x) L.
Proof. destruct x as [a b]. intros H. now apply merge_left_In in H. Qed.
End MergeFacts.

(** ** Vintage disjointness of the sector series *)

Lemma sector_pre_years gdp80 cpi k r :
  In r (sector_pre gdp80 cpi k) -> 1975 <= fst (fst r) <= 1983.
Proof.
  unfold sector_pre, deflate_rows, sector_pre_merged. intros H.
  apply in_map_iff in H. destruct H as [m [<- Hm]]. simpl.
  apply merge_left_fst in Hm. destruct (fst m) as [key nominal] eqn:E.
  unfold extract_nominal_block in Hm. apply select_years_In in Hm.
  destruct Hm as [o H]. simpl. tauto.
Qed.

Lemma sector_post_years gdp90 k r :
  In r (sector_post gdp90 k) -> 1984 <= fst (fst r) <= 1995.
Proof.
  unfold sector_post, extract_real_block. destruct r as [key v]. intros H.
  apply select_years_In in H. destruct H as [o H]. simpl. tauto.
Qed.

(** C7. The rows of [build_sector] are the deflated-current rows of the
    early vintage followed by the real rows of the later vintage; the
    former have years 1975-1983, the latter years 1984-1995, so no
    (Year, Province, Sector) key, of the same or of two sectors, lies in
    both partitions. *)
Theorem vintage_disjointness gdp80 gdp90 cpi :
  (forall k label,
      build_sector gdp80 gdp90 cpi k label =
      map (fun r => ((fst r, label), snd r)) (sector_pre gdp80 cpi k) ++
      map (fun r => ((fst r, label), snd r)) (sector_post gdp90 k)) /\
  (forall k r, In r (sector_pre gdp80 cpi k) -> 1975 <= fst (fst r) <= 1983) /\
  (forall k r, In r (sector_post gdp90 k) -> 1984 <= fst (fst r) <= 1995) /\
  (forall k1 k2 (l1 l2 : string) r1 r2,
      In r1 (sector_pre gdp80 cpi k1) -> In r2 (sector_post gdp90 k2) ->
      (fst r1, l1) <> (fst r2, l2)).
Proof.
  repeat split.
  - intros k label. unfold build_sector. apply map_app.
  - now apply sector_pre_years in H.
  - now apply sector_pre_years in H.
  - now apply sector_post_years in H.
  - now apply sector_post_years in H.
  - intros k1 k2 l1 l2 r1 r2 H1 H2 Heq.
    apply sector_pre_years in H1. apply sector_post_years in H2.
    inversion Heq as [[Hk Hl]]. rewrite Hk in H1. lia.
Qed.

(** The partitions of the sample: the 1984 current-dollar row of the early
    vintage and the 1983 constant-dollar row of the later one are left out. *)
Example vintage_disjointness_sample :
  build_sector sample_gdp80 sample_gdp90 sample_cpi OIL_GAS "OIL_GAS" =
  [((1980, "Alberta", "OIL_GAS"), 50000%float);
   ((1984, "Alberta", "OIL_GAS"), 62000%float)].
Proof. vm_compute. reflexivity. Qed.

(** ** Deflation *)

Lemma div_zero_zero n c :
  (c =? 0)%float = true -> (n =? 0)%float = true -> isna (n / c)%float = true.
Proof.
  rewrite !is_zero_spec, isna_spec, div_spec. unfold SF64div, SFdiv.
  destruct (Prim2SF c); try discriminate. intros _.
  destruct (Prim2SF n); try discriminate; reflexivity.
Qed.

Lemma deflate_ok n c : deflation_ok n c (deflate n c).
Proof.
  unfold deflation_ok. split; [reflexivity|]. split; [apply deflate_nan_cpi|].
  split; [apply deflate_zero_cpi|].
  intros Hc Hn. unfold deflate. apply div_zero_zero; auto using zero_div_100.
Qed.

(** C4 (amended). At every deflation of a GDP table ([deflate_rows], used
    for the sector GDP and for the three deflations of the total GDP) and
    at the deflation of the annual compensation, every row has
    real = nominal / (CPI_index / 100); the index is that of a CPI row of
    the same (Year, Province), or NaN when there is none; real is missing
    when the index is missing; and for a zero index real is an infinity,
    not a missing value, when the nominal is finite and nonzero, and
    missing when the nominal is zero. *)
Theorem deflation_identity :
  (forall merged,
      Forall2 (fun m r => fst r = fst (fst m) /\
                          deflation_ok (snd (fst m)) (snd m) (snd r))
              merged (deflate_rows merged)) /\
  (forall gdp80 cpi k m,
      In m (sector_pre_merged gdp80 cpi k) ->
      In (fst (fst m), snd m) cpi \/
      (isna (snd m) = true /\ forall c, ~ In (fst (fst m), c) cpi)) /\
  (forall comp_raw cpi r,
      In r (comp_annual comp_raw cpi) ->
      deflation_ok (Comp_Nominal r) (CPI_index r) (Comp_Real r) /\
      (In (comp_yp r, CPI_index r) cpi \/
       (isna (CPI_index r) = true /\ forall c, ~ In (comp_yp r, c) cpi))).
Proof.
  split; [|split].
  - intros merged. unfold deflate_rows.
    induction merged as [|m t IH]; simpl; constructor; auto.
    split; [reflexivity | apply deflate_ok].
  - intros gdp80 cpi k [a c] H. unfold sector_pre_merged in H.
    apply merge_left_In in H. destruct H as [_ [[r (Hr & E & <-)]|[-> Hno]]]; simpl.
    + left. apply yp_eqb_eq in E. destruct r as [kr c]. simpl in *. now subst kr.
    + right. split; [reflexivity|]. intros c Hc. specialize (Hno _ Hc). simpl in Hno.
      now rewrite yp_eqb_refl in Hno.
  - intros comp_raw cpi r H. unfold comp_annual in H.
    apply in_map_iff in H. destruct H as [[a c] [<- Hm]]. simpl.
    split; [apply deflate_ok|]. unfold comp_annual_merged in Hm.
    apply merge_left_In in Hm. unfold comp_yp. simpl.
    destruct Hm as [_ [[r (Hr & E & <-)]|[-> Hno]]].
    + left. apply yp_eqb_eq in E. destruct r as [kr c]. simpl in *. now subst kr.
    + right. split; [reflexivity|]. intros c Hc. specialize (Hno _ Hc). simpl in Hno.
      now rewrite yp_eqb_refl in Hno.
Qed.

(** The worked example of the specification: an index of 100 leaves the
    nominal 50000 unchanged. *)
Example deflation_sample :
  sector_pre sample_gdp80 sample_cpi OIL_GAS = [((1980, "Alberta"), 50000%float)].
Proof. vm_compute. reflexivity. Qed.

(** C4, counterexample. With a zero index for (1980, Alberta) the deflated
    value of the nominal 50000 is +infinity, which is not a missing value. *)
Lemma deflation_zero_index_not_missing :
  sector_pre_merged sample_gdp80 sample_cpi_zero OIL_GAS =
    [((1980, "Alberta"), 50000%float, 0%float)] /\
  sector_pre sample_gdp80 sample_cpi_zero OIL_GAS = [((1980, "Alberta"), infinity)] /\
  isna infinity = false.
Proof. vm_compute. repeat split. Qed.

(** ** The real-basis row wins in the 1981-1995 total GDP *)

Lemma yp_leb_refl (a : YP) : yp_leb a a = true.
Proof.
  unfold yp_leb. rewrite Z.eqb_refl. simpl.
  destruct (String.leb_total (snd a) (snd a)) as [H|H]; rewrite H; apply orb_true_r.
Qed.

Section StableSort.
Context {V : Type}.

Let row : Type := (YP * V)%type.
Let leb_key (a b : row) : bool := yp_leb (fst a) (fst b).
Let has_key (k : YP) (x : row) : bool := yp_eqb k (fst x).

Lemma filter_insert_by k (x : row) (l : list row) :
  filter (has_key k) (insert_by leb_key x l) = filter (has_key k) (x :: l).
Proof.
  induction l as [|y t IH]; [reflexivity|].
  simpl insert_by. destruct (leb_key x y) eqn:E; [reflexivity|].
  simpl. simpl in IH. rewrite IH.
  destruct (has_key k x) eqn:Ex, (has_key k y) eqn:Ey; try reflexivity.
  exfalso. unfold has_key in Ex, Ey. apply yp_eqb_eq in Ex, Ey.
  unfold leb_key in E. rewrite <- Ex, <- Ey, yp_leb_refl in E. discriminate.
Qed.

(** The sort is stable: the rows of a key keep their order. *)
Lemma filter_sort_by k (l : list row) :
  filter (has_key k) (sort_by leb_key l) = filter (has_key k) l.
Proof.
  induction l as [|x t IH]; [reflexivity|].
  simpl sort_by. rewrite filter_insert_by. simpl. now rewrite IH.
Qed.

Lemma filter_drop_duplicates_from k seen (l : list row) :
  filter (has_key k) (drop_duplicates_from yp_eqb seen l) =
  if existsb (yp_eqb k) seen then []
  else match find (has_key k) l with Some r => [r] | None => [] end.
Proof.
  revert seen. induction l as [|x t IH]; intros seen.
  - simpl. now destruct (existsb (yp_eqb k) seen).
  - simpl. destruct (existsb (yp_eqb (fst x)) seen) eqn:Es.
    + rewrite IH. destruct (existsb (yp_eqb k) seen) eqn:Ek; [reflexivity|].
      destruct (has_key k x) eqn:Ex; [|reflexivity].
      unfold has_key in Ex. apply yp_eqb_eq in Ex. subst k. congruence.
    + simpl. rewrite IH. simpl.
      destruct (has_key k x) eqn:Ex.
      * unfold has_key in Ex. rewrite Ex. simpl.
        apply yp_eqb_eq in Ex. subst k. now rewrite Es.
      * unfold has_key in Ex. rewrite Ex. reflexivity.
Qed.

(** [drop_duplicates] keeps, of every key, its first row and no other. *)
Lemma filter_drop_duplicates k (l : list row) :
  filter (has_key k) (drop_duplicates yp_eqb l) =
  match find (has_key k) l with Some r => [r] | None => [] end.
Proof. unfold drop_duplicates. now rewrite filter_drop_duplicates_from. Qed.

Lemma find_filter_head (f : row -> bool) (l : list row) :
  find f l = hd_error (filter f l).
Proof.
  induction l as [|x t IH]; [reflexivity|]. simpl. now destruct (f x).
Qed.

Lemma find_app_some (f : row -> bool) (l1 l2 : list row) r :
  find f l1 = Some r -> find f (l1 ++ l2) = Some r.
Proof.
  induction l1 as [|x t IH]; [discriminate|]. simpl. now destruct (f x).
Qed.
End StableSort.

(** C2. When the price column exists and the real-basis partition has a
    row for a (Year, Province) key, the sorted concatenation lists the
    real-basis rows of the key ahead of its deflated-current rows, and the
    output of [build_total_gdp_81_95] has one row for the key: the first
    real-basis row.  Every deflated-current row of the key is dropped. *)
Theorem prefer_real_over_deflated_current df90 cpi concept_col price_col k r :
  _find_col df90 ["income-based estimates"; "estimates"] = Some concept_col ->
  _find_col df90 ["prices"] = Some price_col ->
  find (fun x => yp_eqb k (fst x)) (part_real concept_col price_col df90) = Some r ->
  let real := part_real concept_col price_col df90 in
  let curr := part_curr concept_col price_col df90 cpi in
  filter (fun x => yp_eqb k (fst x)) (sort_values_yp (real ++ curr)) =
    filter (fun x => yp_eqb k (fst x)) real ++ filter (fun x => yp_eqb k (fst x)) curr /\
  exists out, build_total_gdp_81_95 df90 cpi = Ok out /\
              filter (fun x => yp_eqb k (fst x)) out = [r].
Proof.
  intros Hc Hp Hr real curr. split.
  - unfold sort_values_yp. rewrite filter_sort_by. apply filter_app.
  - unfold build_total_gdp_81_95. rewrite Hc, Hp. eexists. split; [reflexivity|].
    rewrite filter_drop_duplicates. rewrite find_filter_head.
    unfold sort_values_yp. rewrite filter_sort_by, <- find_filter_head.
    fold real curr. now rewrite (find_app_some _ real curr r Hr).
Qed.

Lemma prefer_real_witness :
  exists out, build_total_gdp_81_95 sample_totgdp90 sample_cpi_ontario = Ok out /\
              filter (fun x => yp_eqb (1985, "Ontario") (fst x)) out =
              [((1985, "Ontario"), 250%float)].
Proof.
  apply (prefer_real_over_deflated_current sample_totgdp90 sample_cpi_ontario
           "Estimates" "Prices" (1985, "Ontario") ((1985, "Ontario"), 250%float));
    vm_compute; reflexivity.
Defined.

(** On the sample the current-dollar row of 1985 (300, deflated to 150)
    is dropped and that of 1986 is kept, deflated. *)
Example build_total_gdp_81_95_sample :
  build_total_gdp_81_95 sample_totgdp90 sample_cpi_ontario =
  Ok [((1985, "Ontario"), 250%float); ((1986, "Ontario"), 165%float)].
Proof. vm_compute. reflexivity. Qed.

(** ** Grouping *)

Section GroupFacts.
Context {K : Type} (eqb : K -> K -> bool).
Hypothesis eqb_eq : forall a b, eqb a b = true <-> a = b.

Lemma eqb_refl' a : eqb a a = true.
Proof. now apply eqb_eq. Qed.

Lemma existsb_eqb_In k (l : list K) : existsb (eqb k) l = true <-> In k l.
Proof.
  rewrite existsb_exists. split.
  - intros [x [Hx E]]. apply eqb_eq in E. now subst.
  - intros H. exists k. split; [exact H | apply eqb_refl'].
Qed.

Lemma unique_from_In seen l k :
  In k (unique_from eqb seen l) <-> In k l /\ ~ In k seen.
Proof.
  revert seen. induction l as [|x t IH]; intros seen; simpl.
  - tauto.
  - destruct (existsb (eqb x) seen) eqn:E.
    + apply existsb_eqb_In in E. rewrite IH. split.
      * tauto.
      * intros [[->|H] Hn]; tauto.
    + assert (Hx : ~ In x seen).
      { intros H. apply existsb_eqb_In in H. congruence. }
      simpl. rewrite IH. simpl. split.
      * intros [->|[H Hn]]; [tauto|]. split; [tauto|]. intros Hs. apply Hn. now right.
      * intros [[->|H] Hn]; [now left|].
        destruct (eqb x k) eqn:Exk.
        -- apply eqb_eq in Exk. now left.
        -- right. split; [exact H|]. intros [Heq|Hs]; [|tauto].
           subst. rewrite eqb_refl' in Exk. discriminate.
Qed.

Lemma unique_In l k : In k (unique eqb l) <-> In k l.
Proof. unfold unique. rewrite unique_from_In. simpl. tauto. Qed.

Lemma unique_from_NoDup seen l : NoDup (unique_from eqb seen l).
Proof.
  revert seen. induction l as [|x t IH]; intros seen; simpl.
  - constructor.
  - destruct (existsb (eqb x) seen); [apply IH|].
    constructor; [|apply IH]. rewrite unique_from_In. simpl. tauto.
Qed.

Lemma unique_NoDup l : NoDup (unique eqb l).
Proof. apply unique_from_NoDup. Qed.

Lemma insert_by_In (leb : K -> K -> bool) x l k :
  In k (insert_by leb x l) <-> k = x \/ In k l.
Proof.
  induction l as [|y t IH]; simpl.
  - intuition.
  - destruct (leb x y); simpl; [intuition|]. rewrite IH. intuition.
Qed.

Lemma sort_by_In (leb : K -> K -> bool) l k : In k (sort_by leb l) <-> In k l.
Proof.
  induction l as [|x t IH]; simpl; [tauto|].
  rewrite insert_by_In, IH. intuition.
Qed.

Lemma insert_by_NoDup (leb : K -> K -> bool) x l :
  NoDup l -> ~ In x l -> NoDup (insert_by leb x l).
Proof.
  induction l as [|y t IH]; simpl; intros Hl Hx.
  - constructor; [tauto | constructor].
  - destruct (leb x y).
    + constructor; [simpl; tauto | exact Hl].
    + inversion Hl; subst. constructor.
      * rewrite insert_by_In. intros [->|H]; tauto.
      * apply IH; tauto.
Qed.

Lemma sort_by_NoDup (leb : K -> K -> bool) l : NoDup l -> NoDup (sort_by leb l).
Proof.
  induction l as [|x t IH]; simpl; intros Hl; [constructor|].
  inversion Hl; subst. apply insert_by_NoDup; [auto|]. now rewrite sort_by_In.
Qed.

(** The rows of a key in a table built from a list of keys. *)
Lemma filter_keyed {W : Type} (g : K -> W) (P : W -> bool) (ks : list K) k :
  NoDup ks ->
  filter (fun r => eqb k (fst r)) (filter (fun r => P (snd r)) (map (fun x => (x, g x)) ks)) =
  if existsb (eqb k) ks && P (g k) then [(k, g k)] else [].
Proof.
  induction ks as [|x t IH]; intros Hnd; [reflexivity|].
  inversion Hnd as [|? ? Hx Ht]; subst. specialize (IH Ht).
  cbn [map filter snd fst existsb].
  destruct (eqb k x) eqn:E.
  - apply eqb_eq in E. subst x.
    assert (Hk : existsb (eqb k) t = false).
    { destruct (existsb (eqb k) t) eqn:E'; [|reflexivity].
      apply existsb_eqb_In in E'. contradiction. }
    rewrite Hk in IH. simpl in IH.
    destruct (P (g k)); cbn [filter fst orb andb].
    + now rewrite eqb_refl', IH.
    + exact IH.
  - destruct (P (g x)); cbn [filter fst orb andb]; [rewrite E|]; exact IH.
Qed.

Lemma group_nil {V : Type} (tbl : list (K * V)) k :
  ~ In k (map fst tbl) -> group eqb k tbl = [].
Proof.
  unfold group. induction tbl as [|r t IH]; simpl; intros H; [reflexivity|].
  destruct (eqb k (fst r)) eqn:E.
  - apply eqb_eq in E. exfalso. apply H. left. now symmetry.
  - apply IH. tauto.
Qed.

(** The rows of a key in the result of [groupby], after a filter on the
    aggregated value. *)
Lemma filter_groupby {V W : Type} (order : list K -> list K) (agg : list V -> W)
    (P : W -> bool) (tbl : list (K * V)) k :
  (forall l, NoDup l -> NoDup (order l)) ->
  (forall l x, In x (order l) <-> In x l) ->
  filter (fun r => eqb k (fst r))
         (filter (fun r => P (snd r)) (groupby eqb order agg tbl)) =
  if existsb (eqb k) (map fst tbl) && P (agg (group eqb k tbl))
  then [(k, agg (group eqb k tbl))] else [].
Proof.
  intros Hnd Hin. unfold groupby.
  rewrite (filter_keyed (fun x => agg (group eqb x tbl)) P).
  - replace (existsb (eqb k) (order (unique eqb (map fst tbl))))
      with (existsb (eqb k) (map fst tbl)); [reflexivity|].
    apply eq_true_iff_eq. rewrite !existsb_eqb_In, Hin, unique_In. tauto.
  - apply Hnd, unique_NoDup.
Qed.
End GroupFacts.

Lemma first_valid_notna xs : notna (first_valid xs) = false -> first_valid xs = nan.
Proof.
  unfold first_valid, dropna. destruct (filter notna xs) as [|x t] eqn:E; [reflexivity|].
  intros H. assert (Hx : In x (filter notna xs)) by (rewrite E; now left).
  apply filter_In in Hx. destruct Hx as [_ Hx]. congruence.
Qed.

(** ** Allocation weights *)

Lemma find_hd_filter {A : Type} (f : A -> bool) (l : list A) :
  find f l = hd_error (filter f l).
Proof.
  induction l as [|x t IH]; [reflexivity|]. simpl. now destruct (f x).
Qed.

Lemma filter_filter_implied {A : Type} (f g : A -> bool) (l : list A) :
  (forall x, f x = true -> g x = true) ->
  filter f (filter g l) = filter f l.
Proof.
  intros H. induction l as [|x t IH]; [reflexivity|]. simpl.
  destruct (g x) eqn:Eg; simpl.
  - now rewrite IH.
  - destruct (f x) eqn:Ef; [|exact IH]. apply H in Ef. congruence.
Qed.

Lemma group_sector_filter (gs : list (YPS * float)) k s sectors :
  isin s sectors = true ->
  group yps_eqb (k, s) (filter (fun r => isin (snd (fst r)) sectors) gs) =
  group yps_eqb (k, s) gs.
Proof.
  intros Hs. unfold group. f_equal. apply filter_filter_implied.
  intros [[k' s'] v] E. apply yps_eqb_eq in E. simpl in *. inversion E; subst. exact Hs.
Qed.

(** The cell of the pivot is the GDP figure of the key and the sector. *)
Lemma pivot_cell_figure gs k s :
  isin s ["AGRIC"; "FISH"] = true ->
  pivot_cell (pivot_agged gs) k s = gdp_figure gs k s.
Proof.
  intros Hs. unfold pivot_cell, pivot_agged, gdp_figure.
  set (T := filter (fun r : YPS * float => isin (snd (fst r)) ["AGRIC"; "FISH"]) gs).
  assert (G : group yps_eqb (k, s) T = group yps_eqb (k, s) gs)
    by (apply group_sector_filter, Hs).
  rewrite find_hd_filter.
  rewrite (filter_groupby yps_eqb yps_eqb_eq sort_yps first_valid notna).
  - assert (Hnil : existsb (yps_eqb (k, s)) (map fst T) = false ->
                   first_valid (group yps_eqb (k, s) gs) = nan).
    { intros Ek. rewrite <- G, group_nil; auto using yps_eqb_eq.
      intros H. apply (existsb_eqb_In yps_eqb yps_eqb_eq) in H. congruence. }
    rewrite G.
    destruct (existsb (yps_eqb (k, s)) (map fst T)); cbn [andb].
    + destruct (notna (first_valid (group yps_eqb (k, s) gs))) eqn:En; cbn [hd_error snd].
      * reflexivity.
      * symmetry. now apply first_valid_notna.
    + cbn [hd_error]. symmetry. now apply Hnil.
  - intros l. apply sort_by_NoDup.
  - intros l x. apply sort_by_In.
Qed.

Lemma pivot_cell_absent (agged : list (YPS * float)) (k : YP) s :
  ~ In k (map (fun r => fst (fst r)) agged) -> pivot_cell agged k s = nan.
Proof.
  intros H. unfold pivot_cell.
  destruct (find (fun r => yps_eqb (k, s) (fst r)) agged) as [r|] eqn:E; [|reflexivity].
  apply find_some in E. destruct E as [Hr E]. apply yps_eqb_eq in E.
  exfalso. apply H. apply in_map_iff. exists r. split; [|exact Hr].
  destruct r as [[k' s'] v]. simpl in *. now inversion E.
Qed.

(** The weights of a row of [alloc], from the two GDP figures of its key. *)
Lemma alloc_weights agfish gs r :
  In r (alloc agfish (weights gs)) ->
  let wr := weight_row (gdp_figure gs (alloc_key r) "AGRIC")
                       (gdp_figure gs (alloc_key r) "FISH") in
  In (alloc_key r, Comp_AF_Real r) agfish /\
  alloc_w_ag r = fillna 0.5%float (w_ag wr) /\
  alloc_w_fi r = fillna 0.5%float (w_fi wr).
Proof.
  unfold alloc. intros H. apply in_map_iff in H. destruct H as [[[k c] [wa wf]] [<- H]].
  simpl. apply merge_left_In in H. simpl in H. destruct H as [Hin H].
  split; [exact Hin|].
  rewrite <- !pivot_cell_figure by reflexivity.
  destruct H as [[w (Hw & E & Hs)]|[Hna Hno]].
  - unfold weights in Hw. apply in_map_iff in Hw. destruct Hw as [k' [<- Hk']].
    simpl in E, Hs. apply yp_eqb_eq in E. subst k'. inversion Hs; subst. auto.
  - inversion Hna; subst.
    assert (Hk : ~ In k (map (fun r => fst (fst r)) (pivot_agged gs))).
    { intros Hk. apply (unique_In yp_eqb yp_eqb_eq) in Hk.
      specialize (Hno (k, (w_ag (weight_row (pivot_cell (pivot_agged gs) k "AGRIC")
                                            (pivot_cell (pivot_agged gs) k "FISH")),
                           w_fi (weight_row (pivot_cell (pivot_agged gs) k "AGRIC")
                                            (pivot_cell (pivot_agged gs) k "FISH"))))).
      simpl in Hno. rewrite yp_eqb_refl in Hno. 
      assert (false = true); [|discriminate]. symmetry. rewrite <- Hno; [reflexivity|].
      unfold weights. apply in_map_iff. exists k. auto. }
    rewrite !pivot_cell_absent by exact Hk. vm_compute. auto.
Qed.

Lemma sum_of_zeros_not_positive a f :
  (a =? 0)%float = true -> (f =? 0)%float = true -> (0 <? a + f)%float = false.
Proof.
  rewrite !is_zero_spec, ltb_spec, add_spec.
  change (Prim2SF 0) with (S754_zero false).
  destruct (Prim2SF a) as [sa| | |]; try discriminate.
  destruct (Prim2SF f) as [sf| | |]; try discriminate.
  intros _ _. now destruct sa, sf.
Qed.

(** C3 (amended). For every row of the allocation, with A and F the AGRIC
    and FISH figures of its key, a missing figure counted as 0: when
    A + F is positive the weights are A / (A + F) and F / (A + F) (0.5 in
    place of a quotient that is not a number); when A + F is not positive,
    and so when both figures are zero or missing, both weights are 0.5. *)
Theorem allocation_weights agfish gs r :
  In r (alloc agfish (weights gs)) ->
  let a := fillna 0%float (gdp_figure gs (alloc_key r) "AGRIC") in
  let f := fillna 0%float (gdp_figure gs (alloc_key r) "FISH") in
  ((0 <? a + f)%float = true ->
     alloc_w_ag r = fillna 0.5%float (a / (a + f))%float /\
     alloc_w_fi r = fillna 0.5%float (f / (a + f))%float) /\
  ((0 <? a + f)%float = false ->
     alloc_w_ag r = 0.5%float /\ alloc_w_fi r = 0.5%float) /\
  ((a =? 0)%float = true -> (f =? 0)%float = true ->
     alloc_w_ag r = 0.5%float /\ alloc_w_fi r = 0.5%float).
Proof.
  intros H a f. apply alloc_weights in H. cbv zeta in H.
  destruct H as (_ & Hag & Hfi). unfold weight_row in Hag, Hfi. simpl in Hag, Hfi.
  fold a f in Hag, Hfi.
  assert (Hneg : (0 <? a + f)%float = false ->
                 alloc_w_ag r = 0.5%float /\ alloc_w_fi r = 0.5%float).
  { intros E. rewrite E in Hag, Hfi. auto. }
  repeat split.
  - rewrite H in Hag. exact Hag.
  - rewrite H in Hfi. exact Hfi.
  - now apply Hneg.
  - now apply Hneg.
  - apply Hneg. now apply sum_of_zeros_not_positive.
  - apply Hneg. now apply sum_of_zeros_not_positive.
Qed.

(** The worked example of the specification: GDP 600 and 200 give the
    weights 0.75 and 0.25. *)
Lemma allocation_weights_witness :
  let r := mkAllocRow (1982, "Manitoba") 900%float 0.75%float 0.25%float in
  In r (alloc sample_agfish (weights sample_gdp_sectors)) /\
  alloc_w_ag r = fillna 0.5%float (600 / (600 + 200))%float /\
  alloc_w_fi r = fillna 0.5%float (200 / (600 + 200))%float.
Proof.
  intros r.
  assert (H : In r (alloc sample_agfish (weights sample_gdp_sectors)))
    by (vm_compute; left; reflexivity).
  split; [exact H|].
  exact (proj1 (allocation_weights sample_agfish sample_gdp_sectors r H) eq_refl).
Defined.

Example allocation_sample :
  comp_ag (alloc sample_agfish (weights sample_gdp_sectors)) =
    [((1982, "Manitoba", "AGRIC"), 675%float)] /\
  comp_fi (alloc sample_agfish (weights sample_gdp_sectors)) =
    [((1982, "Manitoba", "FISH"), 225%float)].
Proof. vm_compute. split; reflexivity. Qed.

(** C3, counterexample. With the AGRIC figure of (1982, Manitoba) missing
    and the FISH figure 200, the weights are 0 and 1, not 0.5 and 0.5. *)
Lemma allocation_weights_one_figure_missing :
  isna (gdp_figure sample_gdp_sectors_fish_only (1982, "Manitoba") "AGRIC") = true /\
  alloc sample_agfish (weights sample_gdp_sectors_fish_only) =
    [mkAllocRow (1982, "Manitoba") 900%float 0%float 1%float].
Proof. vm_compute. split; reflexivity. Qed.

(** The FISH weight is computed as F / (A + F), which need not be the
    binary64 value of 1 - w_ag: with A = 1 and F = 2 the two differ. *)
Example fish_weight_is_a_quotient :
  let r := weight_row 1%float 2%float in
  w_fi r = (2 / 3)%float /\ (w_fi r =? 1 - w_ag r)%float = false.
Proof. vm_compute. split; reflexivity. Qed.

(** ** Employment scaling *)


(** The row tagged in units is scaled with the first, tagged in thousands. *)
Example employment_scaling_sample :
  option_map (map snd)
    (match lfs_employment sample_lfs with Ok t => Some t | Raise _ => None end) =
  Some [1000500%float; 4000000%float].
Proof. vm_compute. reflexivity. Qed.

(** With the two rows in the other order nothing is scaled. *)
Example employment_scaling_sample_rev :
  option_map (map snd)
    (match lfs_employment (rev sample_lfs) with Ok t => Some t | Raise _ => None end) =
  Some [4000%float; 1000.5%float].
Proof. vm_compute. reflexivity. Qed.

(** ** The CPI table *)

Lemma filter_all_true {A : Type} (l : list A) : filter (fun _ => true) l = l.
Proof. induction l as [|x t IH]; simpl; congruence. Qed.

Lemma filter_none {A : Type} (f : A -> bool) (l : list A) :
  (forall x, In x l -> f x = false) -> filter f l = [].
Proof.
  induction l as [|x t IH]; intros H; [reflexivity|]. simpl.
  rewrite (H x (or_introl eq_refl)). apply IH. intros y Hy. apply H. now right.
Qed.

Section GroupByRows.
Context {K V W : Type} (eqb : K -> K -> bool) (order : list K -> list K).
Hypothesis eqb_eq : forall a b, eqb a b = true <-> a = b.
Hypothesis order_NoDup : forall l, NoDup l -> NoDup (order l).
Hypothesis order_In : forall l x, In x (order l) <-> In x l.

(** The rows of a key in the result of [groupby]: one row with the
    aggregate of the group when the key occurs, none otherwise. *)
Lemma filter_groupby_all (agg : list V -> W) (tbl : list (K * V)) k :
  filter (fun r => eqb k (fst r)) (groupby eqb order agg tbl) =
  if existsb (eqb k) (map fst tbl) then [(k, agg (group eqb k tbl))] else [].
Proof.
  pose proof (filter_groupby eqb eqb_eq order agg (fun _ => true) tbl k
                order_NoDup order_In) as H.
  rewrite filter_all_true, andb_true_r in H. exact H.
Qed.

Lemma groupby_key_In (agg : list V -> W) (tbl : list (K * V)) r :
  In r (groupby eqb order agg tbl) -> In (fst r) (map fst tbl).
Proof.
  unfold groupby. intros H. apply in_map_iff in H. destruct H as [k [<- Hk]].
  cbn [fst]. apply (proj1 (order_In _ _)) in Hk.
  exact (proj1 (unique_In eqb eqb_eq _ _) Hk).
Qed.
End GroupByRows.

Lemma cpi_prov_years cpi r : In r (cpi_prov cpi) -> 1978 <= fst (fst r).
Proof.
  unfold cpi_prov. intros H.
  apply (groupby_key_In yp_eqb sort_yp yp_eqb_eq) in H; [|intros; apply sort_by_In].
  unfold cpi_prov_obs in H. rewrite map_map in H. apply in_map_iff in H.
  destruct H as [o [E Ho]]. simpl in E. rewrite <- E. simpl.
  apply filter_In in Ho. destruct Ho as [_ Ho]. apply andb_true_iff in Ho.
  destruct Ho as [_ Ho]. now apply Z.leb_le in Ho.
Qed.

Lemma cpi_canada_avg_years cpi r : In r (cpi_canada_avg cpi) -> 1975 <= fst r <= 1977.
Proof.
  unfold cpi_canada_avg. intros H.
  apply (groupby_key_In Z.eqb sort_years Z.eqb_eq) in H; [|intros; apply sort_by_In].
  unfold cpi_canada_obs in H. rewrite map_map in H. apply in_map_iff in H.
  destruct H as [o [E Ho]]. simpl in E. rewrite <- E.
  apply filter_In in Ho. destruct Ho as [_ Ho]. apply andb_true_iff in Ho.
  destruct Ho as [_ Ho]. now apply between_spec in Ho.
Qed.

Lemma cpi_canada_avg'_years cpi r : In r (cpi_canada_avg' cpi) -> 1974 <= fst r <= 1977.
Proof.
  unfold cpi_canada_avg', cpi_1974. intros H. apply in_app_or in H. destruct H as [H|H].
  - apply in_map_iff in H. destruct H as [x [<- _]]. simpl. lia.
  - apply cpi_canada_avg_years in H. lia.
Qed.

(** The rows of one key in the national averages spread over a list of
    provinces. *)
Lemma filter_spread (L : list (Z * float)) (provs : list string) y p :
  NoDup provs ->
  filter (fun r : YP * float => yp_eqb (y, p) (fst r))
         (flat_map (fun prov => map (fun r : Z * float => ((fst r, prov), snd r)) L) provs) =
  if isin p provs
  then map (fun r => ((fst r, p), snd r)) (filter (fun r => y =? fst r) L)
  else [].
Proof.
  assert (Hone : forall prov,
    filter (fun r : YP * float => yp_eqb (y, p) (fst r))
           (map (fun r : Z * float => ((fst r, prov), snd r)) L) =
    if String.eqb p prov
    then map (fun r => ((fst r, p), snd r)) (filter (fun r => y =? fst r) L)
    else []).
  { intros prov. induction L as [|x t IH]; simpl.
    - now destruct (String.eqb p prov).
    - unfold yp_eqb at 1. simpl. rewrite IH.
      destruct (String.eqb p prov) eqn:E.
      + apply String.eqb_eq in E. subst prov. rewrite andb_true_r.
        now destruct (y =? fst x).
      + now rewrite andb_false_r. }
  induction provs as [|q t IH]; intros Hnd; [reflexivity|].
  inversion Hnd as [|? ? Hq Ht]; subst. cbn [flat_map].
  rewrite filter_app, Hone, (IH Ht).
  unfold isin. cbn [existsb]. destruct (String.eqb p q) eqn:E; cbn [orb].
  - apply String.eqb_eq in E. subst q.
    destruct (existsb (String.eqb p) t) eqn:Et.
    + exfalso. apply Hq. apply existsb_exists in Et. destruct Et as [x [Hx Ex]].
      apply String.eqb_eq in Ex. now subst.
    + apply app_nil_r.
  - reflexivity.
Qed.

Lemma included_geo_NoDup : NoDup included_geo.
Proof.
  unfold included_geo.
  repeat (constructor; [simpl; intros H; repeat (destruct H as [H|H]; [discriminate|]); exact H|]).
  constructor.
Qed.

Lemma isin_In s l : isin s l = true <-> In s l.
Proof. apply (existsb_eqb_In String.eqb String.eqb_eq). Qed.

(** C8 (amended). For an included province the rows of the final CPI
    table are, for a year of 1975-1977, one row with the mean of the
    national all-items observations of the year when there is such an
    observation and no row otherwise, the same for every included province;
    and for a year from 1978 on, one row with the mean of the province's
    own all-items observations when there is one and no row otherwise. *)
Theorem cpi_final_rows cpi y p :
  In p included_geo ->
  (1975 <= y <= 1977 ->
     filter (fun r => yp_eqb (y, p) (fst r)) (cpi_final cpi) =
     if existsb (Z.eqb y) (map fst (cpi_canada_obs cpi))
     then [((y, p), mean_skipna (group Z.eqb y (cpi_canada_obs cpi)))]
     else []) /\
  (1978 <= y ->
     filter (fun r => yp_eqb (y, p) (fst r)) (cpi_final cpi) =
     if existsb (yp_eqb (y, p)) (map fst (cpi_prov_obs cpi))
     then [((y, p), mean_skipna (group yp_eqb (y, p) (cpi_prov_obs cpi)))]
     else []).
Proof.
  intros Hp. apply isin_In in Hp. unfold cpi_final. split; intros Hy; rewrite filter_app.
  - rewrite (filter_none _ (cpi_prov cpi)).
    2:{ intros r Hr. apply cpi_prov_years in Hr.
        destruct (yp_eqb (y, p) (fst r)) eqn:E; [|reflexivity].
        apply yp_eqb_eq in E. rewrite <- E in Hr. simpl in Hr. lia. }
    simpl. unfold cpi_backfilled.
    rewrite (filter_spread _ _ y p included_geo_NoDup), Hp.
    unfold cpi_canada_avg'. rewrite filter_app.
    rewrite (filter_none _ (cpi_1974 cpi)).
    2:{ intros r Hr. unfold cpi_1974 in Hr. apply in_map_iff in Hr.
        destruct Hr as [x [<- _]]. simpl. apply Z.eqb_neq. lia. }
    simpl. unfold cpi_canada_avg.
    rewrite (filter_groupby_all Z.eqb sort_years Z.eqb_eq).
    + now destruct (existsb (Z.eqb y) (map fst (cpi_canada_obs cpi))).
    + intros l. apply sort_by_NoDup.
    + intros l x. apply sort_by_In.
  - rewrite (filter_none _ (cpi_backfilled cpi)).
    2:{ intros r Hr. unfold cpi_backfilled in Hr. apply in_flat_map in Hr.
        destruct Hr as [prov [_ Hr]]. apply in_map_iff in Hr.
        destruct Hr as [x [<- Hx]]. apply cpi_canada_avg'_years in Hx.
        unfold yp_eqb. simpl. replace (y =? fst x) with false; [reflexivity|].
        symmetry. apply Z.eqb_neq. lia. }
    rewrite app_nil_r. unfold cpi_prov.
    apply (filter_groupby_all yp_eqb sort_yp yp_eqb_eq).
    + intros l. apply sort_by_NoDup.
    + intros l x. apply sort_by_In.
Qed.

Lemma cpi_final_rows_witness :
  filter (fun r => yp_eqb (1975, "Alberta") (fst r)) (cpi_final sample_cpi_raw) =
    [((1975, "Alberta"), 31%float)].
Proof.
  assert (Hp : In "Alberta" included_geo) by (simpl; auto).
  assert (Hy : 1975 <= 1975 <= 1977) by lia.
  exact (proj1 (cpi_final_rows sample_cpi_raw 1975 "Alberta" Hp) Hy).
Defined.

(** The table of the sample: Ontario's own observation of 1977 is not
    used, and no province but Ontario has a row for 1978. *)
Example cpi_final_sample :
  filter (fun r => isin (snd (fst r)) ["Ontario"; "Quebec"]) (cpi_final sample_cpi_raw) =
  [((1978, "Ontario"), 39%float);
   ((1974, "Ontario"), 31%float); ((1975, "Ontario"), 31%float);
   ((1976, "Ontario"), 33%float); ((1977, "Ontario"), 36%float);
   ((1974, "Quebec"), 31%float); ((1975, "Quebec"), 31%float);
   ((1976, "Quebec"), 33%float); ((1977, "Quebec"), 36%float)].
Proof. vm_compute. reflexivity. Qed.

(** C8, counterexample. The sample has no all-items observation for
    Alberta in 1978, and the final table has no index for (1978, Alberta). *)
Lemma cpi_final_missing_province_year :
  In "Alberta" included_geo /\
  find (fun r => yp_eqb (1978, "Alberta") (fst r)) (cpi_final sample_cpi_raw) = None.
Proof. split; [simpl; auto | vm_compute; reflexivity]. Qed.

(** ** Event-window indicators *)

Lemma append_inj_l (a b c : string) : String.append a b = String.append a c -> b = c.
Proof.
  induction a as [|x a IH]; simpl; intros H; [exact H|]. inversion H. auto.
Qed.

Lemma to_uint_unorm n : Nat.to_uint n = Decimal.unorm (Nat.to_uint n).
Proof. rewrite <- Unsigned.to_of, Unsigned.of_to. reflexivity. Qed.

Lemma digits_inj k1 k2 : digits k1 = digits k2 -> Z.abs_nat k1 = Z.abs_nat k2.
Proof.
  unfold digits. intros H. apply Unsigned.to_uint_inj.
  assert (Hn : forall n, Nat.to_uint n <> Decimal.Nil).
  { intros n. rewrite to_uint_unorm. apply DecimalFacts.unorm_nonnil. }
  pose proof (NilZero.usu _ (Hn (Z.abs_nat k1))) as H1.
  pose proof (NilZero.usu _ (Hn (Z.abs_nat k2))) as H2.
  rewrite H in H1. congruence.
Qed.

Lemma bin_col_inj name k1 k2 : bin_col name k1 = bin_col name k2 -> k1 = k2.
Proof.
  unfold bin_col. intros H. apply append_inj_l in H. simpl in H.
  inversion H as [H'].
  destruct (k1 <? 0) eqn:E1, (k2 <? 0) eqn:E2; simpl in H'; inversion H' as [Hd];
    apply digits_inj in Hd;
    rewrite ?Z.ltb_lt, ?Z.ltb_ge in E1, E2; lia.
Qed.

Lemma bin_col_not_base name k :
  bin_col name k <> treated_col name /\ bin_col name k <> post_col name /\
  bin_col name k <> rel_col name.
Proof.
  unfold bin_col, treated_col, post_col, rel_col.
  repeat split; intros H; apply append_inj_l in H; discriminate.
Qed.

Lemma base_cols_distinct name :
  treated_col name <> post_col name /\ treated_col name <> rel_col name /\
  post_col name <> rel_col name.
Proof.
  unfold treated_col, post_col, rel_col.
  repeat split; intros H; apply append_inj_l in H; discriminate.
Qed.

Lemma set_col_fresh col v cols :
  ~ In col (map fst cols) -> set_col col v cols = cols ++ [(col, v)].
Proof.
  intros H. unfold set_col.
  destruct (existsb (fun c => String.eqb col (fst c)) cols) eqn:E; [|reflexivity].
  exfalso. apply H. apply existsb_exists in E. destruct E as [c [Hc E]].
  apply String.eqb_eq in E. subst col. now apply in_map.
Qed.

Lemma get_col_app col l1 l2 :
  get_col col (l1 ++ l2) =
  if existsb (fun c => String.eqb col (fst c)) l1 then get_col col l1 else get_col col l2.
Proof.
  unfold get_col. induction l1 as [|x t IH]; [reflexivity|]. simpl.
  destruct (String.eqb col (fst x)); [reflexivity | exact IH].
Qed.

Lemma existsb_col_false col (cols : list (string * option Z)) :
  ~ In col (map fst cols) -> existsb (fun c => String.eqb col (fst c)) cols = false.
Proof.
  intros H. destruct (existsb _ cols) eqn:E; [|reflexivity].
  exfalso. apply H. apply existsb_exists in E. destruct E as [c [Hc E]].
  apply String.eqb_eq in E. subst col. now apply in_map.
Qed.

Lemma get_col_snoc_same col v cols :
  ~ In col (map fst cols) -> get_col col (cols ++ [(col, v)]) = v.
Proof.
  intros H. rewrite get_col_app, (existsb_col_false _ _ H).
  unfold get_col. simpl. now rewrite String.eqb_refl.
Qed.

Lemma get_col_snoc_other col col' v cols :
  col <> col' -> get_col col (cols ++ [(col', v)]) = get_col col cols.
Proof.
  intros H. rewrite get_col_app.
  destruct (existsb (fun c => String.eqb col (fst c)) cols) eqn:E; [reflexivity|].
  unfold get_col at 1. simpl. apply String.eqb_neq in H. rewrite H.
  unfold get_col. destruct (find _ cols) as [c|] eqn:Ef; [|reflexivity].
  apply find_some in Ef. destruct Ef as [Hc Ec].
  assert (Ht : existsb (fun c => String.eqb col (fst c)) cols = true)
    by (apply existsb_exists; eauto).
  congruence.
Qed.

(** The loop over the offsets appends one column per offset other than -1. *)
Lemma bins_loop name rel ks : forall acc,
  NoDup ks ->
  (forall k, In k ks -> k <> -1 -> ~ In (bin_col name k) (map fst acc)) ->
  get_col (rel_col name) acc = rel ->
  fold_left (fun cols k =>
               if k =? -1 then cols
               else set_col (bin_col name k)
                            (Some (indicator (get_col (rel_col name) cols) k)) cols)
            ks acc =
  acc ++ map (fun k => (bin_col name k, Some (indicator rel k)))
             (filter (fun k => negb (k =? -1)) ks).
Proof.
  induction ks as [|k t IH]; intros acc Hnd Hfresh Hrel; simpl.
  - now rewrite app_nil_r.
  - inversion Hnd as [|? ? Hk Ht]; subst.
    destruct (k =? -1) eqn:E; simpl.
    + apply IH; auto. intros k' Hk'. apply Hfresh. now right.
    + apply Z.eqb_neq in E.
      rewrite set_col_fresh by (apply Hfresh; [now left | exact E]).
      rewrite IH; auto.
      * now rewrite <- app_assoc.
      * intros k' Hk' Hk1. rewrite map_app, in_app_iff. simpl.
        intros [H|[H|[]]].
        -- apply (Hfresh k'); [now right | exact Hk1 | exact H].
        -- apply bin_col_inj in H. subst k'. contradiction.
      * apply get_col_snoc_other. intros H. symmetry in H.
        now apply bin_col_not_base in H.
Qed.

Lemma range_In lo hi k : In k (range lo hi) <-> lo <= k < hi.
Proof.
  unfold range. rewrite in_map_iff. split.
  - intros [i [<- Hi]]. apply in_seq in Hi. lia.
  - intros H. exists (Z.to_nat (k - lo)). split; [lia|]. apply in_seq. lia.
Qed.

Lemma range_NoDup lo hi : NoDup (range lo hi).
Proof.
  unfold range. apply Injective_map_NoDup; [|apply seq_NoDup].
  intros i j H. lia.
Qed.



Lemma filter_all {A : Type} (f : A -> bool) (l : list A) :
  (forall x, In x l -> f x = true) -> filter f l = l.
Proof.
  induction l as [|x t IH]; intros H; [reflexivity|]. simpl.
  rewrite (H x (or_introl eq_refl)). f_equal. apply IH. intros y Hy. apply H. now right.
Qed.


Lemma offsets_In w k : In k (offsets w) <-> - w <= k <= w /\ k <> -1.
Proof.
  unfold offsets. rewrite filter_In, range_In, negb_true_iff, Z.eqb_neq. lia.
Qed.







(** The twelve indicator columns of the 1980 event on the 1983 Alberta
    row: none for the offset -1, and the one of offset 3 alone is 1. *)
Example event_window_sample :
  skipn 3 (event_cols (add_event_vars_row fst snd "NEP" 1980 TREAT_AB 6 sample_event_row)) =
  [("NEP_bin_m6", Some 0); ("NEP_bin_m5", Some 0); ("NEP_bin_m4", Some 0);
   ("NEP_bin_m3", Some 0); ("NEP_bin_m2", Some 0);
   ("NEP_bin_p0", Some 0); ("NEP_bin_p1", Some 0); ("NEP_bin_p2", Some 0);
   ("NEP_bin_p3", Some 1); ("NEP_bin_p4", Some 0); ("NEP_bin_p5", Some 0);
   ("NEP_bin_p6", Some 0)].
Proof. vm_compute. reflexivity. Qed.

(** The four events of the script add 3 + 12, 3 + 12, 3 + 12 and 3 + 8
    columns. *)
Example annotate_sample :
  map (fun r => List.length (event_cols r)) (annotate fst snd [sample_event_row]) = [56%nat].
Proof. vm_compute. reflexivity. Qed.

(** A half-window of 0 gives one indicator column, for the offset 0. *)
Example offsets_zero_window : offsets 0 = [0].
Proof. reflexivity. Qed.

(** ** The left joins do not fan out *)

Section JoinFacts.
Context {K' : Type} (eqb : K' -> K' -> bool).
Hypothesis eqb_eq : forall a b, eqb a b = true <-> a = b.

Lemma filter_key_unique {B : Type} (R : list (K' * B)) k :
  NoDup (map fst R) ->
  filter (fun r => eqb k (fst r)) R = [] \/
  exists m, filter (fun r => eqb k (fst r)) R = [m].
Proof.
  induction R as [|x t IH]; intros Hnd; [now left|].
  inversion Hnd as [|? ? Hx Ht]; subst. simpl.
  destruct (eqb k (fst x)) eqn:E; [|now apply IH].
  right. exists x. f_equal. apply filter_none. intros r Hr.
  destruct (eqb k (fst r)) eqn:Er; [|reflexivity].
  apply eqb_eq in E, Er. exfalso. apply Hx. rewrite <- E, Er. now apply in_map.
Qed.

(** With unique right keys every left row comes out once, in order. *)
Lemma merge_left_keys {A B : Type} (key : A -> K') (L : list A) (R : list (K' * B)) na :
  NoDup (map fst R) -> map fst (merge_left eqb key L R na) = L.
Proof.
  intros Hnd. unfold merge_left. induction L as [|a t IH]; [reflexivity|].
  cbn [flat_map]. rewrite map_app, IH.
  destruct (filter_key_unique R (key a) Hnd) as [E|[m E]]; rewrite E; reflexivity.
Qed.

Lemma join_keys {K A B : Type} (keyf : K -> K') (R : list (K' * B)) na
    (L : list (K * A)) :
  NoDup (map fst R) -> map fst (join eqb keyf R na L) = map fst L.
Proof.
  intros Hnd. unfold join. rewrite map_map. cbn [fst].
  rewrite <- (map_map fst fst). now rewrite merge_left_keys.
Qed.

Lemma any_duplicated_NoDup (l : list K') : NoDup l -> any_duplicated eqb l = false.
Proof.
  induction l as [|x t IH]; intros Hnd; [reflexivity|].
  inversion Hnd as [|? ? Hx Ht]; subst. simpl. rewrite (IH Ht), orb_false_r.
  destruct (existsb (eqb x) t) eqn:E; [|reflexivity].
  apply (existsb_eqb_In eqb eqb_eq) in E. contradiction.
Qed.

Lemma sum_duplicates_keys (tbl : list (K' * float)) :
  map fst (sum_duplicates eqb tbl) = unique eqb (map fst tbl).
Proof.
  unfold sum_duplicates, groupby. rewrite map_map. apply map_id.
Qed.

Lemma sum_duplicates_NoDup (tbl : list (K' * float)) :
  NoDup (map fst (sum_duplicates eqb tbl)).
Proof. rewrite sum_duplicates_keys. apply (unique_NoDup eqb eqb_eq). Qed.

Lemma sum_duplicates_assert (tbl : list (K' * float)) msg :
  assert (negb (any_duplicated eqb (map fst (sum_duplicates eqb tbl)))) msg = Ok tt.
Proof. now rewrite any_duplicated_NoDup by apply sum_duplicates_NoDup. Qed.
End JoinFacts.

(** The geography filter leaves the included provinces only. *)
Lemma load_province {Y : Type} (raw df : Frame Y) r :
  load raw = Ok df -> In r (rows df) -> isin (Province r) included_geo = true.
Proof.
  unfold load, apply_geo_filter.
  destruct (find _ (columns raw)) as [geo_col|]; [|discriminate].
  simpl. intros H Hr. inversion H; subst. simpl in Hr.
  apply in_map_iff in Hr. destruct Hr as [o [<- Ho]]. simpl.
  apply filter_In in Ho. tauto.
Qed.

Lemma gdp_sectors_domain {raw80 raw90 gdp80 gdp90} cpi k :
  load raw80 = Ok gdp80 -> load raw90 = Ok gdp90 ->
  In k (map fst (gdp_sectors gdp80 gdp90 cpi)) ->
  in_domain (fst (fst k)) (snd (fst k)) = true.
Proof.
  intros H80 H90 Hk.
  assert (Hb : forall s label, In k (map fst (build_sector gdp80 gdp90 cpi s label)) ->
                               in_domain (fst (fst k)) (snd (fst k)) = true).
  { intros s label H. unfold build_sector in H. rewrite map_map in H.
    apply in_map_iff in H. destruct H as [[kk v] [<- H]]. cbn [fst snd].
    unfold in_domain. apply andb_true_iff. apply in_app_or in H. destruct H as [H|H].
    - unfold sector_pre, deflate_rows, sector_pre_merged in H.
      apply in_map_iff in H. destruct H as [m [E Hm]]. inversion E; subst.
      apply merge_left_fst in Hm. destruct (fst m) as [key nominal] eqn:Em.
      unfold extract_nominal_block in Hm. apply select_years_In in Hm.
      destruct Hm as [o (Ho & _ & Hp & _ & _ & Hy)]. cbn [fst].
      split; [apply between_spec; lia|]. rewrite <- Hp.
      now apply (load_province raw80 gdp80).
    - unfold sector_post, extract_real_block in H. apply select_years_In in H.
      destruct H as [o (Ho & _ & Hp & _ & _ & Hy)].
      split; [apply between_spec; simpl in Hy; lia|]. simpl in Hp. rewrite <- Hp.
      now apply (load_province raw90 gdp90). }
  unfold gdp_sectors in Hk. rewrite !map_app, !in_app_iff in Hk.
  destruct Hk as [H|[H|[H|[H|[H|H]]]]]; eapply Hb; exact H.
Qed.

Lemma sect_finish_key x :
  (Sect.Year (Sect.finish x), Sect.Province (Sect.finish x), Sect.Sector (Sect.finish x)) =
  fst x.
Proof.
  destruct x as [[[y p] s] [[[[[[[[[[[[a b] c] d] e] f] g] h] i] j] k] l] m]]. reflexivity.
Qed.

Lemma sect_joined_keys gdp_sectors comp_sect gdp_total comp_total employment population
      bank_rate wti coal chem wheat us_cad :
  NoDup (map fst comp_sect) -> NoDup (map fst gdp_total) -> NoDup (map fst comp_total) ->
  NoDup (map fst employment) -> NoDup (map fst population) ->
  NoDup (map fst bank_rate) -> NoDup (map fst wti) -> NoDup (map fst coal) ->
  NoDup (map fst chem) -> NoDup (map fst wheat) -> NoDup (map fst us_cad) ->
  map fst (Sect.joined gdp_sectors comp_sect gdp_total comp_total employment population
                       bank_rate wti coal chem wheat us_cad) =
  map fst gdp_sectors.
Proof.
  intros. unfold Sect.joined.
  repeat (rewrite (join_keys Z.eqb Z.eqb_eq) by assumption).
  repeat (rewrite (join_keys yp_eqb yp_eqb_eq) by assumption).
  now rewrite (join_keys yps_eqb yps_eqb_eq) by assumption.
Qed.

(** C6. With the sector GDP built from the two loaded vintages, and the
    employment, population and annual series unique on their keys (the
    script itself sums the duplicates of the other three joined tables),
    the assembly does not raise, and the rows of the sector-level panel
    after all the joins and the domain lock carry the keys of the anchor
    table, each once and in the same order: the panel has as many rows as
    the anchor. *)
Theorem join_non_fan_out
    (raw80 raw90 gdp80 gdp90 : Frame (option Z)) (cpi : list (YP * float))
    (comp_sect : list (YPS * float)) (gdp_total comp_total lfs_agg pop : list (YP * float))
    (br wti coal chem wheat : list (Z * float)) (us_cad : list (Z * FxRow)) :
  load raw80 = Ok gdp80 -> load raw90 = Ok gdp90 ->
  NoDup (map fst lfs_agg) -> NoDup (map fst pop) ->
  NoDup (map fst br) -> NoDup (map fst wti) -> NoDup (map fst coal) ->
  NoDup (map fst chem) -> NoDup (map fst wheat) -> NoDup (map fst us_cad) ->
  exists p,
    assemble (gdp_sectors gdp80 gdp90 cpi) comp_sect gdp_total comp_total lfs_agg pop
             br wti coal chem wheat us_cad = Ok p /\
    anchor p = sum_duplicates yps_eqb (gdp_sectors gdp80 gdp90 cpi) /\
    map (fun r => (Sect.Year r, Sect.Province r, Sect.Sector r)) (panel_df p) =
      map fst (anchor p) /\
    List.length (panel_df p) = List.length (anchor p).
Proof.
  intros H80 H90 Hl Hp Hb Hw Hc Hch Hwh Hu.
  unfold assemble.
  rewrite !(sum_duplicates_assert yps_eqb yps_eqb_eq).
  rewrite !(sum_duplicates_assert yp_eqb yp_eqb_eq).
  cbn [bind]. eexists. split; [reflexivity|]. cbn [anchor panel_df].
  split; [reflexivity|].
  set (A := sum_duplicates yps_eqb (gdp_sectors gdp80 gdp90 cpi)).
  assert (Hkeys : map (fun r => (Sect.Year r, Sect.Province r, Sect.Sector r))
                      (Sect.panel_df A (sum_duplicates yps_eqb comp_sect)
                         (sum_duplicates yp_eqb gdp_total) (sum_duplicates yp_eqb comp_total)
                         lfs_agg pop br wti coal chem wheat us_cad) = map fst A).
  { unfold Sect.panel_df.
    pose proof (sect_joined_keys A (sum_duplicates yps_eqb comp_sect)
                  (sum_duplicates yp_eqb gdp_total) (sum_duplicates yp_eqb comp_total)
                  lfs_agg pop br wti coal chem wheat us_cad
                  (sum_duplicates_NoDup yps_eqb yps_eqb_eq _)
                  (sum_duplicates_NoDup yp_eqb yp_eqb_eq _)
                  (sum_duplicates_NoDup yp_eqb yp_eqb_eq _)
                  Hl Hp Hb Hw Hc Hch Hwh Hu) as HJ.
    rewrite filter_all.
    - rewrite map_map, <- HJ. apply map_ext. intros x. apply sect_finish_key.
    - intros r Hr. apply in_map_iff in Hr. destruct Hr as [x [<- Hx]].
      pose proof (sect_finish_key x) as Ek.
      assert (Hin : In (fst x) (map fst A)) by (rewrite <- HJ; exact (in_map fst _ _ Hx)).
      unfold A in Hin. rewrite (sum_duplicates_keys yps_eqb) in Hin.
      apply (proj1 (unique_In yps_eqb yps_eqb_eq _ _)) in Hin.
      apply (gdp_sectors_domain cpi (fst x) H80 H90) in Hin.
      rewrite <- Ek in Hin. exact Hin. }
  split; [exact Hkeys|].
  rewrite <- (length_map (fun r => (Sect.Year r, Sect.Province r, Sect.Sector r))), Hkeys.
  apply length_map.
Qed.

Lemma join_non_fan_out_witness :
  exists p,
    assemble (gdp_sectors (unwrap (load sample_raw80) sample_raw80)
                          (unwrap (load sample_raw90) sample_raw90) sample_cpi)
             [] [] [] sample_employment sample_population
             sample_bank_rate [] [] [] [] sample_us_cad = Ok p /\
    anchor p = sum_duplicates yps_eqb
                 (gdp_sectors (unwrap (load sample_raw80) sample_raw80)
                              (unwrap (load sample_raw90) sample_raw90) sample_cpi) /\
    map (fun r => (Sect.Year r, Sect.Province r, Sect.Sector r)) (panel_df p) =
      map fst (anchor p) /\
    List.length (panel_df p) = List.length (anchor p).
Proof.
  apply (join_non_fan_out sample_raw80 sample_raw90).
  - vm_compute. reflexivity.
  - vm_compute. reflexivity.
  - unfold sample_employment. nodup_keys.
  - unfold sample_population. nodup_keys.
  - unfold sample_bank_rate. nodup_keys.
  - constructor.
  - constructor.
  - constructor.
  - constructor.
  - unfold sample_us_cad. nodup_keys.
Defined.

(** On the sample the two Alberta rows of 1980 are summed into one anchor
    row, and the panel has the three anchor keys. *)
Example join_non_fan_out_sample :
  map (fun r => (Sect.Year r, Sect.Province r, Sect.Sector r, Sect.GDP_Real_Sector r,
                 Sect.Population r))
      (panel_df
         (unwrap
            (assemble (gdp_sectors (unwrap (load sample_raw80) sample_raw80)
                                   (unwrap (load sample_raw90) sample_raw90) sample_cpi)
                      [] [] [] sample_employment sample_population
                      sample_bank_rate [] [] [] [] sample_us_cad)
            (mkPanels [] [] []))) =
  [(1980, "Alberta", "OIL_GAS", 50001%float, 2000000%float);
   (1984, "Alberta", "OIL_GAS", 62000%float, 2300000%float);
   (1984, "British Columbia", "EDU", 700%float, nan)].
Proof. vm_compute. reflexivity. Qed.

(** Without the uniqueness of a joined table the panel fans out: two
    population rows for one key give two panel rows for one anchor row. *)
Example fan_out_on_duplicate_population :
  List.length
    (Sect.panel_df [((1980, "Alberta", "OIL_GAS"), 1%float)] [] [] [] []
       [((1980, "Alberta"), 10%float); ((1980, "Alberta"), 11%float)]
       [] [] [] [] [] []) = 2%nat.
Proof. vm_compute. reflexivity. Qed.

(** ** Missing keys: reported, then asserted *)

Section MergeComplete.
Context {K A B : Type} (eqb : K -> K -> bool) (key : A -> K).

Lemma merge_left_match (L : list A) (R : list (K * B)) (na : B) a r :
  In a L -> In r R -> eqb (key a) (fst r) = true ->
  In (a, snd r) (merge_left eqb key L R na).
Proof.
  intros Ha Hr E. unfold merge_left. apply in_flat_map. exists a. split; [exact Ha|].
  assert (Hf : In r (filter (fun r => eqb (key a) (fst r)) R)) by (apply filter_In; auto).
  destruct (filter (fun r => eqb (key a) (fst r)) R) as [|m ms]; [contradiction|].
  apply in_map_iff. exists r. auto.
Qed.

Lemma merge_left_no_match (L : list A) (R : list (K * B)) (na : B) a :
  In a L -> (forall r, In r R -> eqb (key a) (fst r) = false) ->
  In (a, na) (merge_left eqb key L R na).
Proof.
  intros Ha Hno. unfold merge_left. apply in_flat_map. exists a. split; [exact Ha|].
  rewrite filter_none by exact Hno. now left.
Qed.
End MergeComplete.

Lemma prov_df_derived gdp_total comp_total lfs_agg pop br wti coal chem wheat us_cad r :
  In r (Prov.prov_df gdp_total comp_total lfs_agg pop br wti coal chem wheat us_cad) ->
  Prov.GDP_pc_real_1986 r = (Prov.GDP_Real_Total r / Prov.Population r)%float /\
  Prov.Wpw_All r = (Prov.Comp_Real_Total r / replace_zero_nan (Prov.Employment r))%float /\
  in_domain (Prov.Year r) (Prov.Province r) = true.
Proof.
  unfold Prov.prov_df. intros H. apply filter_In in H. destruct H as [H Hd].
  apply in_map_iff in H. destruct H as [x [<- _]].
  destruct x as [[y p] [[[[[[[[[a b] c] d] e] f] g] h] i] j]]. simpl in *. auto.
Qed.

Lemma closing_asserts_ok prov_df :
  closing_asserts prov_df = Ok tt <->
  forall r, In r prov_df ->
            isna (Prov.GDP_pc_real_1986 r) = false /\ (0 <? Prov.Wpw_All r)%float = true.
Proof.
  unfold closing_asserts, assert, bind.
  destruct (forallb (fun r => notna (Prov.GDP_pc_real_1986 r)) prov_df) eqn:E1.
  - destruct (forallb (fun r => (0 <? Prov.Wpw_All r)%float) prov_df) eqn:E2.
    + rewrite forallb_forall in E1, E2. split; [|reflexivity]. intros _ r Hr.
      specialize (E1 r Hr). specialize (E2 r Hr). unfold notna in E1.
      apply negb_true_iff in E1. auto.
    + split; [discriminate|]. intros H.
      assert (forallb (fun r => (0 <? Prov.Wpw_All r)%float) prov_df = true)
        by (apply forallb_forall; intros r Hr; apply H, Hr).
      congruence.
  - split; [discriminate|]. intros H.
    assert (forallb (fun r => notna (Prov.GDP_pc_real_1986 r)) prov_df = true).
    { apply forallb_forall. intros r Hr. unfold notna.
      now rewrite (proj1 (H r Hr)). }
    congruence.
Qed.

Lemma closing_asserts_raise prov_df r :
  In r prov_df -> isna (Prov.GDP_pc_real_1986 r) = true ->
  closing_asserts prov_df = Raise (AssertionError "").
Proof.
  intros Hr Hna. unfold closing_asserts, assert, bind.
  destruct (forallb (fun r => notna (Prov.GDP_pc_real_1986 r)) prov_df) eqn:E1;
    [|reflexivity].
  rewrite forallb_forall in E1. specialize (E1 r Hr). unfold notna in E1.
  rewrite Hna in E1. discriminate.
Qed.

Lemma miss_keys prov_df k :
  In k (map miss_key (_miss prov_df)) <->
  In k grid /\
  ((forall r, In r prov_df -> (Prov.Year r, Prov.Province r) <> k) \/
   exists r, In r prov_df /\ (Prov.Year r, Prov.Province r) = k /\
             isna (Prov.GDP_Real_Total r) || isna (Prov.Population r) = true).
Proof.
  unfold _miss.
  set (R := map (fun r => ((Prov.Year r, Prov.Province r),
                           (Prov.GDP_Real_Total r, Prov.Population r))) prov_df).
  split.
  - intros H. apply in_map_iff in H. destruct H as [m [<- Hm]].
    apply sort_by_In in Hm. apply filter_In in Hm. destruct Hm as [Hm Hna].
    apply in_map_iff in Hm. destruct Hm as [[a [g p]] [<- Hx]].
    cbn [miss_key miss_GDP_Real_Total miss_Population fst snd] in *.
    apply merge_left_In in Hx. destruct Hx as [Ha [[r (Hr & E & Hs)]|[_ Hno]]].
    + split; [exact Ha|]. right. unfold R in Hr. apply in_map_iff in Hr.
      destruct Hr as [r0 [<- Hr0]]. cbn [fst snd] in *. apply yp_eqb_eq in E.
      inversion Hs; subst. exists r0. auto.
    + split; [exact Ha|]. left. intros r Hr Hk.
      specialize (Hno ((Prov.Year r, Prov.Province r),
                       (Prov.GDP_Real_Total r, Prov.Population r))).
      cbn [fst snd] in Hno. rewrite Hk, yp_eqb_refl in Hno.
      assert (true = false); [|discriminate]. apply Hno. unfold R.
      apply in_map_iff. exists r. rewrite Hk. auto.
  - intros [Hg [Hno|[r (Hr & Hk & Hna)]]].
    + apply in_map_iff. exists (mkMissRow k nan nan). split; [reflexivity|].
      apply sort_by_In. apply filter_In. split; [|reflexivity].
      apply in_map_iff. exists (k, (nan, nan)). split; [reflexivity|].
      apply merge_left_no_match; [exact Hg|]. intros x Hx. unfold R in Hx.
      apply in_map_iff in Hx. destruct Hx as [r [<- Hr]]. cbn [fst snd].
      destruct (yp_eqb k (Prov.Year r, Prov.Province r)) eqn:E; [|reflexivity].
      apply yp_eqb_eq in E. exfalso. apply (Hno r Hr). now symmetry.
    + apply in_map_iff.
      exists (mkMissRow k (Prov.GDP_Real_Total r) (Prov.Population r)).
      split; [reflexivity|]. apply sort_by_In. apply filter_In. split; [|exact Hna].
      apply in_map_iff. exists (k, (Prov.GDP_Real_Total r, Prov.Population r)).
      split; [reflexivity|].
      apply (merge_left_match yp_eqb (fun k : YP => k) grid R (nan, nan) k
               ((Prov.Year r, Prov.Province r), (Prov.GDP_Real_Total r, Prov.Population r))).
      * exact Hg.
      * unfold R. apply in_map_iff. exists r. auto.
      * cbn [fst snd]. rewrite Hk. apply yp_eqb_refl.
Qed.

Lemma div_nan_either n c :
  isna n || isna c = true -> isna (n / c)%float = true.
Proof.
  intros H. apply orb_true_iff in H. destruct H; [now apply div_nan_l | now apply div_nan_r].
Qed.

(** C1 (amended). The report of the missing keys is always computed, ahead
    of the assertions: it lists the grid keys with no row in the province
    panel and those with a row whose GDP_Real_Total or Population is
    missing.  The run then passes the assertions exactly when every row of
    the province panel has a non-missing GDP per capita and a positive
    compensation per worker; so a key with no row in the panel does not
    halt the run, and a panel row with a missing GDP_Real_Total or
    Population does, with an AssertionError. *)
Theorem missing_keys_reported_then_asserted :
  (forall prov_df k,
      In k (map miss_key (fst (diagnostics prov_df))) <->
      In k grid /\
      ((forall r, In r prov_df -> (Prov.Year r, Prov.Province r) <> k) \/
       exists r, In r prov_df /\ (Prov.Year r, Prov.Province r) = k /\
                 isna (Prov.GDP_Real_Total r) || isna (Prov.Population r) = true)) /\
  (forall prov_df,
      snd (diagnostics prov_df) = Ok tt <->
      forall r, In r prov_df ->
                isna (Prov.GDP_pc_real_1986 r) = false /\
                (0 <? Prov.Wpw_All r)%float = true) /\
  (forall gdp_total comp_total lfs_agg pop br wti coal chem wheat us_cad r,
      let prov_df := Prov.prov_df gdp_total comp_total lfs_agg pop
                                  br wti coal chem wheat us_cad in
      In r prov_df ->
      isna (Prov.GDP_Real_Total r) || isna (Prov.Population r) = true ->
      In (Prov.Year r, Prov.Province r) (map miss_key (fst (diagnostics prov_df))) /\
      snd (diagnostics prov_df) = Raise (AssertionError "")).
Proof.
  split; [|split].
  - intros prov_df k. apply miss_keys.
  - intros prov_df. apply closing_asserts_ok.
  - intros gdp_total comp_total lfs_agg pop br wti coal chem wheat us_cad r prov_df Hr Hna.
    destruct (prov_df_derived _ _ _ _ _ _ _ _ _ _ r Hr) as (Hpc & _ & Hd).
    split.
    + apply miss_keys. split.
      * unfold in_domain in Hd. apply andb_true_iff in Hd. destruct Hd as [Hy Hp].
        apply between_spec in Hy. apply isin_In in Hp.
        unfold grid. apply in_flat_map. exists (Prov.Year r). split.
        -- apply range_In. lia.
        -- apply in_map_iff. exists (Prov.Province r). split; [reflexivity|].
           apply sort_by_In. exact Hp.
      * right. exists r. split; [exact Hr | split; [reflexivity | exact Hna]].
    + cbn [snd diagnostics]. apply (closing_asserts_raise prov_df r Hr).
      rewrite Hpc. apply div_nan_either. exact Hna.
Qed.

(** No row at all: the 189 keys of the grid are reported and the
    assertions pass. *)
Example diagnostics_of_empty_panel :
  List.length (fst (diagnostics [])) = 189%nat /\ snd (diagnostics []) = Ok tt.
Proof. vm_compute. split; reflexivity. Qed.

(** C1, counterexample. The total GDP has a row for (1975, Alberta) and
    the population table has none: the key is in the report with a missing
    Population, and the run halts on the first assertion. *)
Lemma missing_population_halts :
  map (fun r => (Prov.Year r, Prov.Province r, Prov.GDP_Real_Total r, Prov.Population r))
      sample_prov_df = [(1975, "Alberta", 100%float, nan)] /\
  hd_error (fst (diagnostics sample_prov_df)) =
    Some (mkMissRow (1975, "Alberta") 100%float nan) /\
  snd (diagnostics sample_prov_df) = Raise (AssertionError "").
Proof. vm_compute. repeat split; reflexivity. Qed.

(** * Further properties of the pipeline *)

(** ** Geography filter and column search *)


Lemma low_dict_In cols k c :
  In (k, c) (low_dict cols) -> In c cols /\ lower c = k.
Proof.
  unfold low_dict. intros H. apply in_map_iff in H. destruct H as [k' [E Hk]].
  inversion E; subst k'. clear E.
  apply (proj1 (unique_In String.eqb String.eqb_eq _ _)) in Hk.
  destruct (find (fun c0 => String.eqb (lower c0) k) (rev cols)) as [c0|] eqn:Ef.
  - subst c0. apply find_some in Ef. destruct Ef as [Hc Ec].
    apply in_rev in Hc. apply String.eqb_eq in Ec. auto.
  - exfalso. apply in_map_iff in Hk. destruct Hk as [c1 [E1 Hc1]].
    pose proof (find_none _ _ Ef c1 (proj1 (in_rev _ _) Hc1)) as Hf. simpl in Hf.
    rewrite E1, String.eqb_refl in Hf. discriminate.
Qed.

Lemma low_dict_keys cols c :
  In c cols -> exists c', In (lower c, c') (low_dict cols).
Proof.
  intros Hc. unfold low_dict.
  assert (Hk : In (lower c) (unique String.eqb (map lower cols)))
    by (apply (unique_In String.eqb String.eqb_eq); now apply in_map).
  eexists. apply in_map_iff. exists (lower c). split; [reflexivity | exact Hk].
Qed.

(** X4. [_find_col] finds nothing exactly when no column name contains a
    needle in any case; what it finds is a column of the frame whose
    lowered name contains one of the needles. *)
Theorem find_col_spec {Y : Type} (df : Frame Y) (needles : list string) :
  (_find_col df needles = None <->
   forall c n, In c (columns df) -> In n needles -> contains n (lower c) = false) /\
  (forall c, _find_col df needles = Some c ->
             In c (columns df) /\ exists n, In n needles /\ contains n (lower c) = true).
Proof.
  unfold _find_col. set (low := low_dict (columns df)).
  assert (Hlow : forall k c, In (k, c) low -> In c (columns df) /\ lower c = k)
    by (intros k c; apply low_dict_In).
  assert (Hkeys : forall c, In c (columns df) -> exists c', In (lower c, c') low)
    by (intros c; apply low_dict_keys).
  clearbody low. induction needles as [|n t IH]; simpl.
  - split; [split; [intros _ c n _ []|reflexivity] | discriminate].
  - destruct (find (fun kv => contains n (fst kv)) low) as [[k c0]|] eqn:Ef.
    + apply find_some in Ef. destruct Ef as [Hin Hc]. cbn [fst snd] in *.
      destruct (Hlow _ _ Hin) as [Hc0 Hk]. split.
      * split; [discriminate|]. intros H.
        rewrite <- Hk in Hc. rewrite (H c0 n Hc0 (or_introl eq_refl)) in Hc. discriminate.
      * intros c H. inversion H; subst c. split; [exact Hc0|].
        exists n. split; [now left | now rewrite Hk].
    + destruct IH as [IH1 IH2]. split.
      * rewrite IH1. split.
        -- intros H c n' Hc [<-|Hn]; [|now apply H].
           destruct (Hkeys c Hc) as [c' Hc'].
           apply (find_none _ _ Ef (lower c, c') Hc').
        -- intros H c n' Hc Hn. apply H; [exact Hc | now right].
      * intros c H. destruct (IH2 c H) as [Hc [n' [Hn' E]]].
        split; [exact Hc|]. exists n'. split; [now right | exact E].
Qed.

(** ** The uniqueness step *)

(** X20. The four assertions after the uniqueness step cannot fail: the
    assembly never raises, whatever the tables, and its anchor has the
    distinct keys of the sector GDP in order of first appearance. *)
Theorem assemble_never_raises
    (gdp_sectors comp_sect : list (YPS * float))
    (gdp_total comp_total lfs_agg pop : list (YP * float))
    (br wti coal chem wheat : list (Z * float)) (us_cad : list (Z * FxRow)) :
  exists p,
    assemble gdp_sectors comp_sect gdp_total comp_total lfs_agg pop
             br wti coal chem wheat us_cad = Ok p /\
    map fst (anchor p) = unique yps_eqb (map fst gdp_sectors) /\
    NoDup (map fst (anchor p)) /\
    (forall k, In k (map fst (anchor p)) <-> In k (map fst gdp_sectors)).
Proof.
  unfold assemble.
  rewrite !(sum_duplicates_assert yps_eqb yps_eqb_eq).
  rewrite !(sum_duplicates_assert yp_eqb yp_eqb_eq).
  cbn [bind]. eexists. split; [reflexivity|]. cbn [anchor].
  split; [apply sum_duplicates_keys|].
  split; [apply (sum_duplicates_NoDup yps_eqb yps_eqb_eq)|].
  intros k. rewrite sum_duplicates_keys. apply (unique_In yps_eqb yps_eqb_eq).
Qed.

Lemma dropna_all_missing xs : (forall v, In v xs -> isna v = true) -> dropna xs = [].
Proof.
  intros H. unfold dropna. apply filter_none. intros v Hv. unfold notna.
  now rewrite (H v Hv).
Qed.

Lemma group_In {K V : Type} (eqb : K -> K -> bool) (k : K) (tbl : list (K * V)) v :
  In v (group eqb k tbl) -> exists k', In (k', v) tbl /\ eqb k k' = true.
Proof.
  unfold group. intros H. apply in_map_iff in H. destruct H as [[k' v'] [E H]].
  simpl in E. subst v'. apply filter_In in H. destruct H as [H Ek]. exists k'. auto.
Qed.

(** X18. The uniqueness step sums with NaN skipped, so a key whose values are
    all missing comes out with the value 0 and not with a missing value. *)
Theorem sum_duplicates_missing_becomes_zero (tbl : list (YP * float)) (k : YP) :
  In k (map fst tbl) ->
  (forall v, In (k, v) tbl -> isna v = true) ->
  filter (fun r => yp_eqb k (fst r)) (sum_duplicates yp_eqb tbl) = [(k, 0%float)].
Proof.
  intros Hk Hna. unfold sum_duplicates.
  rewrite (filter_groupby_all yp_eqb (fun ks => ks) yp_eqb_eq).
  - replace (existsb (yp_eqb k) (map fst tbl)) with true
      by (symmetry; now apply (existsb_eqb_In yp_eqb yp_eqb_eq)).
    unfold sum_skipna. rewrite dropna_all_missing; [reflexivity|].
    intros v Hv. apply group_In in Hv. destruct Hv as [k' [Hin E]].
    apply yp_eqb_eq in E. subst k'. now apply Hna.
  - intros l H. exact H.
  - intros l x. reflexivity.
Qed.

Lemma sum_duplicates_missing_witness :
  filter (fun r => yp_eqb (1980, "Alberta") (fst r))
         (sum_duplicates yp_eqb [((1980, "Alberta"), nan); ((1981, "Alberta"), 5%float);
                                 ((1980, "Alberta"), nan)]) =
  [((1980, "Alberta"), 0%float)].
Proof.
  apply sum_duplicates_missing_becomes_zero.
  - simpl. auto.
  - intros v [H|[H|[H|[]]]]; inversion H; reflexivity.
Defined.

Lemma add_zero_l v : isna v = false -> (0 + v =? v)%float = true.
Proof.
  rewrite isna_spec, eqb_spec, add_spec. change (Prim2SF 0) with (S754_zero false).
  unfold SF64add, SFadd, SFeqb.
  destruct (Prim2SF v) as [s|s| |s m e]; try discriminate; intros _.
  - now destruct s.
  - now destruct s.
  - now rewrite SFcompare_refl_finite.
Qed.

(** X19. A key with one row and a non-missing value keeps its value through
    the uniqueness step (as a number: the sum is 0 + v). *)
Theorem sum_duplicates_single_value (tbl : list (YP * float)) (k : YP) (v : float) :
  filter (fun r => yp_eqb k (fst r)) tbl = [(k, v)] ->
  isna v = false ->
  exists s, filter (fun r => yp_eqb k (fst r)) (sum_duplicates yp_eqb tbl) = [(k, s)] /\
            (s =? v)%float = true.
Proof.
  intros Hf Hv. unfold sum_duplicates.
  rewrite (filter_groupby_all yp_eqb (fun ks => ks) yp_eqb_eq).
  - assert (Hk : existsb (yp_eqb k) (map fst tbl) = true).
    { apply (existsb_eqb_In yp_eqb yp_eqb_eq).
      assert (Hin : In (k, v) (filter (fun r => yp_eqb k (fst r)) tbl))
        by (rewrite Hf; now left).
      apply filter_In in Hin. destruct Hin as [Hin _].
      exact (in_map fst _ _ Hin). }
    rewrite Hk. eexists. split; [reflexivity|].
    unfold group. rewrite Hf. unfold sum_skipna, dropna, notna. simpl.
    rewrite Hv. simpl. now apply add_zero_l.
  - intros l H. exact H.
  - intros l x. reflexivity.
Qed.

Lemma sum_duplicates_single_witness :
  exists s, filter (fun r => yp_eqb (1981, "Alberta") (fst r))
                   (sum_duplicates yp_eqb [((1980, "Alberta"), nan);
                                           ((1981, "Alberta"), 5%float)]) =
            [((1981, "Alberta"), s)] /\ (s =? 5)%float = true.
Proof.
  apply sum_duplicates_single_value; reflexivity.
Defined.

(** ** The left joins keep every anchor row *)

Section JoinKeeps.
Context {K K' A B : Type} (eqb : K' -> K' -> bool) (keyf : K -> K').

Lemma join_keys_In (R : list (K' * B)) (na : B) (L : list (K * A)) k :
  In k (map fst (join eqb keyf R na L)) <-> In k (map fst L).
Proof.
  unfold join. rewrite map_map. cbn [fst]. split.
  - intros H. apply in_map_iff in H. destruct H as [[a b] [<- H]].
    apply merge_left_fst in H. exact (in_map fst _ _ H).
  - intros H. apply in_map_iff in H. destruct H as [a [<- Ha]].
    destruct (filter (fun r => eqb (keyf (fst a)) (fst r)) R) as [|m ms] eqn:Ef.
    + apply in_map_iff. exists (a, na). split; [reflexivity|].
      apply merge_left_no_match; [exact Ha|]. intros r Hr.
      destruct (eqb (keyf (fst a)) (fst r)) eqn:E; [|reflexivity].
      assert (Hf : In r (filter (fun r => eqb (keyf (fst a)) (fst r)) R))
        by (apply filter_In; auto).
      rewrite Ef in Hf. contradiction.
    + assert (Hm : In m (filter (fun r => eqb (keyf (fst a)) (fst r)) R))
        by (rewrite Ef; now left).
      apply filter_In in Hm. destruct Hm as [Hm E].
      apply in_map_iff. exists (a, snd m). split; [reflexivity|].
      now apply (merge_left_match eqb (fun a => keyf (fst a)) L R na a m).
Qed.

Lemma join_length_ge (R : list (K' * B)) (na : B) (L : list (K * A)) :
  (List.length L <= List.length (join eqb keyf R na L))%nat.
Proof.
  unfold join, merge_left. rewrite length_map.
  induction L as [|a t IH]; [apply Nat.le_refl|]. cbn [flat_map]. rewrite length_app.
  revert IH. generalize (List.length (flat_map (fun a : K * A =>
    match filter (fun r : K' * B => eqb (keyf (fst a)) (fst r)) R with
    | [] => [(a, na)]
    | p :: l => map (fun r : K' * B => (a, snd r)) (p :: l)
    end) t)).
  intros n IH.
  destruct (filter (fun r => eqb (keyf (fst a)) (fst r)) R);
    cbn [List.length map]; lia.
Qed.
End JoinKeeps.

Lemma prov_finish_key x : (Prov.Year (Prov.finish x), Prov.Province (Prov.finish x)) = fst x.
Proof.
  destruct x as [[y p] [[[[[[[[[a b] c] d] e] f] g] h] i] j]]. reflexivity.
Qed.

(** X23. The keys of the province-level panel are the keys of the total GDP
    that lie in the domain: no join drops a key or brings one in, whether
    or not the joined tables are unique on their keys. *)
Theorem prov_df_keys gdp_total comp_total lfs_agg pop br wti coal chem wheat us_cad k :
  In k (map (fun r => (Prov.Year r, Prov.Province r))
            (Prov.prov_df gdp_total comp_total lfs_agg pop br wti coal chem wheat us_cad)) <->
  In k (map fst gdp_total) /\ in_domain (fst k) (snd k) = true.
Proof.
  unfold Prov.prov_df.
  assert (HJ : forall k, In k (map fst (Prov.joined gdp_total comp_total lfs_agg pop
                                          br wti coal chem wheat us_cad)) <->
                         In k (map fst gdp_total)).
  { intros k'. unfold Prov.joined. now rewrite !join_keys_In. }
  split.
  - intros H. apply in_map_iff in H. destruct H as [r [<- Hr]].
    apply filter_In in Hr. destruct Hr as [Hr Hd]. split; [|exact Hd].
    apply in_map_iff in Hr. destruct Hr as [x [<- Hx]]. cbv beta.
    rewrite prov_finish_key. apply HJ. exact (in_map fst _ _ Hx).
  - intros [Hk Hd]. apply HJ in Hk. apply in_map_iff in Hk. destruct Hk as [x [<- Hx]].
    apply in_map_iff. exists (Prov.finish x). split; [apply prov_finish_key|].
    apply filter_In. split; [exact (in_map Prov.finish _ _ Hx)|].
    assert (E1 : Prov.Year (Prov.finish x) = fst (fst x))
      by exact (f_equal fst (prov_finish_key x)).
    assert (E2 : Prov.Province (Prov.finish x) = snd (fst x))
      by exact (f_equal snd (prov_finish_key x)).
    rewrite E1, E2. exact Hd.
Qed.

(** X21. Whatever the joined tables, the joins of the sector-level panel drop
    no anchor row and bring in no key: the joined table has the key set of
    the anchor and at least as many rows. *)
Theorem sector_joins_keep_rows
    (gdp_sectors comp_sect : list (YPS * float))
    (gdp_total comp_total employment population : list (YP * float))
    (bank_rate wti coal chem wheat : list (Z * float)) (us_cad : list (Z * FxRow)) :
  let joined := Sect.joined gdp_sectors comp_sect gdp_total comp_total employment
                            population bank_rate wti coal chem wheat us_cad in
  (forall k, In k (map fst joined) <-> In k (map fst gdp_sectors)) /\
  (List.length gdp_sectors <= List.length joined)%nat.
Proof.
  intros joined. unfold joined, Sect.joined. split.
  - intros k. now rewrite !join_keys_In.
  - repeat (eapply Nat.le_trans; [|apply join_length_ge]). apply Nat.le_refl.
Qed.

(** ** The zero-employment guard *)

Lemma replace_zero_nan_zero x : (x =? 0)%float = true -> replace_zero_nan x = nan.
Proof. intros H. unfold replace_zero_nan. now rewrite H. Qed.

Lemma ltb_nan_r x y : isna y = true -> (x <? y)%float = false.
Proof.
  rewrite isna_spec, ltb_spec. unfold SFltb.
  destruct (Prim2SF y); try discriminate. intros _. now destruct (Prim2SF x).
Qed.

(** X24. A row of the province-level panel with an employment of exactly 0 has
    a missing compensation per worker, neither an error nor an infinity;
    the closing assertion [Wpw_All > 0] then fails and the run halts. *)
Theorem zero_employment_guard gdp_total comp_total lfs_agg pop br wti coal chem wheat us_cad r :
  let prov_df := Prov.prov_df gdp_total comp_total lfs_agg pop
                              br wti coal chem wheat us_cad in
  In r prov_df ->
  (Prov.Employment r =? 0)%float = true ->
  isna (Prov.Wpw_All r) = true /\
  snd (diagnostics prov_df) = Raise (AssertionError "").
Proof.
  intros prov_df Hr Hz.
  destruct (prov_df_derived _ _ _ _ _ _ _ _ _ _ r Hr) as (_ & Hw & _).
  assert (Hna : isna (Prov.Wpw_All r) = true).
  { rewrite Hw, (replace_zero_nan_zero _ Hz). apply div_nan_r. reflexivity. }
  split; [exact Hna|].
  cbn [snd diagnostics]. unfold closing_asserts, assert, bind.
  destruct (forallb (fun r => notna (Prov.GDP_pc_real_1986 r)) prov_df); [|reflexivity].
  destruct (forallb (fun r => (0 <? Prov.Wpw_All r)%float) prov_df) eqn:E; [|reflexivity].
  rewrite forallb_forall in E. specialize (E r Hr).
  rewrite (ltb_nan_r _ _ Hna) in E. discriminate.
Qed.

Lemma zero_employment_guard_witness :
  let prov_df := Prov.prov_df [((1980, "Alberta"), 100%float)] [((1980, "Alberta"), 60%float)]
                              [((1980, "Alberta"), 0%float)] sample_population
                              [] [] [] [] [] [] in
  let r := Prov.mk 1980 "Alberta" 100 60 0 2000000 nan nan nan nan nan nan nan nan
                   (100 / 2000000) nan (60 / 100) in
  isna (Prov.Wpw_All r) = true /\
  snd (diagnostics prov_df) = Raise (AssertionError "").
Proof.
  intros prov_df r.
  assert (Hr : In r prov_df) by (vm_compute; left; reflexivity).
  exact (zero_employment_guard _ _ _ _ _ _ _ _ _ _ r Hr eq_refl).
Defined.

(** ** Total GDP: the two vintages *)

Lemma deflate_rows_keys merged : map fst (deflate_rows merged) = map (fun m => fst (fst m)) merged.
Proof. unfold deflate_rows. rewrite map_map. reflexivity. Qed.

Lemma deflated_years mask y0 y1 df cpi r :
  In r (deflate_rows (merge_left yp_eqb fst (select_years mask y0 y1 df) cpi nan)) ->
  y0 <= fst (fst r) <= y1.
Proof.
  unfold deflate_rows. intros H. apply in_map_iff in H. destruct H as [m [<- Hm]].
  apply merge_left_fst in Hm. destruct (fst m) as [key nominal] eqn:E.
  apply select_years_In in Hm. destruct Hm as [o H]. cbn [fst]. tauto.
Qed.

Section DropDuplicates.
Context {V : Type}.

Lemma drop_duplicates_from_In seen (l : list (YP * V)) r :
  In r (drop_duplicates_from yp_eqb seen l) -> In r l /\ ~ In (fst r) seen.
Proof.
  revert seen. induction l as [|x t IH]; intros seen; simpl; [tauto|].
  destruct (existsb (yp_eqb (fst x)) seen) eqn:E.
  - intros H. apply IH in H. tauto.
  - intros [->|H].
    + split; [now left|]. intros Hs.
      apply (existsb_eqb_In yp_eqb yp_eqb_eq) in Hs. congruence.
    + apply IH in H. destruct H as [H Hn]. split; [now right|].
      intros Hs. apply Hn. now right.
Qed.

Lemma drop_duplicates_from_NoDup seen (l : list (YP * V)) :
  NoDup (map fst (drop_duplicates_from yp_eqb seen l)).
Proof.
  revert seen. induction l as [|x t IH]; intros seen; simpl; [constructor|].
  destruct (existsb (yp_eqb (fst x)) seen); [apply IH|].
  simpl. constructor; [|apply IH].
  intros H. apply in_map_iff in H. destruct H as [r [E Hr]].
  apply drop_duplicates_from_In in Hr. destruct Hr as [_ Hn]. apply Hn. left. now symmetry.
Qed.
End DropDuplicates.

(** X6. When both vintages have their concept column, the total GDP is the
    rows of table A, of years 1975-1980, followed by the rows of table B,
    of years 1981-1995 and unique on (Year, Province): no key comes from
    both tables. *)
Theorem total_gdp_vintages df80 df90 cpi t :
  gdp_total df80 df90 cpi = Ok t ->
  exists t1 t2,
    build_total_gdp_75_80 df80 cpi = Ok t1 /\ build_total_gdp_81_95 df90 cpi = Ok t2 /\
    t = t1 ++ t2 /\
    (forall r, In r t1 -> 1975 <= fst (fst r) <= 1980) /\
    (forall r, In r t2 -> 1981 <= fst (fst r) <= 1995) /\
    NoDup (map fst t2) /\
    (forall r1 r2, In r1 t1 -> In r2 t2 -> fst r1 <> fst r2).
Proof.
  unfold gdp_total, bind. intros H.
  destruct (build_total_gdp_75_80 df80 cpi) as [t1|] eqn:E1; [|discriminate].
  destruct (build_total_gdp_81_95 df90 cpi) as [t2|] eqn:E2; [|discriminate].
  inversion H; subst t. exists t1, t2.
  assert (H1 : forall r, In r t1 -> 1975 <= fst (fst r) <= 1980).
  { unfold build_total_gdp_75_80 in E1.
    destruct (_find_col df80 _) as [c|]; [|discriminate]. inversion E1; subst t1.
    intros r Hr. now apply deflated_years in Hr. }
  assert (H2 : (forall r, In r t2 -> 1981 <= fst (fst r) <= 1995) /\ NoDup (map fst t2)).
  { unfold build_total_gdp_81_95 in E2.
    destruct (_find_col df90 ["income-based estimates"; "estimates"]) as [c|]; [|discriminate].
    inversion E2; subst t2. split; [|apply drop_duplicates_from_NoDup].
    intros r Hr. apply drop_duplicates_from_In in Hr. destruct Hr as [Hr _].
    unfold sort_values_yp in Hr. apply sort_by_In in Hr.
    destruct (_find_col df90 ["prices"]) as [pc|].
    - apply in_app_or in Hr. destruct Hr as [Hr|Hr].
      + unfold part_real in Hr. destruct r as [k v]. apply select_years_In in Hr.
        destruct Hr as [o Ho]. cbn [fst]. tauto.
      + unfold part_curr in Hr. now apply deflated_years in Hr.
    - now apply deflated_years in Hr. }
  destruct H2 as [H2 Hnd]. repeat split; auto.
  - now apply H1.
  - now apply H1.
  - now apply H2.
  - now apply H2.
  - intros r1 r2 Hr1 Hr2 E. apply H1 in Hr1. apply H2 in Hr2. rewrite E in Hr1. lia.
Qed.

Lemma total_gdp_vintages_witness :
  exists t1 t2,
    build_total_gdp_75_80 sample_totgdp80 sample_cpi_ontario = Ok t1 /\
    build_total_gdp_81_95 sample_totgdp90 sample_cpi_ontario = Ok t2 /\
    [((1976, "Ontario"), nan); ((1985, "Ontario"), 250%float);
     ((1986, "Ontario"), 165%float)] = t1 ++ t2 /\
    (forall r, In r t1 -> 1975 <= fst (fst r) <= 1980) /\
    (forall r, In r t2 -> 1981 <= fst (fst r) <= 1995) /\
    NoDup (map fst t2) /\
    (forall r1 r2, In r1 t1 -> In r2 t2 -> fst r1 <> fst r2).
Proof.
  apply (total_gdp_vintages sample_totgdp80 sample_totgdp90 sample_cpi_ontario).
  vm_compute. reflexivity.
Defined.

(** X5. The total GDP raises, with a ValueError, exactly when one of the two
    tables has no column whose name contains "estimates" in any case. *)
Theorem gdp_total_raises_iff df80 df90 cpi :
  (exists e, gdp_total df80 df90 cpi = Raise e) <->
  _find_col df80 ["income-based estimates"; "estimates"] = None \/
  _find_col df90 ["income-based estimates"; "estimates"] = None.
Proof.
  unfold gdp_total, bind, build_total_gdp_75_80, build_total_gdp_81_95.
  destruct (_find_col df80 ["income-based estimates"; "estimates"]) as [c|].
  - destruct (_find_col df90 ["income-based estimates"; "estimates"]) as [c'|].
    + split; [intros [e H]; discriminate | intros [H|H]; discriminate].
    + split; [auto | intros _; eexists; reflexivity].
  - split; [auto | intros _; eexists; reflexivity].
Qed.

Lemma find_app_none {A : Type} (f : A -> bool) (l1 l2 : list A) :
  find f l1 = None -> find f (l1 ++ l2) = find f l2.
Proof.
  induction l1 as [|x t IH]; [reflexivity|]. simpl. destruct (f x); [discriminate | exact IH].
Qed.

(** X7. When the price column exists and the real-basis partition has no row
    for a key, the output of [build_total_gdp_81_95] has for that key the
    first deflated current-dollar row, and no row when there is none. *)
Theorem deflated_current_kept_without_real df90 cpi concept_col price_col k :
  _find_col df90 ["income-based estimates"; "estimates"] = Some concept_col ->
  _find_col df90 ["prices"] = Some price_col ->
  find (fun x => yp_eqb k (fst x)) (part_real concept_col price_col df90) = None ->
  exists out, build_total_gdp_81_95 df90 cpi = Ok out /\
              filter (fun x => yp_eqb k (fst x)) out =
              match find (fun x => yp_eqb k (fst x)) (part_curr concept_col price_col df90 cpi) with
              | Some r => [r]
              | None => []
              end.
Proof.
  intros Hc Hp Hr. unfold build_total_gdp_81_95. rewrite Hc, Hp.
  eexists. split; [reflexivity|].
  rewrite filter_drop_duplicates. rewrite find_filter_head.
  unfold sort_values_yp. rewrite filter_sort_by, <- find_filter_head.
  now rewrite (find_app_none _ _ _ Hr).
Qed.

Lemma deflated_current_kept_witness :
  exists out, build_total_gdp_81_95 sample_totgdp90 sample_cpi_ontario = Ok out /\
              filter (fun x => yp_eqb (1986, "Ontario") (fst x)) out =
              [((1986, "Ontario"), 165%float)].
Proof.
  apply (deflated_current_kept_without_real sample_totgdp90 sample_cpi_ontario
           "Estimates" "Prices" (1986, "Ontario")); vm_compute; reflexivity.
Defined.

(** ** The CPI table has one row per key *)

Lemma groupby_keys {K V W : Type} (eqb : K -> K -> bool) (order : list K -> list K)
    (agg : list V -> W) (tbl : list (K * V)) :
  map fst (groupby eqb order agg tbl) = order (unique eqb (map fst tbl)).
Proof. unfold groupby. rewrite map_map. apply map_id. Qed.

Lemma groupby_sorted_NoDup {K V W : Type} (eqb : K -> K -> bool)
    (eqb_eq : forall a b, eqb a b = true <-> a = b) (leb : K -> K -> bool)
    (agg : list V -> W) (tbl : list (K * V)) :
  NoDup (map fst (groupby eqb (sort_by leb) agg tbl)).
Proof. rewrite groupby_keys. apply sort_by_NoDup, (unique_NoDup eqb eqb_eq). Qed.

Lemma cpi_canada_avg'_NoDup cpi : NoDup (map fst (cpi_canada_avg' cpi)).
Proof.
  unfold cpi_canada_avg'. rewrite map_app.
  assert (Hnd : NoDup (map fst (cpi_canada_avg cpi)))
    by apply (groupby_sorted_NoDup Z.eqb Z.eqb_eq).
  apply NoDup_app.
  - unfold cpi_1974, cpi_1975. rewrite map_map. cbn [fst].
    destruct (filter_key_unique Z.eqb Z.eqb_eq (cpi_canada_avg cpi) 1975 Hnd) as [E|[m E]].
    + replace (filter (fun r => fst r =? 1975) (cpi_canada_avg cpi)) with (@nil (Z * float)).
      * constructor.
      * rewrite <- E. apply filter_ext. intros r. apply Z.eqb_sym.
    + replace (filter (fun r => fst r =? 1975) (cpi_canada_avg cpi)) with [m].
      * simpl. constructor; [intros []|constructor].
      * rewrite <- E. apply filter_ext. intros r. apply Z.eqb_sym.
  - exact Hnd.
  - intros y H1 H2. unfold cpi_1974 in H1. rewrite map_map in H1. cbn [fst] in H1.
    apply in_map_iff in H1. destruct H1 as [x [<- _]].
    apply in_map_iff in H2. destruct H2 as [r [E Hr]].
    apply cpi_canada_avg_years in Hr. lia.
Qed.

Lemma spread_NoDup (L : list (Z * float)) (provs : list string) :
  NoDup (map fst L) -> NoDup provs ->
  NoDup (map fst (flat_map (fun prov => map (fun r : Z * float => ((fst r, prov), snd r)) L)
                           provs)).
Proof.
  intros HL. induction provs as [|p t IH]; intros Hp; [constructor|].
  inversion Hp as [|? ? Hn Ht]; subst. cbn [flat_map]. rewrite map_app. apply NoDup_app.
  - rewrite map_map. cbn [fst].
    rewrite <- (map_map fst (fun y : Z => (y, p))).
    apply Injective_map_NoDup; [|exact HL]. intros a b E. now inversion E.
  - now apply IH.
  - intros k H1 H2. rewrite map_map in H1. cbn [fst] in H1.
    apply in_map_iff in H1. destruct H1 as [r [<- _]].
    apply in_map_iff in H2. destruct H2 as [x [E Hx]].
    apply in_flat_map in Hx. destruct Hx as [q [Hq Hx]].
    apply in_map_iff in Hx. destruct Hx as [r' [<- _]]. cbn [fst] in E.
    inversion E; subst q. contradiction.
Qed.

Lemma cpi_final_NoDup cpi : NoDup (map fst (cpi_final cpi)).
Proof.
  unfold cpi_final. rewrite map_app. apply NoDup_app.
  - apply (groupby_sorted_NoDup yp_eqb yp_eqb_eq).
  - apply spread_NoDup; [apply cpi_canada_avg'_NoDup | apply included_geo_NoDup].
  - intros k H1 H2. apply in_map_iff in H1. destruct H1 as [r1 [<- Hr1]].
    apply cpi_prov_years in Hr1.
    apply in_map_iff in H2. destruct H2 as [r2 [E Hr2]].
    unfold cpi_backfilled in Hr2. apply in_flat_map in Hr2.
    destruct Hr2 as [q [_ Hr2]]. apply in_map_iff in Hr2. destruct Hr2 as [x [<- Hx]].
    apply cpi_canada_avg'_years in Hx. cbn [fst] in E. rewrite <- E in Hr1.
    cbn [fst] in Hr1. lia.
Qed.

(** X9. The final CPI table has no duplicate (Year, Province) key, so the
    merge that precedes a deflation duplicates no row: the deflated sector
    block has the keys of the nominal block, row for row. *)
Theorem cpi_final_unique_keys cpi :
  NoDup (map fst (cpi_final cpi)) /\
  forall gdp80 k,
    map fst (sector_pre gdp80 (cpi_final cpi) k) =
    map fst (extract_nominal_block gdp80 (SECTORS k) 1975 1983).
Proof.
  split; [apply cpi_final_NoDup|]. intros gdp80 k.
  unfold sector_pre, sector_pre_merged. rewrite deflate_rows_keys.
  rewrite <- (map_map fst fst).
  now rewrite (merge_left_keys yp_eqb yp_eqb_eq _ _ _ _ (cpi_final_NoDup cpi)).
Qed.

(** X10. For an included province the rows of 1974 in the final CPI table
    carry the national average of 1975: one row when the input has a
    national all-items observation of 1975, none otherwise. *)
Theorem cpi_final_1974 cpi p :
  In p included_geo ->
  filter (fun r => yp_eqb (1974, p) (fst r)) (cpi_final cpi) =
  if existsb (Z.eqb 1975) (map fst (cpi_canada_obs cpi))
  then [((1974, p), mean_skipna (group Z.eqb 1975 (cpi_canada_obs cpi)))]
  else [].
Proof.
  intros Hp. apply isin_In in Hp. unfold cpi_final. rewrite filter_app.
  rewrite (filter_none _ (cpi_prov cpi)).
  2:{ intros r Hr. apply cpi_prov_years in Hr.
      destruct (yp_eqb (1974, p) (fst r)) eqn:E; [|reflexivity].
      apply yp_eqb_eq in E. rewrite <- E in Hr. simpl in Hr. lia. }
  cbn [app]. unfold cpi_backfilled.
  rewrite (filter_spread _ _ 1974 p included_geo_NoDup), Hp.
  unfold cpi_canada_avg'. rewrite filter_app.
  rewrite (filter_none _ (cpi_canada_avg cpi)).
  2:{ intros r Hr. apply cpi_canada_avg_years in Hr. apply Z.eqb_neq. lia. }
  rewrite app_nil_r. unfold cpi_1974.
  rewrite (filter_all _ (map _ (cpi_1975 cpi))).
  2:{ intros r Hr. apply in_map_iff in Hr. destruct Hr as [x [<- _]]. reflexivity. }
  rewrite map_map. cbn [fst snd]. unfold cpi_1975.
  replace (filter (fun r => fst r =? 1975) (cpi_canada_avg cpi))
    with (filter (fun r => 1975 =? fst r) (cpi_canada_avg cpi))
    by (apply filter_ext; intros r; apply Z.eqb_sym).
  unfold cpi_canada_avg. rewrite (filter_groupby_all Z.eqb sort_years Z.eqb_eq).
  - now destruct (existsb (Z.eqb 1975) (map fst (cpi_canada_obs cpi))).
  - intros l. apply sort_by_NoDup.
  - intros l x. apply sort_by_In.
Qed.

Lemma cpi_final_1974_witness :
  filter (fun r => yp_eqb (1974, "Quebec") (fst r)) (cpi_final sample_cpi_raw) =
  [((1974, "Quebec"), 31%float)].
Proof.
  assert (Hp : In "Quebec" included_geo) by (simpl; tauto).
  exact (cpi_final_1974 sample_cpi_raw "Quebec" Hp).
Defined.

(** ** The 1976 to 1975 backfill *)

Lemma existsb_year_In (y : Z) (tbl : list (YP * float)) :
  existsb (Z.eqb y) (map (fun r => fst (fst r)) tbl) = true <->
  In y (map (fun r => fst (fst r)) tbl).
Proof. apply (existsb_eqb_In Z.eqb Z.eqb_eq). Qed.

Lemma filter_keys_NoDup {K V : Type} (f : K * V -> bool) (tbl : list (K * V)) :
  NoDup (map fst tbl) -> NoDup (map fst (filter f tbl)).
Proof.
  induction tbl as [|x t IH]; intros Hnd; [constructor|].
  inversion Hnd as [|? ? Hx Ht]; subst. simpl.
  destruct (f x); [|now apply IH].
  simpl. constructor; [|now apply IH].
  intros H. apply Hx. apply in_map_iff in H. destruct H as [r [E Hr]].
  apply filter_In in Hr. apply in_map_iff. exists r. tauto.
Qed.

Lemma backfill_1975_NoDup (tbl : list (YP * float)) :
  NoDup (map fst tbl) -> NoDup (map fst (backfill_1975 tbl)).
Proof.
  intros Hnd. unfold backfill_1975.
  set (years := map (fun r => fst (fst r)) tbl).
  destruct (existsb (Z.eqb 1976) years) eqn:E76; destruct (existsb (Z.eqb 1975) years) eqn:E75;
    cbn [andb negb]; try exact Hnd.
  pose proof (existsb_year_In 1975 tbl) as H75. fold years in H75. rewrite E75 in H75.
  rewrite map_app. apply NoDup_app; [exact Hnd | |].
  - rewrite map_map. cbn [fst].
    pose proof (filter_keys_NoDup (fun r : YP * float => fst (fst r) =? 1976) tbl Hnd) as Hf.
    assert (Hy : forall r, In r (filter (fun r : YP * float => fst (fst r) =? 1976) tbl) ->
                           fst (fst r) = 1976).
    { intros r Hr. apply filter_In in Hr. now apply Z.eqb_eq. }
    revert Hf Hy. generalize (filter (fun r : YP * float => fst (fst r) =? 1976) tbl).
    intros l. induction l as [|x t IH]; intros Hf Hy; [constructor|].
    inversion Hf as [|? ? Hx Ht]; subst. simpl. constructor.
    + intros H. apply Hx. apply in_map_iff in H. destruct H as [r [E Hr]].
      apply in_map_iff. exists r. split; [|exact Hr].
      pose proof (Hy x (or_introl eq_refl)) as Yx.
      pose proof (Hy r (or_intror Hr)) as Yr.
      destruct r as [[yr pr] vr], x as [[yx px] vx].
      cbn [fst snd] in *. inversion E. subst. reflexivity.
    + apply IH; [exact Ht|]. intros r Hr. apply Hy. now right.
  - intros k H1 H2. rewrite map_map in H2. cbn [fst] in H2.
    apply in_map_iff in H2. destruct H2 as [r [<- _]].
    assert (Hin : In 1975 years).
    { unfold years. apply in_map_iff in H1. destruct H1 as [x [E Hx]].
      apply in_map_iff. exists x. rewrite E. auto. }
    apply H75 in Hin. discriminate.
Qed.

(** X15. The backfill leaves the table as it is when it has a row of 1975 or
    none of 1976; otherwise it appends a copy of every 1976 row under the
    year 1975.  It never changes or drops a row, and a table unique on
    (Year, Province) stays unique. *)
Theorem backfill_1975_spec (tbl : list (YP * float)) :
  let years := map (fun r => fst (fst r)) tbl in
  (In 1975 years \/ ~ In 1976 years -> backfill_1975 tbl = tbl) /\
  (~ In 1975 years -> In 1976 years ->
   backfill_1975 tbl =
   tbl ++ map (fun r => ((1975, snd (fst r)), snd r))
              (filter (fun r => fst (fst r) =? 1976) tbl)) /\
  (forall r, In r tbl -> In r (backfill_1975 tbl)) /\
  (NoDup (map fst tbl) -> NoDup (map fst (backfill_1975 tbl))).
Proof.
  intros years. unfold backfill_1975. fold years.
  destruct (existsb (Z.eqb 1976) years) eqn:E76; destruct (existsb (Z.eqb 1975) years) eqn:E75;
    cbn [andb negb];
    pose proof (existsb_year_In 1976 tbl) as H76; pose proof (existsb_year_In 1975 tbl) as H75;
    fold years in H76, H75; rewrite E76 in H76; rewrite E75 in H75.
  - split; [reflexivity|]. split; [|split; [intros r Hr; exact Hr | intros Hnd; exact Hnd]].
    intros Hn H. exfalso. apply Hn. now apply H75.
  - split; [|split; [|split]].
    + intros [H|H]; [apply H75 in H; discriminate | exfalso; apply H; now apply H76].
    + reflexivity.
    + intros r Hr. apply in_or_app. now left.
    + intros Hnd. pose proof (backfill_1975_NoDup tbl Hnd) as H.
      unfold backfill_1975 in H. fold years in H. rewrite E76, E75 in H. exact H.
  - split; [reflexivity|]. split; [|split; [intros r Hr; exact Hr | intros Hnd; exact Hnd]].
    intros Hn H. exfalso. apply Hn. now apply H75.
  - split; [reflexivity|]. split; [|split; [intros r Hr; exact Hr | intros Hnd; exact Hnd]].
    intros Hn H. apply H76 in H. discriminate.
Qed.

(** ** Employment and the annual series *)

Lemma lfs_agg_NoDup (lfs : Frame Z) t : lfs_agg lfs = Ok t -> NoDup (map fst t).
Proof.
  unfold lfs_agg, lfs_employment, first_tag_is_thousands, bind.
  destruct (lfs_filtered lfs) as [|first rest]; [discriminate|].
  destruct (match SCALAR_FACTOR first with
            | Some s => String.eqb (lower s) "thousands"
            | None => false
            end);
    intros H; inversion H; subst t;
    apply backfill_1975_NoDup, (groupby_sorted_NoDup yp_eqb yp_eqb_eq).
Qed.

Lemma annual_mean_NoDup (obs : list (Z * float)) : NoDup (map fst (annual_mean obs)).
Proof. apply (groupby_sorted_NoDup Z.eqb Z.eqb_eq). Qed.


Lemma insert_by_sorted (x : Z) (l : list Z) :
  Sorted Z.le l -> Sorted Z.le (insert_by Z.leb x l).
Proof.
  induction l as [|y t IH]; intros Hs; simpl.
  - constructor; constructor.
  - destruct (x <=? y) eqn:E.
    + apply Z.leb_le in E. constructor; [exact Hs | now constructor].
    + apply Z.leb_gt in E. inversion Hs as [|? ? Ht Hd]; subst.
      constructor; [now apply IH|].
      destruct t as [|z t']; simpl.
      * constructor. lia.
      * inversion Hd; subst. destruct (x <=? z); constructor; lia.
Qed.

(** X17. An annual series has one row per year, in increasing order of the
    years. *)
Theorem annual_mean_sorted_unique (obs : list (Z * float)) :
  NoDup (map fst (annual_mean obs)) /\
  Sorted Z.le (map fst (annual_mean obs)) /\
  (forall y, In y (map fst (annual_mean obs)) <-> In y (map fst obs)).
Proof.
  split; [apply annual_mean_NoDup|]. unfold annual_mean.
  rewrite groupby_keys. split.
  - unfold sort_years. induction (unique Z.eqb (map fst obs)) as [|x t IH]; simpl.
    + constructor.
    + now apply insert_by_sorted.
  - intros y. unfold sort_years. rewrite sort_by_In. apply (unique_In Z.eqb Z.eqb_eq).
Qed.
(** ** The exchange-rate table *)

Lemma insert_by_fst (x : Z * float) (l : list (Z * float)) :
  map fst (insert_by (fun a b => fst a <=? fst b) x l) =
  insert_by Z.leb (fst x) (map fst l).
Proof.
  induction l as [|y t IH]; [reflexivity|]. simpl.
  destruct (fst x <=? fst y); [reflexivity|]. simpl. now rewrite IH.
Qed.

Lemma sort_by_fst (l : list (Z * float)) :
  map fst (sort_by (fun a b => fst a <=? fst b) l) = sort_by Z.leb (map fst l).
Proof.
  induction l as [|x t IH]; [reflexivity|]. simpl. now rewrite insert_by_fst, IH.
Qed.

Lemma sort_by_sorted (l : list Z) : Sorted Z.le (sort_by Z.leb l).
Proof.
  induction l as [|x t IH]; simpl; [constructor|]. now apply insert_by_sorted.
Qed.

Lemma with_logs_cons log prev y v (t : list (Z * float)) :
  with_logs log prev ((y, v) :: t) =
  (y, mkFxRow v (log v) match prev with
                        | Some p => (log v - p)%float
                        | None => nan
                        end) :: with_logs log (Some (log v)) t.
Proof. reflexivity. Qed.

Lemma with_logs_keys log prev (l : list (Z * float)) :
  map fst (with_logs log prev l) = map fst l.
Proof.
  revert prev. induction l as [|[y v] t IH]; intros prev; [reflexivity|].
  rewrite with_logs_cons. simpl. now rewrite IH.
Qed.

Lemma with_logs_In log prev (l : list (Z * float)) y r :
  In (y, r) (with_logs log prev l) ->
  fx_log_USDCAD r = log (fx_USDCAD r) /\ In (y, fx_USDCAD r) l.
Proof.
  revert prev. induction l as [|[y0 v] t IH]; intros prev H; [contradiction|].
  rewrite with_logs_cons in H. destruct H as [H|H].
  - inversion H; subst. simpl. split; [reflexivity | now left].
  - destruct (IH _ H) as [E Hin]. split; [exact E | now right].
Qed.

Lemma with_logs_diff log prev (l : list (Z * float)) i a b :
  nth_error (with_logs log prev l) i = Some a ->
  nth_error (with_logs log prev l) (S i) = Some b ->
  fx_dlog_USDCAD (snd b) = (fx_log_USDCAD (snd b) - fx_log_USDCAD (snd a))%float.
Proof.
  revert prev i. induction l as [|[y v] t IH]; intros prev i Ha Hb.
  - destruct i; discriminate.
  - rewrite with_logs_cons in Ha, Hb. destruct i as [|i].
    + simpl in Ha. inversion Ha; subst a. simpl in Hb.
      destruct t as [|[y' v'] t']; [discriminate|].
      rewrite with_logs_cons in Hb. simpl in Hb. inversion Hb; subst b. reflexivity.
    + simpl in Ha. change (nth_error (with_logs log (Some (log v)) t) (S i) = Some b) in Hb.
      exact (IH _ _ Ha Hb).
Qed.

Lemma us_cad_annual_keys (fx_raw : list (Z * float)) :
  NoDup (map fst (us_cad_annual fx_raw)) /\
  Sorted Z.le (map fst (us_cad_annual fx_raw)) /\
  (forall y, In y (map fst (us_cad_annual fx_raw)) <->
             In y (map fst fx_raw) /\ 1975 <= y <= 1995).
Proof.
  unfold us_cad_annual. rewrite sort_by_fst. split; [|split].
  - apply sort_by_NoDup. apply filter_keys_NoDup. apply annual_mean_NoDup.
  - apply sort_by_sorted.
  - intros y. rewrite sort_by_In. split.
    + intros H. apply in_map_iff in H. destruct H as [[y' v] [E H]]. simpl in E. subst y'.
      apply filter_In in H. destruct H as [H Hb]. simpl in Hb.
      apply andb_true_iff in Hb. rewrite !Z.leb_le in Hb. split; [|lia].
      assert (Hy : In y (map fst (annual_mean fx_raw))) by exact (in_map fst _ _ H).
      unfold annual_mean in Hy. rewrite groupby_keys in Hy.
      unfold sort_years in Hy. rewrite sort_by_In in Hy.
      exact (proj1 (unique_In Z.eqb Z.eqb_eq _ _) Hy).
    + intros [H Hy].
      assert (Hk : In y (map fst (annual_mean fx_raw))).
      { unfold annual_mean. rewrite groupby_keys. unfold sort_years. rewrite sort_by_In.
        exact (proj2 (unique_In Z.eqb Z.eqb_eq _ _) H). }
      apply in_map_iff in Hk. destruct Hk as [[y' v] [E Hk]]. simpl in E. subst y'.
      apply in_map_iff. exists (y, v). split; [reflexivity|].
      apply filter_In. split; [exact Hk|]. simpl.
      apply andb_true_iff. rewrite !Z.leb_le. lia.
Qed.

Lemma us_cad_NoDup log (fx_raw : list (Z * float)) : NoDup (map fst (us_cad log fx_raw)).
Proof. unfold us_cad. rewrite with_logs_keys. apply us_cad_annual_keys. Qed.

(** X25. For any logarithm function: the exchange-rate table has one row for
    every year of 1975-1995 that has an observation and no other row, in
    increasing order of the years; the rate of a row is the annual mean,
    its logarithm column is the logarithm of that rate; the difference
    column is missing on the first row and is, on every other row, the
    logarithm of the row minus that of the row before it, whatever the
    distance between the two years. *)
Theorem us_cad_spec (log : float -> float) (fx_raw : list (Z * float)) :
  let t := us_cad log fx_raw in
  NoDup (map fst t) /\ Sorted Z.le (map fst t) /\
  (forall y, In y (map fst t) <-> In y (map fst fx_raw) /\ 1975 <= y <= 1995) /\
  (forall y r, In (y, r) t ->
     fx_log_USDCAD r = log (fx_USDCAD r) /\ In (y, fx_USDCAD r) (annual_mean fx_raw)) /\
  (forall a, hd_error t = Some a -> isna (fx_dlog_USDCAD (snd a)) = true) /\
  (forall i a b, nth_error t i = Some a -> nth_error t (S i) = Some b ->
     fx_dlog_USDCAD (snd b) = (fx_log_USDCAD (snd b) - fx_log_USDCAD (snd a))%float).
Proof.
  intros t. unfold t, us_cad.
  destruct (us_cad_annual_keys fx_raw) as (Hnd & Hs & Hk).
  rewrite with_logs_keys.
  split; [exact Hnd|]. split; [exact Hs|]. split; [exact Hk|]. split; [|split].
  - intros y r H. destruct (with_logs_In _ _ _ _ _ H) as [E Hin].
    split; [exact E|]. unfold us_cad_annual in Hin.
    apply (proj1 (sort_by_In _ _ _)) in Hin. apply filter_In in Hin. tauto.
  - intros a H. destruct (us_cad_annual fx_raw) as [|[y v] l]; [discriminate|].
    rewrite with_logs_cons in H. simpl in H. inversion H; subst a. reflexivity.
  - intros i a b. apply with_logs_diff.
Qed.

(** The table of the sample has no row for 1982, and the difference of
    its 1983 row is taken from the 1981 row. *)
Example us_cad_sample :
  map (fun r => (fst r, fx_USDCAD (snd r))) (us_cad (fun x => x) sample_fx_raw) =
  [(1980, 1.25%float); (1981, 1.25%float); (1983, 1.25%float)].
Proof. vm_compute. reflexivity. Qed.

(** ** Compensation after the allocation *)

Lemma weights_NoDup gs : NoDup (map fst (weights gs)).
Proof.
  unfold weights. rewrite map_map. cbn [fst]. rewrite map_id.
  apply (unique_NoDup yp_eqb yp_eqb_eq).
Qed.

(** X12. The allocation has one row per AG_FISH row, with its key and its
    amount, in the same order: every AG_FISH row gives exactly one AGRIC
    row and one FISH row. *)
Theorem alloc_rows (agfish : list (YP * float)) (gs : list (YPS * float)) :
  let al := alloc agfish (weights gs) in
  map (fun r => (alloc_key r, Comp_AF_Real r)) al = agfish /\
  map fst (comp_ag al) = map (fun r => (fst r, "AGRIC")) agfish /\
  map fst (comp_fi al) = map (fun r => (fst r, "FISH")) agfish.
Proof.
  intros al.
  assert (H : map (fun r => (alloc_key r, Comp_AF_Real r)) al = agfish).
  { unfold al, alloc. rewrite map_map. cbn [alloc_key Comp_AF_Real].
    rewrite <- (merge_left_keys yp_eqb yp_eqb_eq fst agfish (weights gs) (nan, nan)
                  (weights_NoDup gs)) at 2.
    apply map_ext. intros [[k c] w]. reflexivity. }
  split; [exact H|]. split.
  - rewrite <- H. unfold comp_ag. rewrite !map_map. reflexivity.
  - rewrite <- H. unfold comp_fi. rewrite !map_map. reflexivity.
Qed.

(** X13. Neither the aggregated label AG_FISH nor TOTAL survives in the sector
    compensation: its labels are the six sector labels of the sector GDP. *)
Theorem sector_labels (ca : list CompRow) (gs : list (YPS * float))
    (gdp80 gdp90 : Frame (option Z)) (cpi : list (YP * float)) :
  let six := ["OIL_GAS"; "REFINING"; "AGRIC"; "FISH"; "MANUFACT"; "EDU"] in
  (forall r, In r (comp_sect ca gs) -> isin (snd (fst r)) six = true) /\
  (forall r, In r (gdp_sectors gdp80 gdp90 cpi) -> isin (snd (fst r)) six = true).
Proof.
  intros six. split.
  - intros r Hr. unfold comp_sect in Hr. apply in_app_or in Hr. destruct Hr as [Hr|Hr].
    + unfold comp_match in Hr. apply in_map_iff in Hr. destruct Hr as [c [<- Hc]].
      apply filter_In in Hc. destruct Hc as [_ Hc]. cbn [fst].
      unfold comp_sector in Hc. apply isin_In in Hc. apply isin_In.
      simpl in Hc. simpl. tauto.
    + apply in_app_or in Hr. destruct Hr as [Hr|Hr].
      * unfold comp_ag in Hr. apply in_map_iff in Hr. destruct Hr as [a [<- _]]. reflexivity.
      * unfold comp_fi in Hr. apply in_map_iff in Hr. destruct Hr as [a [<- _]]. reflexivity.
  - intros r Hr. unfold gdp_sectors in Hr.
    assert (Hb : forall k label, In r (build_sector gdp80 gdp90 cpi k label) ->
                                 snd (fst r) = label).
    { intros k label H. unfold build_sector in H. apply in_map_iff in H.
      destruct H as [x [<- _]]. reflexivity. }
    repeat (apply in_app_or in Hr; destruct Hr as [Hr|Hr];
            [apply Hb in Hr; rewrite Hr; reflexivity|]).
    apply Hb in Hr. rewrite Hr. reflexivity.
Qed.


(** ** The sector panel with the tables of the script *)

Lemma panel_keys_when_unique
    (A comp_sect : list (YPS * float)) (gdp_total comp_total lfs_agg pop : list (YP * float))
    (br wti coal chem wheat : list (Z * float)) (us_cad : list (Z * FxRow)) :
  (forall k, In k (map fst A) -> in_domain (fst (fst k)) (snd (fst k)) = true) ->
  NoDup (map fst comp_sect) -> NoDup (map fst gdp_total) -> NoDup (map fst comp_total) ->
  NoDup (map fst lfs_agg) -> NoDup (map fst pop) ->
  NoDup (map fst br) -> NoDup (map fst wti) -> NoDup (map fst coal) ->
  NoDup (map fst chem) -> NoDup (map fst wheat) -> NoDup (map fst us_cad) ->
  map (fun r => (Sect.Year r, Sect.Province r, Sect.Sector r))
      (Sect.panel_df A comp_sect gdp_total comp_total lfs_agg pop
                     br wti coal chem wheat us_cad) = map fst A.
Proof.
  intros Hd Hcs Hgt Hct Hl Hp Hb Hw Hc Hch Hwh Hu. unfold Sect.panel_df.
  pose proof (sect_joined_keys A comp_sect gdp_total comp_total lfs_agg pop
                br wti coal chem wheat us_cad Hcs Hgt Hct Hl Hp Hb Hw Hc Hch Hwh Hu) as HJ.
  rewrite filter_all.
  - rewrite map_map, <- HJ. apply map_ext. intros x. apply sect_finish_key.
  - intros r Hr. apply in_map_iff in Hr. destruct Hr as [x [<- Hx]].
    assert (Hin : In (fst x) (map fst A)) by (rewrite <- HJ; exact (in_map fst _ _ Hx)).
    apply Hd in Hin.
    assert (E1 : Sect.Year (Sect.finish x) = fst (fst (fst x)))
      by exact (f_equal (fun k : YPS => fst (fst k)) (sect_finish_key x)).
    assert (E2 : Sect.Province (Sect.finish x) = snd (fst (fst x)))
      by exact (f_equal (fun k : YPS => snd (fst k)) (sect_finish_key x)).
    rewrite E1, E2. exact Hin.
Qed.

(** X22. With the sector GDP, the employment table, the five annual series and
    the exchange-rate table as the script builds them, it is enough that
    the population table is unique on its keys: the assembly does not
    raise and the sector-level panel has the keys of its anchor, row for
    row. *)
Theorem sector_panel_of_the_script
    (raw80 raw90 gdp80 gdp90 : Frame (option Z)) (cpi : list (YP * float))
    (comp_sect : list (YPS * float)) (gdp_total comp_total : list (YP * float))
    (lfs : Frame Z) (employment pop : list (YP * float))
    (br wti coal chem wheat fx_raw : list (Z * float)) (log : float -> float) :
  load raw80 = Ok gdp80 -> load raw90 = Ok gdp90 ->
  lfs_agg lfs = Ok employment ->
  NoDup (map fst pop) ->
  exists p,
    assemble (gdp_sectors gdp80 gdp90 cpi) comp_sect gdp_total comp_total employment pop
             (annual_mean br) (annual_mean wti) (annual_mean coal) (annual_mean chem)
             (annual_mean wheat) (us_cad log fx_raw) = Ok p /\
    map (fun r => (Sect.Year r, Sect.Province r, Sect.Sector r)) (panel_df p) =
      map fst (anchor p) /\
    List.length (panel_df p) = List.length (anchor p).
Proof.
  intros H80 H90 Hl Hp. unfold assemble.
  rewrite !(sum_duplicates_assert yps_eqb yps_eqb_eq).
  rewrite !(sum_duplicates_assert yp_eqb yp_eqb_eq).
  cbn [bind]. eexists. split; [reflexivity|]. cbn [anchor panel_df].
  assert (Hkeys :
    map (fun r => (Sect.Year r, Sect.Province r, Sect.Sector r))
        (Sect.panel_df (sum_duplicates yps_eqb (gdp_sectors gdp80 gdp90 cpi))
           (sum_duplicates yps_eqb comp_sect) (sum_duplicates yp_eqb gdp_total)
           (sum_duplicates yp_eqb comp_total) employment pop
           (annual_mean br) (annual_mean wti) (annual_mean coal) (annual_mean chem)
           (annual_mean wheat) (us_cad log fx_raw)) =
    map fst (sum_duplicates yps_eqb (gdp_sectors gdp80 gdp90 cpi))).
  { apply panel_keys_when_unique;
      try apply annual_mean_NoDup;
      try apply us_cad_NoDup;
      try apply (sum_duplicates_NoDup yps_eqb yps_eqb_eq);
      try apply (sum_duplicates_NoDup yp_eqb yp_eqb_eq);
      try assumption.
    - intros k Hk. rewrite (sum_duplicates_keys yps_eqb) in Hk.
      apply (proj1 (unique_In yps_eqb yps_eqb_eq _ _)) in Hk.
      exact (gdp_sectors_domain cpi k H80 H90 Hk).
    - exact (lfs_agg_NoDup lfs employment Hl). }
  split; [exact Hkeys|].
  rewrite <- (length_map (fun r => (Sect.Year r, Sect.Province r, Sect.Sector r))), Hkeys.
  apply length_map.
Qed.

Lemma sector_panel_of_the_script_witness :
  exists p,
    assemble (gdp_sectors (unwrap (load sample_raw80) sample_raw80)
                          (unwrap (load sample_raw90) sample_raw90) sample_cpi)
             [] [] [] [((1980, "Alberta"), 1001000%float)] sample_population
             (annual_mean sample_bank_rate) (annual_mean []) (annual_mean [])
             (annual_mean []) (annual_mean []) (us_cad (fun x => x) sample_fx_raw) = Ok p /\
    map (fun r => (Sect.Year r, Sect.Province r, Sect.Sector r)) (panel_df p) =
      map fst (anchor p) /\
    List.length (panel_df p) = List.length (anchor p).
Proof.
  apply (sector_panel_of_the_script sample_raw80 sample_raw90 _ _ sample_cpi
           [] [] [] sample_lfs_frame _ _ _ _ _ _ _ _ (fun x => x)).
  - vm_compute. reflexivity.
  - vm_compute. reflexivity.
  - vm_compute. reflexivity.
  - unfold sample_population. nodup_keys.
Defined.

(** ** Reading the event columns back *)

Lemma add_event_vars_row_cols {R : Type} (Year_of : R -> Z) (Province_of : R -> string)
    (name : string) (year : Z) (treated : list string) (w : Z) (r : Annotated R) :
  (forall c, In c (treated_col name :: post_col name :: rel_col name ::
                   map (bin_col name) (offsets w)) ->
             ~ In c (map fst (event_cols r))) ->
  let is_treated := isin (Province_of (base r)) treated in
  let rel := if is_treated then Some (Year_of (base r) - year) else None in
  event_cols (add_event_vars_row Year_of Province_of name year treated w r) =
    (event_cols r ++
     [(treated_col name, Some (if is_treated then 1 else 0));
      (post_col name, Some (if (year <=? Year_of (base r)) && is_treated then 1 else 0));
      (rel_col name, rel)]) ++
    map (fun k => (bin_col name k, Some (indicator rel k))) (offsets w).
Proof.
  intros Hfresh is_treated rel.
  destruct (base_cols_distinct name) as (Htp & Htr & Hpr).
  assert (Ft : ~ In (treated_col name) (map fst (event_cols r)))
    by (apply Hfresh; simpl; auto).
  assert (Fp : ~ In (post_col name) (map fst (event_cols r)))
    by (apply Hfresh; simpl; auto).
  assert (Fr : ~ In (rel_col name) (map fst (event_cols r)))
    by (apply Hfresh; simpl; auto).
  unfold add_event_vars_row. cbn [base event_cols].
  set (c1 := event_cols r ++ [(treated_col name, Some (if is_treated then 1 else 0))]).
  set (c2 := c1 ++ [(post_col name,
                     Some (if (year <=? Year_of (base r)) && is_treated then 1 else 0))]).
  assert (Fp1 : ~ In (post_col name) (map fst c1)).
  { unfold c1. rewrite map_app, in_app_iff. simpl. intros [H|[H|[]]]; [tauto|].
    now apply Htp. }
  assert (Fr2 : ~ In (rel_col name) (map fst c2)).
  { unfold c2, c1. rewrite !map_app, !in_app_iff. simpl.
    intros [[H|[H|[]]]|[H|[]]]; [tauto | now apply Htr | now apply Hpr]. }
  rewrite (set_col_fresh (treated_col name)) by exact Ft.
  rewrite get_col_snoc_same by exact Ft.
  fold is_treated.
  replace ((if is_treated then 1 else 0) =? 1) with is_treated by now destruct is_treated.
  fold c1. rewrite (set_col_fresh (post_col name)) by exact Fp1.
  fold c2. rewrite (set_col_fresh (rel_col name)) by exact Fr2.
  fold rel. rewrite bins_loop with (rel := rel).
  - fold (offsets w). unfold c2, c1. rewrite <- !app_assoc. reflexivity.
  - apply range_NoDup.
  - intros k Hk Hk1. unfold c2, c1. rewrite !map_app, !in_app_iff. simpl.
    destruct (bin_col_not_base name k) as (B1 & B2 & B3).
    intros [[[H|[H|[]]]|[H|[]]]|[H|[]]]; try congruence.
    revert H. apply Hfresh. simpl. right; right; right. apply in_map.
    apply offsets_In. apply range_In in Hk. lia.
  - now apply get_col_snoc_same.
Qed.

Lemma get_col_bins name rel (ks : list Z) k :
  In k ks ->
  get_col (bin_col name k) (map (fun k => (bin_col name k, Some (indicator rel k))) ks) =
  Some (indicator rel k).
Proof.
  unfold get_col. induction ks as [|x t IH]; intros Hk; [contradiction|]. simpl.
  destruct (String.eqb (bin_col name k) (bin_col name x)) eqn:E.
  - apply String.eqb_eq in E. apply bin_col_inj in E. now subst.
  - destruct Hk as [->|Hk]; [|now apply IH]. rewrite String.eqb_refl in E. discriminate.
Qed.

(** X26. Reading a frame whose column names were new to it: the indicator
    column of an offset holds 1 on the treated rows whose relative time is
    that offset and 0 on every other row; so an untreated row, a treated
    row at the relative time -1 and a treated row outside the window have
    0 in all the indicator columns of the event, and post = 1 only on a
    treated row of the event year or later. *)
Theorem event_columns_read_back {R : Type} (Year_of : R -> Z) (Province_of : R -> string)
    (name : string) (year : Z) (treated : list string) (w : Z) (r : Annotated R) :
  (forall c, In c (treated_col name :: post_col name :: rel_col name ::
                   map (bin_col name) (offsets w)) ->
             ~ In c (map fst (event_cols r))) ->
  let cols := event_cols (add_event_vars_row Year_of Province_of name year treated w r) in
  let is_treated := isin (Province_of (base r)) treated in
  let t := Year_of (base r) - year in
  (forall k, In k (offsets w) ->
     get_col (bin_col name k) cols = Some (if is_treated && (t =? k) then 1 else 0)) /\
  (is_treated = false \/ t = -1 \/ t < - w \/ w < t ->
   forall k, In k (offsets w) -> get_col (bin_col name k) cols = Some 0) /\
  (get_col (post_col name) cols = Some 1 <-> is_treated = true /\ year <= Year_of (base r)) /\
  get_col (rel_col name) cols = (if is_treated then Some t else None).
Proof.
  intros Hfresh cols is_treated t.
  pose proof (add_event_vars_row_cols Year_of Province_of name year treated w r Hfresh) as E.
  cbv zeta in E. fold is_treated t cols in E.
  destruct (base_cols_distinct name) as (Htp & Htr & Hpr).
  assert (Ft : ~ In (treated_col name) (map fst (event_cols r)))
    by (apply Hfresh; simpl; auto).
  assert (Fp : ~ In (post_col name) (map fst (event_cols r)))
    by (apply Hfresh; simpl; auto).
  assert (Fr : ~ In (rel_col name) (map fst (event_cols r)))
    by (apply Hfresh; simpl; auto).
  set (rel := if is_treated then Some t else None) in *.
  set (three := [(treated_col name, Some (if is_treated then 1 else 0));
                 (post_col name,
                  Some (if (year <=? Year_of (base r)) && is_treated then 1 else 0));
                 (rel_col name, rel)]) in *.
  assert (Hbin : forall k, In k (offsets w) ->
                           get_col (bin_col name k) cols = Some (indicator rel k)).
  { intros k Hk. rewrite E, get_col_app.
    rewrite existsb_col_false.
    - now apply get_col_bins.
    - destruct (bin_col_not_base name k) as (B1 & B2 & B3).
      rewrite map_app, in_app_iff. unfold three. simpl.
      intros [H|[H|[H|[H|[]]]]]; try congruence.
      revert H. apply Hfresh. simpl. right; right; right. now apply in_map. }
  assert (Hbase : forall c v,
            In (c, v) three ->
            (forall k, c <> bin_col name k) ->
            get_col c (event_cols r ++ three) = get_col c three).
  { intros c v Hc _. rewrite get_col_app, existsb_col_false; [reflexivity|].
    apply Hfresh. unfold three in Hc. simpl in Hc. simpl.
    destruct Hc as [H|[H|[H|[]]]]; inversion H; auto. }
  assert (Hnb : forall c, In c [treated_col name; post_col name; rel_col name] ->
                          get_col c cols = get_col c three).
  { intros c Hc. rewrite E, get_col_app.
    assert (Hin : exists v, In (c, v) three).
    { unfold three. simpl in Hc. destruct Hc as [<-|[<-|[<-|[]]]]; eexists; simpl; eauto. }
    destruct Hin as [v Hv].
    assert (Hex : existsb (fun x => String.eqb c (fst x)) (event_cols r ++ three) = true).
    { apply existsb_exists. exists (c, v). split; [apply in_or_app; now right|].
      apply String.eqb_refl. }
    rewrite Hex. apply (Hbase c v Hv). intros k Hk.
    destruct (bin_col_not_base name k) as (B1 & B2 & B3).
    simpl in Hc. destruct Hc as [<-|[<-|[<-|[]]]]; congruence. }
  split; [|split; [|split]].
  - intros k Hk. rewrite (Hbin k Hk). unfold rel, indicator.
    destruct is_treated; reflexivity.
  - intros Hcase k Hk. rewrite (Hbin k Hk). unfold rel, indicator.
    destruct is_treated; [|reflexivity].
    destruct (t =? k) eqn:Et; [|reflexivity].
    apply Z.eqb_eq in Et. apply offsets_In in Hk.
    destruct Hcase as [H|H]; [discriminate|]. exfalso. lia.
  - rewrite (Hnb (post_col name)) by (simpl; auto).
    unfold three, get_col. simpl.
    apply String.eqb_neq in Htp. rewrite String.eqb_sym in Htp. rewrite Htp.
    rewrite String.eqb_refl. simpl.
    destruct (year <=? Year_of (base r)) eqn:Ey; destruct is_treated; simpl;
      rewrite ?Z.leb_le, ?Z.leb_gt in Ey; split; try discriminate; try tauto;
      intros [H1 H2]; try discriminate; lia.
  - rewrite (Hnb (rel_col name)) by (simpl; auto).
    unfold three, get_col. simpl.
    apply String.eqb_neq in Htr. rewrite String.eqb_sym in Htr. rewrite Htr.
    apply String.eqb_neq in Hpr. rewrite String.eqb_sym in Hpr. rewrite Hpr.
    rewrite String.eqb_refl. reflexivity.
Qed.

Lemma event_columns_read_back_witness :
  let r := mkAnnotated (1991, "Newfoundland And Labrador") [] in
  let cols := event_cols (add_event_vars_row fst snd "COD" 1992 TREAT_NFLD 4 r) in
  get_col (bin_col "COD" (-2)) cols = Some 0 /\
  get_col (rel_col "COD") cols = Some (-1).
Proof.
  intros r cols.
  assert (Hf : forall c, In c (treated_col "COD" :: post_col "COD" :: rel_col "COD" ::
                               map (bin_col "COD") (offsets 4)) ->
                         ~ In c (map fst (event_cols r))) by (intros c _ H; exact H).
  pose proof (event_columns_read_back fst snd "COD" 1992 TREAT_NFLD 4 r Hf) as H.
  split.
  - refine (proj1 H (-2) _). right. right. left. reflexivity.
  - exact (proj2 (proj2 (proj2 H))).
Defined.

(** ** The completeness check of the total GDP *)

(** X8. The check lists missing keys only when the table does not have 189
    rows: what it lists is then exactly the grid keys that are not keys of
    the table, and it lists them whenever there is one; a table of 189
    rows is passed in silence. *)
Theorem gdp_total_missing_spec (gdp_total : list (YP * float)) :
  (List.length gdp_total = 189%nat -> gdp_total_missing gdp_total = None) /\
  (forall miss, gdp_total_missing gdp_total = Some miss ->
     List.length gdp_total <> 189%nat /\ miss <> [] /\
     forall k, In k miss <-> In k grid /\ ~ In k (map fst gdp_total)) /\
  (List.length gdp_total <> 189%nat ->
   forall k, In k grid -> ~ In k (map fst gdp_total) ->
   exists miss, gdp_total_missing gdp_total = Some miss /\ In k miss).
Proof.
  unfold gdp_total_missing.
  change (9 * (1995 - 1975 + 1))%nat with 189%nat.
  assert (Hm : forall k,
    In k (filter (fun k => negb (existsb (yp_eqb k) (map fst gdp_total))) grid) <->
    In k grid /\ ~ In k (map fst gdp_total)).
  { intros k. rewrite filter_In, negb_true_iff. split; intros [Hg H]; (split; [exact Hg|]).
    - intros Hin. apply (existsb_eqb_In yp_eqb yp_eqb_eq) in Hin. congruence.
    - destruct (existsb (yp_eqb k) (map fst gdp_total)) eqn:Ee; [|reflexivity].
      exfalso. apply H. now apply (existsb_eqb_In yp_eqb yp_eqb_eq). }
  destruct (List.length gdp_total =? 189)%nat eqn:E.
  - apply Nat.eqb_eq in E. split; [reflexivity|]. split; [discriminate|].
    intros H. contradiction.
  - apply Nat.eqb_neq in E. split; [intros H; contradiction|].
    revert Hm.
    generalize (filter (fun k => negb (existsb (yp_eqb k) (map fst gdp_total))) grid).
    intros l Hm. split.
    + intros miss H. destruct l as [|x t]; [discriminate|]. inversion H; subst miss.
      split; [exact E|]. split; [discriminate | exact Hm].
    + intros _ k Hg Hk. destruct l as [|x t].
      * exfalso. apply (proj2 (Hm k)). split; assumption.
      * eexists. split; [reflexivity|]. apply Hm. split; assumption.
Qed.

(** A table of 189 rows in which (1975, Alberta) stands twice and the
    last key of the grid is absent: nothing is listed. *)
Example gdp_total_missing_silent :
  List.length sample_gdp_total_189 = 189%nat /\
  existsb (yp_eqb (1995, "Saskatchewan")) (map fst sample_gdp_total_189) = false /\
  gdp_total_missing sample_gdp_total_189 = None.
Proof. vm_compute. repeat split. Qed.

(** ** The unit scaler *)

Lemma mul_nan_l x y : isna x = true -> isna (x * y)%float = true.
Proof.
  rewrite !isna_spec, mul_spec. unfold SF64mul, SFmul.
  destruct (Prim2SF x); try discriminate. reflexivity.
Qed.

(** X3. The scaler keeps the rows and their order and changes no column but
    VALUE_DOLLARS, which is VALUE times 1, 1000 or 1000000; the factor is 1
    for an absent tag and for a tag that does not lower to "thousands" or
    "millions"; a missing VALUE gives a missing VALUE_DOLLARS. *)
Theorem add_dollar_value_spec {Y : Type} (df : Frame Y) :
  Forall2 (fun r r' =>
             Year r' = Year r /\ text r' = text r /\ VALUE r' = VALUE r /\
             SCALAR_FACTOR r' = SCALAR_FACTOR r /\ Province r' = Province r /\
             VALUE_DOLLARS r' = (VALUE r * scale_mult (SCALAR_FACTOR r))%float /\
             (isna (VALUE r) = true -> isna (VALUE_DOLLARS r') = true))
          (rows df) (rows (add_dollar_value df)) /\
  (forall tag, scale_mult tag = 1%float \/ scale_mult tag = 1000%float \/
               scale_mult tag = 1000000%float) /\
  (forall tag, scale_mult tag <> 1%float ->
               exists s, tag = Some s /\ (lower s = "thousands" \/ lower s = "millions")).
Proof.
  split; [|split].
  - unfold add_dollar_value. cbn [rows]. induction (rows df) as [|r t IH]; simpl.
    + constructor.
    + constructor; [|exact IH]. cbn. repeat split. apply mul_nan_l.
  - intros [s|]; [|now left]. unfold scale_mult, SCALE_MAP. simpl.
    destruct (String.eqb (lower s) "units"); [now left|].
    destruct (String.eqb (lower s) "thousands"); [right; now left|].
    destruct (String.eqb (lower s) "millions"); [right; now right | now left].
  - intros [s|]; [|intros H; now contradiction H]. unfold scale_mult, SCALE_MAP. simpl.
    destruct (String.eqb (lower s) "units"); [intros H; now contradiction H|].
    destruct (String.eqb (lower s) "thousands") eqn:E1.
    + intros _. exists s. apply String.eqb_eq in E1. auto.
    + destruct (String.eqb (lower s) "millions") eqn:E2.
      * intros _. exists s. apply String.eqb_eq in E2. auto.
      * intros H. now contradiction H.
Qed.

(** ** Annual compensation *)

(** X11. Deflated with the final CPI table, the annual compensation has one
    row per (Year, Province, Sector), and so the total compensation one
    row per (Year, Province). *)
Theorem comp_annual_unique_keys (comp_raw : Frame Z) (cpi : list (Obs Z)) :
  let ca := comp_annual comp_raw (cpi_final cpi) in
  NoDup (map comp_key ca) /\ NoDup (map fst (comp_total ca)).
Proof.
  intros ca.
  pose proof (cpi_final_NoDup cpi) as Hcpi.
  assert (Hk : map comp_key ca =
               map fst (groupby yps_eqb sort_yps sum_skipna (comp_monthly comp_raw))).
  { unfold ca, comp_annual, comp_annual_merged. rewrite map_map. cbn [comp_key].
    rewrite <- (merge_left_keys yp_eqb yp_eqb_eq (fun r : YPS * float => fst (fst r))
                  (groupby yps_eqb sort_yps sum_skipna (comp_monthly comp_raw))
                  (cpi_final cpi) nan Hcpi) at 2.
    rewrite map_map. reflexivity. }
  assert (Hnd : NoDup (map comp_key ca))
    by (rewrite Hk; apply (groupby_sorted_NoDup yps_eqb yps_eqb_eq)).
  split; [exact Hnd|].
  unfold comp_total. rewrite map_map. cbn [fst]. clear Hk. 
  induction ca as [|r t IH]; [constructor|].
  inversion Hnd as [|? ? Hx Ht]; subst. simpl.
  destruct (String.eqb (comp_sector r) "TOTAL") eqn:E; [|now apply IH].
  simpl. constructor; [|now apply IH].
  intros H. apply Hx. apply in_map_iff in H. destruct H as [r' [Ek Hr']].
  apply filter_In in Hr'. destruct Hr' as [Hr' E'].
  apply in_map_iff. exists r'. split; [|exact Hr'].
  apply String.eqb_eq in E, E'. unfold comp_yp, comp_sector in *.
  destruct (comp_key r') as [k' s'], (comp_key r) as [k s]. simpl in *. congruence.
Qed.

(** ** The geography normaliser is idempotent *)























Example normalize_province_sample :
  map normalize_province ["  nfld. "; "B.C."; "ONTARIO"; "new brunswick"; "Canada"] =
  ["Newfoundland And Labrador"; "British Columbia"; "Ontario"; "New Brunswick"; "Canada"].
Proof. vm_compute. reflexivity. Qed.

(** ** The population table is not aggregated *)




(** The 1976 row of the sample is copied to 1975. *)
Example population_sample :
  population sample_pop_frame =
  [((1976, "Alberta"), 1800000%float); ((1977, "Alberta"), 1900000%float);
   ((1975, "Alberta"), 1800000%float)].
Proof. vm_compute. reflexivity. Qed.
